(** * dyPolyChord: the dynamic nested sampling driver [run_dypolychord]

    A shallow embedding of [dyPolyChord/run_dynamic_ns.py].  The function
    drives an external sampler ([run_func]) through an exploratory run, asks
    the allocation engine for a live-point schedule, and launches the
    dynamic run.  Its behaviour is control flow over three kinds of state,
    all of which are kept explicit here:

    - the Python heap of settings dictionaries (the caller's dictionary is
      edited in place, the working dictionaries are deep copies of it);
    - the files under [base_dir], through [shutil.copyfile] and [os.remove];
    - the sequence of calls made to the collaborators, which is recorded in
      a log so that statements about "the k-th sampler invocation" can be
      made.

    The sampler, the readers of nestcheck, the allocation engine and the
    pickling helper are not part of this file of the repository; they are
    parameters of the model. *)

From Stdlib Require Import ZArith QArith Ascii String List Lia.
From stdpp Require Import base option numbers list gmap strings pretty.

Local Open Scope Z_scope.

(** ** Python values *)

(** The values that occur in settings dictionaries and keyword arguments.
    A binary64 number is represented by the rational it denotes; the two
    float operations the driver performs are parameters (see
    [collaborators]), so nothing here depends on rounding.  The [nlives]
    dictionary maps likelihood thresholds to live-point counts. *)
Inductive value :=
| VNone
| VBool (b : bool)
| VInt (n : Z)
| VFloat (x : Q)
| VStr (s : string)
| VNlives (d : list (Q * Z))
| VFun (name : string).

Abbreviation dict := (gmap string value).

(** Python truthiness, used by [assert not ...] and [if kwargs]. *)
Definition truthy (v : value) : bool :=
  match v with
  | VNone => false
  | VBool b => b
  | VInt n => negb (Z.eqb n 0)
  | VFloat x => negb (Qeq_bool x 0)
  | VStr s => negb (String.eqb s "")
  | VNlives d => match d with [] => false | _ => true end
  | VFun _ => true
  end.

Inductive exn :=
| TypeError (msg : string)
| AssertionError (msg : string)
| KeyError (key : string)
| NameError (name : string)
| IndexError
| ValueError
| ZeroDivisionError
| FileNotFoundError (path : string)
| IsADirectoryError (path : string)
| SameFileError (path : string).

(** Integers as Python sees them: [bool] is a subclass of [int].  Any other
    operand of the integer arithmetic of the driver is outside the model
    and is reported as a [TypeError]. *)
Definition as_int (v : value) : exn + Z :=
  match v with
  | VInt n => inr n
  | VBool b => inr (if b then 1 else 0)
  | _ => inl (TypeError "unsupported operand type")
  end.

Definition as_str (v : value) : exn + string :=
  match v with
  | VStr s => inr s
  | _ => inl (TypeError "expected str")
  end.

(** [a + b] on the operands the driver uses: int + int and str + str. *)
Definition py_add (a b : value) : exn + value :=
  match a, b with
  | VStr s, VStr t => inr (VStr (s +:+ t))
  | VStr _, _ | _, VStr _ => inl (TypeError "can only concatenate str to str")
  | _, _ =>
      match as_int a, as_int b with
      | inr m, inr n => inr (VInt (m + n))
      | inl e, _ | _, inl e => inl e
      end
  end.

(** [str(n)] for an int. *)
Definition str (n : Z) : string := pretty n.

(** [os.path.join(a, b)] for two components (POSIX). *)
Definition starts_with_slash (s : string) : bool :=
  match s with
  | String c _ => Ascii.eqb c "/"%char
  | EmptyString => false
  end.

Fixpoint ends_with_slash (s : string) : bool :=
  match s with
  | EmptyString => false
  | String c EmptyString => Ascii.eqb c "/"%char
  | String _ rest => ends_with_slash rest
  end.

Definition path_join (a b : string) : string :=
  if starts_with_slash b then b
  else if String.eqb a "" || ends_with_slash a then a +:+ b
  else a +:+ "/" +:+ b.

(** ** Collaborators *)

(** Output of [nestcheck.data_processing.process_polychord_stats]. *)
Record stats := mkStats { ndead : Z; nlike : Z }.

(** Output of [nestcheck.data_processing.process_polychord_run]; the driver
    itself only reads [logl.shape[0]]. *)
Record ns_run := mkRun {
  logl : list Q;
  thread_labels : list Z;
  nlive_array : list Z
}.

(** Output of [dyPolyChord.nlive_allocation.allocate], with the two entries
    the driver adds before pickling it. *)
Record dyn_info := mkDynInfo {
  peak_start_ind : Z;
  nlives_dict : list (Q * Z);
  importance : list Q;
  resume_ndead : option Z;
  resume_nlike : option Z
}.

(** The [smoothing_filter] handed to [allocate]: the default closure over
    [ninit], or whatever the caller supplied. *)
Inductive smoothing :=
| DefaultSavgol (window_ninit : value)
| UserFilter (f : value).

(** A flat view of the files under [base_dir]: a path holds a regular file
    or is a directory.  Parent directories are not modelled. *)
Inductive node :=
| File (content : string)
| Dir.

Abbreviation files := (gmap string node).

(** [run_func]: all its effects are files written under [base_dir]; it may
    raise. *)
Definition sampler := dict → files → exn + files.

Record collaborators := mkCollab {
  process_polychord_stats : string → string → files → exn + stats;
  process_polychord_run : string → string → files → exn + ns_run;
  allocate : ns_run → value → Q → smoothing → exn + dyn_info;
  pickle_save : dyn_info → string → files → exn + files;
  (** [a / b] on ints with [b <> 0], and [n * x] for an int and a float *)
  int_truediv : Z → Z → Q;
  int_mul_float : Z → Q → Q
}.

(** ** Program state *)

Inductive event :=
| EvRun (obj : nat) (config : dict)
| EvStats (out : stats)
| EvLoadRun (run : ns_run)
| EvAllocate (samp_tot : value) (info : dyn_info)
| EvCopy (src dst : string)
| EvRemove (path : string)
| EvPickle (info : dyn_info) (path : string).

(** [heap] maps object identities to dictionaries; [next_loc] is the next
    unused identity.  [log] records, in order, every call that leaves the
    driver: [EvRun obj config] is [run_func(d)] where [d] is the object
    [obj], holding [config] at the time of the call. *)
Record state := mkState {
  heap : gmap nat dict;
  next_loc : nat;
  fs : files;
  log : list event
}.

Inductive outcome (A : Type) :=
| Ok (a : A)
| Raise (e : exn)
| OutOfFuel.
Arguments Ok {A} a.
Arguments Raise {A} e.
Arguments OutOfFuel {A}.

(** Computations: side effects persist when an exception is raised. *)
Definition M (A : Type) : Type := state → outcome A * state.

Definition ret {A} (a : A) : M A := λ s, (Ok a, s).
Definition raise {A} (e : exn) : M A := λ s, (Raise e, s).
Definition out_of_fuel {A} : M A := λ s, (OutOfFuel, s).

Definition bind {A B} (m : M A) (k : A → M B) : M B := λ s,
  match m s with
  | (Ok a, s') => k a s'
  | (Raise e, s') => (Raise e, s')
  | (OutOfFuel, s') => (OutOfFuel, s')
  end.

#[export] Instance M_ret : MRet M := @ret.
#[export] Instance M_bind : MBind M := λ A B k m, bind m k.

Definition lift {A} (r : exn + A) : M A :=
  match r with
  | inl e => raise e
  | inr a => ret a
  end.

Definition emit (e : event) : M unit := λ s,
  (Ok tt, mkState (heap s) (next_loc s) (fs s) (log s ++ [e])).

Definition py_assert (b : bool) (msg : string) : M unit :=
  if b then ret tt else raise (AssertionError msg).

(** *** Dictionaries on the heap *)

Definition read_obj (l : nat) : M dict := λ s,
  match heap s !! l with
  | Some d => (Ok d, s)
  | None => (Raise (NameError "dangling reference"), s)
  end.

Definition write_obj (l : nat) (d : dict) : M unit := λ s,
  (Ok tt, mkState (<[l := d]> (heap s)) (next_loc s) (fs s) (log s)).

(** [d[k]] *)
Definition getitem (l : nat) (k : string) : M value :=
  d ← read_obj l;
  match d !! k with
  | Some v => ret v
  | None => raise (KeyError k)
  end.

(** [k in d] *)
Definition contains (l : nat) (k : string) : M bool :=
  d ← read_obj l;
  ret (bool_decide (is_Some (d !! k))).

(** [d[k] = v] *)
Definition setitem (l : nat) (k : string) (v : value) : M unit :=
  d ← read_obj l;
  write_obj l (<[k := v]> d).

Definition alloc (d : dict) : M nat := λ s,
  (Ok (next_loc s),
   mkState (<[next_loc s := d]> (heap s)) (S (next_loc s)) (fs s) (log s)).

(** [copy.deepcopy(d)]: a new object with the same content. *)
Definition deepcopy (l : nat) : M nat :=
  d ← read_obj l;
  alloc d.

(** *** Files *)

Definition get_fs : M files := λ s, (Ok (fs s), s).
Definition put_fs (f : files) : M unit := λ s,
  (Ok tt, mkState (heap s) (next_loc s) f (log s)).

(** [shutil.copyfile(src, dst)] on the files. *)
Definition copy_fs (src dst : string) (f : files) : exn + files :=
  match f !! src with
  | None => inl (FileNotFoundError src)
  | Some Dir => inl (IsADirectoryError src)
  | Some (File c) =>
      if bool_decide (src = dst) then inl (SameFileError src)
      else match f !! dst with
           | Some Dir => inl (IsADirectoryError dst)
           | _ => inr (<[dst := File c]> f)
           end
  end.

Definition copyfile (src dst : string) : M unit :=
  emit (EvCopy src dst);;
  f ← get_fs;
  f' ← lift (copy_fs src dst f);
  put_fs f'.

(** [os.remove(path)] on the files. *)
Definition remove_fs (path : string) (f : files) : exn + files :=
  match f !! path with
  | None => inl (FileNotFoundError path)
  | Some Dir => inl (IsADirectoryError path)
  | Some (File _) => inr (delete path f)
  end.

Definition os_remove (path : string) : M unit :=
  emit (EvRemove path);;
  f ← get_fs;
  f' ← lift (remove_fs path f);
  put_fs f'.

(** [try: m  except FileNotFoundError: pass] *)
Definition except_file_not_found (m : M unit) : M unit := λ s,
  match m s with
  | (Raise (FileNotFoundError _), s') => (Ok tt, s')
  | r => r
  end.

(** *** Calls to the collaborators *)

(** [run_func(settings_dict)] *)
Definition call_run_func (run_func : sampler) (l : nat) : M unit :=
  d ← read_obj l;
  emit (EvRun l d);;
  f ← get_fs;
  f' ← lift (run_func d f);
  put_fs f'.

(** [process_polychord_stats(file_root, base_dir)] *)
Definition call_stats (C : collaborators) (file_root base_dir : value) : M stats :=
  fr ← lift (as_str file_root);
  bd ← lift (as_str base_dir);
  f ← get_fs;
  out ← lift (process_polychord_stats C fr bd f);
  emit (EvStats out);;
  mret out.

(** [process_polychord_run(file_root, base_dir)] *)
Definition call_load_run (C : collaborators) (file_root base_dir : value) : M ns_run :=
  fr ← lift (as_str file_root);
  bd ← lift (as_str base_dir);
  f ← get_fs;
  run ← lift (process_polychord_run C fr bd f);
  emit (EvLoadRun run);;
  mret run.

(** [allocate(init_run, samp_tot, dynamic_goal, smoothing_filter=...)] *)
Definition call_allocate (C : collaborators) (init_run : ns_run)
    (samp_tot : value) (dynamic_goal : Q) (sf : smoothing) : M dyn_info :=
  info ← lift (allocate C init_run samp_tot dynamic_goal sf);
  emit (EvAllocate samp_tot info);;
  mret info.

(** [iou.pickle_save(dyn_info, path, overwrite_existing=True)] *)
Definition call_pickle_save (C : collaborators) (info : dyn_info) (path : string) : M unit :=
  emit (EvPickle info path);;
  f ← get_fs;
  f' ← lift (pickle_save C info path f);
  put_fs f'.

(** A local variable that is only bound on some paths: reading it where it
    is unbound raises [UnboundLocalError], a [NameError]. *)
Definition local {A} (name : string) (v : option A) : M A :=
  match v with
  | Some a => mret a
  | None => raise (NameError name)
  end.

(** [for x in xs: body(x)] *)
Fixpoint for_each {A} (xs : list A) (body : A → M unit) : M unit :=
  match xs with
  | [] => mret tt
  | x :: rest => body x;; for_each rest body
  end.

(** ** [run_dypolychord] *)

Definition default_settings : list (string * value) :=
  [ ("nlive", VInt 100);
    ("num_repeats", VInt 20);
    ("file_root", VStr "temp");
    ("base_dir", VStr "chains");
    ("seed", VInt (-1));
    ("do_clustering", VBool true);
    ("max_ndead", VInt (-1));
    ("write_dead", VBool true);
    ("write_stats", VBool true);
    ("write_live", VBool false);
    ("write_paramnames", VBool false);
    ("equals", VBool false);
    ("cluster_posteriors", VBool false);
    ("nlives", VNlives []);
    ("write_resume", VBool false);
    ("read_resume", VBool false) ].

(** [for key, value in default_settings.items():
       if key not in settings_dict_in: settings_dict_in[key] = value] *)
Fixpoint apply_defaults (settings_dict_in : nat) (defaults : list (string * value)) : M unit :=
  match defaults with
  | [] => mret tt
  | (key, v) :: rest =>
      present ← contains settings_dict_in key;
      (if present : bool then mret tt else setitem settings_dict_in key v);;
      apply_defaults settings_dict_in rest
  end.

(** [kwargs.pop(k, dflt)] *)
Definition pop (kwargs : dict) (k : string) (dflt : value) : value * dict :=
  (default dflt (kwargs !! k), delete k kwargs).

(** [kwargs.pop('smoothing_filter', default_smoothing)] *)
Definition pop_smoothing (kwargs : dict) (ninit : value) : smoothing * dict :=
  (match kwargs !! "smoothing_filter" with
   | Some f => UserFilter f
   | None => DefaultSavgol ninit
   end, delete "smoothing_filter" kwargs).

(** [os.path.join(base_dir, file_root)] *)
Definition join_root (base_dir file_root : value) : exn + string :=
  match as_str base_dir, as_str file_root with
  | inr b, inr f => inr (path_join b f)
  | inl e, _ | _, inl e => inl e
  end.

(** [len(step_ndead) >= 2 and step_ndead[-1] == step_ndead[-2]] *)
Definition last_two_equal (step_ndead : list Z) : bool :=
  match rev step_ndead with
  | a :: b :: _ => Z.eqb a b
  | _ => false
  end.

(** [root + '_init_' + str(snd) + '.resume'] *)
Definition step_file (root : string) (snd : Z) : string :=
  root +:+ "_init_" +:+ str snd +:+ ".resume".

(** The local variables of the checkpointed loop. *)
Record checkpoints := mkCheckpoints {
  step_ndead : list Z;
  outputs_at_resumes : gmap Z stats
}.

(** One pass through the body of [while add_points]; the boolean tells
    whether the pass ended in [break]. *)
Definition exploratory_step (C : collaborators) (run_func : sampler)
    (settings_dict : nat) (init_step seed_increment : value) (root : string)
    (cp : checkpoints) : M (bool * checkpoints) :=
  (if bool_decide (length (step_ndead cp) = 1%nat)
   then setitem settings_dict "read_resume" (VBool true)
   else mret tt);;
  step ← lift (as_int init_step);
  setitem settings_dict "max_ndead"
    (VInt ((Z.of_nat (length (step_ndead cp)) + 1) * step));;
  seed ← getitem settings_dict "seed";
  seed_n ← lift (as_int seed);
  (if 0 <=? seed_n
   then seed' ← lift (py_add seed seed_increment);
        setitem settings_dict "seed" seed'
   else mret tt);;
  call_run_func run_func settings_dict;;
  file_root ← getitem settings_dict "file_root";
  base_dir ← getitem settings_dict "base_dir";
  run_output ← call_stats C file_root base_dir;
  let outputs := <[ndead run_output := run_output]> (outputs_at_resumes cp) in
  nlive ← getitem settings_dict "nlive";
  nlive_n ← lift (as_int nlive);
  let delta := ndead run_output - nlive_n in
  let steps := step_ndead cp ++ [delta] in
  if last_two_equal steps then mret (true, mkCheckpoints steps outputs)
  else
    copyfile (root +:+ "_init.resume") (step_file root delta);;
    mret (false, mkCheckpoints steps outputs).

(** [while add_points: ...]; [add_points] is never reset, so the loop is
    left through [break] only.  [fuel] bounds the number of passes. *)
Fixpoint exploratory_loop (fuel : nat) (C : collaborators) (run_func : sampler)
    (settings_dict : nat) (init_step seed_increment : value) (root : string)
    (cp : checkpoints) : M checkpoints :=
  match fuel with
  | O => out_of_fuel
  | S fuel' =>
      '(stop, cp') ← exploratory_step C run_func settings_dict init_step
                       seed_increment root cp;
      if stop : bool then mret cp'
      else exploratory_loop fuel' C run_func settings_dict init_step
             seed_increment root cp'
  end.

(** Step 1: do initial run.  Returns the working dictionary and, in the
    checkpointed branch only, the loop's local variables. *)
Definition initial_run (fuel : nat) (C : collaborators) (run_func : sampler)
    (settings_dict_in : nat) (dynamic_goal : Q)
    (ninit init_step seed_increment : value) (root : string)
    : M (nat * option checkpoints) :=
  settings_dict ← deepcopy settings_dict_in;
  file_root ← getitem settings_dict_in "file_root";
  file_root_init ← lift (py_add file_root (VStr "_init"));
  setitem settings_dict "file_root" file_root_init;;
  setitem settings_dict "nlive" ninit;;
  if Qeq_bool dynamic_goal 0 then
    call_run_func run_func settings_dict;;
    mret (settings_dict, None)
  else
    setitem settings_dict "write_resume" (VBool true);;
    setitem settings_dict "read_resume" (VBool false);;
    cp ← exploratory_loop fuel C run_func settings_dict init_step
           seed_increment root (mkCheckpoints [] ∅);
    mret (settings_dict, Some cp).

(** [np.where(mask)[0]]: the indices at which the mask holds. *)
Fixpoint np_where_from (i : nat) (mask : list bool) : list nat :=
  match mask with
  | [] => []
  | b :: rest => (if b then [i] else []) ++ np_where_from (S i) rest
  end.

Definition np_where (mask : list bool) : list nat := np_where_from 0 mask.

(** [step_ndead[np.where(resume_steps < peak_start_ind)[0][-1]]] with
    [resume_steps = np.asarray(step_ndead) - 1] *)
Definition select_resume (steps : list Z) (peak : Z) : exn + Z :=
  let resume_steps := map (λ d, d - 1) steps in
  match last (np_where (map (λ r, r <? peak) resume_steps)) with
  | None => inl IndexError
  | Some i =>
      match steps !! i with
      | Some d => inr d
      | None => inl IndexError
      end
  end.

(** Lines 101 to 107: the total number of samples aimed at.  [nsamp] is
    [init_run['logl'].shape[0]]. *)
Definition sample_target (C : collaborators) (max_ndead nlive_const ninit : value)
    (nsamp : Z) : exn + value :=
  match as_int max_ndead with
  | inl e => inl e
  | inr cap =>
      if 0 <? cap then
        if nsamp <? cap then inr max_ndead
        else inl (AssertionError
                    "all points used in initial run and none left for dynamic run!")
      else
        match as_int nlive_const, as_int ninit with
        | inr a, inr b =>
            if b =? 0 then inl ZeroDivisionError
            else if b <? a
                 then inr (VFloat (int_mul_float C nsamp (int_truediv C a b)))
                 else inl (AssertionError "")
        | inl e, _ | _, inl e => inl e
        end
  end.

(** Lines 110 to 120: stage the checkpoint the dynamic run resumes from.
    Returns [resume_ndead], bound only when the peak is not at 0. *)
Definition stage_resume (root : string) (cp : option checkpoints)
    (info : dyn_info) : M (option Z) :=
  if negb (peak_start_ind info =? 0) then
    steps ← local "step_ndead" (step_ndead <$> cp);
    resume_ndead ← lift (select_resume steps (peak_start_ind info));
    copyfile (step_file root resume_ndead) (root +:+ "_dyn.resume");;
    mret (Some resume_ndead)
  else mret None.

(** Lines 121 to 125: remove the temporary resume files. *)
Definition remove_step_files (root : string) (dynamic_goal : Q)
    (cp : option checkpoints) : M unit :=
  if negb (Qeq_bool dynamic_goal 0) then
    steps ← local "step_ndead" (step_ndead <$> cp);
    for_each (elements (list_to_set steps : gset Z))
      (λ snd, os_remove (step_file root snd))
  else mret tt.

(** Step 2: calculate an allocation of live points. *)
Definition allocation (C : collaborators) (settings_dict_in : nat)
    (dynamic_goal : Q) (ninit nlive_const : value) (sf : smoothing)
    (root : string) (cp : option checkpoints) : M (dyn_info * option Z) :=
  file_root ← getitem settings_dict_in "file_root";
  file_root_init ← lift (py_add file_root (VStr "_init"));
  base_dir ← getitem settings_dict_in "base_dir";
  init_run ← call_load_run C file_root_init base_dir;
  max_ndead ← getitem settings_dict_in "max_ndead";
  samp_tot ← lift (sample_target C max_ndead nlive_const ninit
                     (Z.of_nat (length (logl init_run))));
  info ← call_allocate C init_run samp_tot dynamic_goal sf;
  resume ← stage_resume root cp info;
  remove_step_files root dynamic_goal cp;;
  mret (info, resume).

(** [max(d.values())] *)
Definition max_value (d : list (Q * Z)) : exn + Z :=
  match d with
  | [] => inl ValueError
  | (_, n) :: rest => inr (foldl Z.max n (rest.*2))
  end.

(** Lines 150 to 154: tidy up remaining [.resume] files. *)
Definition tidy_up (root : string) : M unit :=
  for_each ["init"; "dyn"]
    (λ extra, except_file_not_found
                (os_remove (root +:+ "_" +:+ extra +:+ ".resume"))).

(** Step 3: do dynamic run. *)
Definition dynamic_run (C : collaborators) (run_func : sampler)
    (settings_dict_in : nat) (dynamic_goal : Q) (ninit seed_increment : value)
    (root : string) (init_dict : nat) (cp : option checkpoints)
    (info : dyn_info) (resume : option Z) : M unit :=
  final_init_seed ← getitem init_dict "seed";
  settings_dict ← deepcopy settings_dict_in;
  final_n ← lift (as_int final_init_seed);
  (if 0 <=? final_n then
     seed_in ← getitem settings_dict_in "seed";
     seed_in_n ← lift (as_int seed_in);
     py_assert (0 <=? seed_in_n)
       "if input seed was <0 it should not have been edited";;
     seed' ← lift (py_add final_init_seed seed_increment);
     setitem settings_dict "seed" seed'
   else mret tt);;
  (if Qeq_bool dynamic_goal 0 then
     m ← lift (max_value (nlives_dict info));
     setitem settings_dict "nlive" (VInt m)
   else setitem settings_dict "nlive" ninit);;
  setitem settings_dict "nlives" (VNlives (nlives_dict info));;
  setitem settings_dict "read_resume" (VBool (negb (peak_start_ind info =? 0)));;
  file_root ← getitem settings_dict_in "file_root";
  file_root_dyn ← lift (py_add file_root (VStr "_dyn"));
  setitem settings_dict "file_root" file_root_dyn;;
  call_run_func run_func settings_dict;;
  info' ←
    (if negb (peak_start_ind info =? 0) then
       resume_ndead ← local "resume_ndead" resume;
       outputs ← local "outputs_at_resumes" (outputs_at_resumes <$> cp);
       match outputs !! resume_ndead with
       | None => raise (KeyError (str resume_ndead))
       | Some out =>
           mret (mkDynInfo (peak_start_ind info) (nlives_dict info)
                   (importance info) (Some resume_ndead) (Some (nlike out)))
       end
     else mret info);
  call_pickle_save C info' (root +:+ "_dyn_info");;
  tidy_up root.

(** The keyword options once [kwargs] has been consumed, with [root]. *)
Record options := mkOptions {
  ninit : value;
  init_step : value;
  nlive_const : value;
  print_time : value;
  seed_increment : value;
  smoothing_filter : smoothing;
  root : string
}.

(** Lines 30 to 63: defaults, keyword options, input checks, [root]. *)
Definition prelude (settings_dict_in : nat) (kwargs : dict) : M options :=
  apply_defaults settings_dict_in default_settings;;
  let '(ninit, kwargs) := pop kwargs "ninit" (VInt 10) in
  let '(init_step, kwargs) := pop kwargs "init_step" ninit in
  nlive_in ← getitem settings_dict_in "nlive";
  let '(nlive_const, kwargs) := pop kwargs "nlive_const" nlive_in in
  let '(print_time, kwargs) := pop kwargs "print_time" (VBool false) in
  let '(seed_increment, kwargs) := pop kwargs "seed_increment" (VInt 100) in
  let '(sf, kwargs) := pop_smoothing kwargs ninit in
  if negb (Nat.eqb (size kwargs) 0) then raise (TypeError "Unexpected **kwargs")
  else
    nlives_in ← getitem settings_dict_in "nlives";
    py_assert (negb (truthy nlives_in)) "";;
    read_resume_in ← getitem settings_dict_in "read_resume";
    py_assert (negb (truthy read_resume_in)) "";;
    base_dir ← getitem settings_dict_in "base_dir";
    file_root ← getitem settings_dict_in "file_root";
    root ← lift (join_root base_dir file_root);
    mret (mkOptions ninit init_step nlive_const print_time seed_increment sf root).

Definition run_dypolychord (fuel : nat) (C : collaborators) (run_func : sampler)
    (settings_dict_in : nat) (dynamic_goal : Q) (kwargs : dict) : M unit :=
  o ← prelude settings_dict_in kwargs;
  '(init_dict, cp) ← initial_run fuel C run_func settings_dict_in dynamic_goal
                        (ninit o) (init_step o) (seed_increment o) (root o);
  '(info, resume) ← allocation C settings_dict_in dynamic_goal (ninit o)
                       (nlive_const o) (smoothing_filter o) (root o) cp;
  dynamic_run C run_func settings_dict_in dynamic_goal (ninit o)
    (seed_increment o) (root o) init_dict cp info resume.

(** The call as the caller sees it: the caller's dictionary is object 0 of
    a heap that holds nothing else. *)
Definition caller : nat := 0%nat.

Definition initial_state (settings : dict) (f : files) : state :=
  mkState {[caller := settings]} 1 f [].

(** ** Observations on the log *)

(** The sampler invocations, in order: the object passed and its content. *)
Definition runs (evs : list event) : list (nat * dict) :=
  omap (λ e, match e with EvRun l c => Some (l, c) | _ => None end) evs.

(** The dead-point counts read back after the invocations, in order. *)
Definition readings (evs : list event) : list Z :=
  omap (λ e, match e with EvStats out => Some (ndead out) | _ => None end) evs.

(** The paths handed to [os.remove], in order. *)
Definition removals (evs : list event) : list string :=
  omap (λ e, match e with EvRemove p => Some p | _ => None end) evs.

(** The copies attempted, in order. *)
Definition copies (evs : list event) : list (string * string) :=
  omap (λ e, match e with EvCopy a b => Some (a, b) | _ => None end) evs.

(** ** A small world to run the driver in *)

Fixpoint parse_digits (s : string) (acc : Z) : option Z :=
  match s with
  | EmptyString => Some acc
  | String c rest =>
      let n := Z.of_nat (nat_of_ascii c) - 48 in
      if (0 <=? n) && (n <=? 9) then parse_digits rest (10 * acc + n) else None
  end.

(** A sampler that dies naturally after [natural] dead points, or earlier
    at a positive [max_ndead].  It writes the dead-point count to
    [<root>.stats], and a checkpoint to [<root>.resume] when asked to. *)
Definition demo_sampler (natural : Z) : sampler := λ cfg f,
  match cfg !! "base_dir", cfg !! "file_root", cfg !! "max_ndead",
        cfg !! "write_resume" with
  | Some (VStr bd), Some (VStr fr), Some (VInt cap), Some wr =>
      let path := path_join bd fr in
      let nd := if (0 <? cap) && (cap <? natural) then cap else natural in
      let f1 := <[path +:+ ".stats" := File (str nd)]> f in
      inr (if truthy wr then <[path +:+ ".resume" := File (str nd)]> f1 else f1)
  | _, _, _, _ => inl (TypeError "bad settings")
  end.

Definition demo_read (file_root base_dir : string) (f : files) : exn + Z :=
  let path := path_join base_dir file_root +:+ ".stats" in
  match f !! path with
  | Some (File c) =>
      match parse_digits c 0 with
      | Some n => inr n
      | None => inl ValueError
      end
  | Some Dir => inl (IsADirectoryError path)
  | None => inl (FileNotFoundError path)
  end.

(** Collaborators for the examples: the allocation is fixed in advance. *)
Definition demo_world (peak : Z) (schedule : list (Q * Z)) : collaborators :=
  {| process_polychord_stats := λ fr bd f,
       match demo_read fr bd f with
       | inr n => inr (mkStats n (3 * n))
       | inl e => inl e
       end;
     process_polychord_run := λ fr bd f,
       match demo_read fr bd f with
       | inr n => inr (mkRun (repeat 0%Q (Z.to_nat n)) [] [])
       | inl e => inl e
       end;
     allocate := λ _ _ _ _, inr (mkDynInfo peak schedule [] None None);
     pickle_save := λ _ path f, inr (<[path := File "dyn_info"]> f);
     int_truediv := λ a b, (inject_Z a / inject_Z b)%Q;
     int_mul_float := λ n x, (inject_Z n * x)%Q |}.

Definition demo_settings (seed : Z) : dict :=
  {[ "seed" := VInt seed; "base_dir" := VStr "chains_test";
     "file_root" := VStr "test"; "nlive" := VInt 10 ]}.

Definition demo_kwargs (ninit : Z) : dict := {[ "ninit" := VInt ninit ]}.

Definition demo_schedule : list (Q * Z) := [(0%Q, 5); (1%Q, 8); (2%Q, 6)].

(** ** Specification vocabulary *)

(** [wp m s Q]: whatever [m] does from [s], the outcome and the state it
    leaves satisfy [Q]. *)
Definition wp {A} (m : M A) (s : state) (Q : outcome A → state → Prop) : Prop :=
  ∀ r s', m s = (r, s') → Q r s'.

(** The caller's dictionary once the missing defaults are in. *)
Definition set_default (d : dict) (kv : string * value) : dict :=
  match d !! kv.1 with
  | Some _ => d
  | None => <[kv.1 := kv.2]> d
  end.

Definition fill_defaults (d : dict) : dict := foldl set_default d default_settings.

Fixpoint assoc (k : string) (kvs : list (string * value)) : option value :=
  match kvs with
  | [] => None
  | (k', v) :: rest => if bool_decide (k' = k) then Some v else assoc k rest
  end.

(** The keyword options the driver knows. *)
Definition recognised : list string :=
  ["ninit"; "init_step"; "nlive_const"; "print_time"; "seed_increment";
   "smoothing_filter"].

(** The two exceptions by which the driver rejects a call: the [TypeError]
    of line 58 and the assertions of lines 60 and 61. *)
Definition usage_error (e : exn) : Prop :=
  e = TypeError "Unexpected **kwargs" ∨ e = AssertionError "".

(** The seed rule of lines 81-82. *)
Definition next_seed (inc seed : Z) : Z :=
  if 0 <=? seed then seed + inc else seed.

(** The keyword options of lines 49 to 53, read off [kwargs]. *)
Definition opt_ninit (kwargs : dict) : value :=
  default (VInt 10) (kwargs !! "ninit").

Definition opt_init_step (kwargs : dict) : value :=
  default (opt_ninit kwargs) (kwargs !! "init_step").

Definition opt_seed_increment (kwargs : dict) : value :=
  default (VInt 100) (kwargs !! "seed_increment").

Definition opt_nlive_const (settings : dict) (kwargs : dict) : value :=
  default (default VNone (fill_defaults settings !! "nlive"))
          (kwargs !! "nlive_const").

Definition opt_smoothing (kwargs : dict) : smoothing :=
  match kwargs !! "smoothing_filter" with
  | Some f => UserFilter f
  | None => DefaultSavgol (opt_ninit kwargs)
  end.

(** What [prelude] leaves behind, for a caller's dictionary [d]. *)
Definition prelude_post (l : nat) (d kwargs : dict) (s : state)
    (r : outcome options) (s' : state) : Prop :=
  heap s' = <[l := fill_defaults d]> (heap s) ∧
  next_loc s' = next_loc s ∧ fs s' = fs s ∧ log s' = log s ∧
  (r ≠ OutOfFuel) ∧
  ((∃ k, (k ∉ recognised) ∧ is_Some (kwargs !! k)) →
     r = Raise (TypeError "Unexpected **kwargs")) ∧
  (∀ k v, (k = "nlives" ∨ k = "read_resume") →
     fill_defaults d !! k = Some v → truthy v = true →
     ∃ e, r = Raise e ∧ usage_error e) ∧
  (∀ o, r = Ok o →
     ninit o = opt_ninit kwargs ∧
     init_step o = opt_init_step kwargs ∧
     nlive_const o = opt_nlive_const d kwargs ∧
     seed_increment o = opt_seed_increment kwargs ∧
     smoothing_filter o = opt_smoothing kwargs ∧
     ∃ bd fr, fill_defaults d !! "base_dir" = Some bd ∧
              fill_defaults d !! "file_root" = Some fr ∧
              join_root bd fr = inr (root o)).

(** ** One pass of the checkpointed loop, as a relation *)

(** [if seed >= 0: seed += seed_increment] on values. *)
Definition bump (inc seed : value) : exn + value :=
  match as_int seed with
  | inl e => inl e
  | inr n => if 0 <=? n then py_add seed inc else inr seed
  end.

(** The dictionary handed to the sampler in the pass that starts with [j]
    entries in [step_ndead]. *)
Definition call_config (j : nat) (step : Z) (seed' : value) (cfg : dict) : dict :=
  <["seed" := seed']>
    (<["max_ndead" := VInt ((Z.of_nat j + 1) * step)]>
       (if bool_decide (j = 1%nat) then <["read_resume" := VBool true]> cfg
        else cfg)).

Definition config_step (init_step inc : value) (j : nat) (cfg c' : dict) : Prop :=
  ∃ step seed seed',
    as_int init_step = inr step ∧ cfg !! "seed" = Some seed ∧
    bump inc seed = inr seed' ∧ c' = call_config j step seed' cfg.

(** [step_outcome sd init_step inc root cp cfg r evs cfg']: a pass that
    starts with local variables [cp] and working dictionary [cfg] ends with
    outcome [r], having logged [evs] and left [cfg'] in the dictionary. *)
Inductive step_outcome (sd : nat) (init_step inc : value) (root : string)
    (cp : checkpoints) (cfg : dict)
    : outcome (bool * checkpoints) → list event → dict → Prop :=
| step_early e cfg' :
    step_outcome sd init_step inc root cp cfg (Raise e) [] cfg'
| step_sampler_failed c' e :
    config_step init_step inc (length (step_ndead cp)) cfg c' →
    step_outcome sd init_step inc root cp cfg (Raise e) [EvRun sd c'] c'
| step_count_failed c' out e :
    config_step init_step inc (length (step_ndead cp)) cfg c' →
    (∀ nlv n, c' !! "nlive" = Some nlv → as_int nlv = inr n → False) →
    step_outcome sd init_step inc root cp cfg (Raise e)
      [EvRun sd c'; EvStats out] c'
| step_break c' out nlv n :
    config_step init_step inc (length (step_ndead cp)) cfg c' →
    c' !! "nlive" = Some nlv → as_int nlv = inr n →
    last_two_equal (step_ndead cp ++ [ndead out - n]) = true →
    step_outcome sd init_step inc root cp cfg
      (Ok (true, mkCheckpoints (step_ndead cp ++ [ndead out - n])
                   (<[ndead out := out]> (outputs_at_resumes cp))))
      [EvRun sd c'; EvStats out] c'
| step_continue c' out nlv n r :
    config_step init_step inc (length (step_ndead cp)) cfg c' →
    c' !! "nlive" = Some nlv → as_int nlv = inr n →
    last_two_equal (step_ndead cp ++ [ndead out - n]) = false →
    (r = Ok (false, mkCheckpoints (step_ndead cp ++ [ndead out - n])
                      (<[ndead out := out]> (outputs_at_resumes cp)))
     ∨ ∃ e, r = Raise e) →
    step_outcome sd init_step inc root cp cfg r
      [EvRun sd c'; EvStats out;
       EvCopy (root +:+ "_init.resume") (step_file root (ndead out - n))] c'.

(** The passes of [exploratory_loop], chained. *)
Inductive loop_trace (sd : nat) (init_step inc : value) (root : string)
    : nat → checkpoints → dict → outcome checkpoints → list event → dict → Prop :=
| loop_out_of_fuel cp cfg :
    loop_trace sd init_step inc root 0 cp cfg OutOfFuel [] cfg
| loop_break fuel cp cfg cp' evs cfg' :
    step_outcome sd init_step inc root cp cfg (Ok (true, cp')) evs cfg' →
    loop_trace sd init_step inc root (S fuel) cp cfg (Ok cp') evs cfg'
| loop_raise fuel cp cfg e evs cfg' :
    step_outcome sd init_step inc root cp cfg (Raise e) evs cfg' →
    loop_trace sd init_step inc root (S fuel) cp cfg (Raise e) evs cfg'
| loop_again fuel cp cfg cp' evs cfg' r evs' cfg'' :
    step_outcome sd init_step inc root cp cfg (Ok (false, cp')) evs cfg' →
    loop_trace sd init_step inc root fuel cp' cfg' r evs' cfg'' →
    loop_trace sd init_step inc root (S fuel) cp cfg r (evs ++ evs') cfg''.

(** The dictionaries handed to the sampler by successive passes, the first
    of which starts with [j] entries in [step_ndead]. *)
Fixpoint config_chain (init_step inc : value) (j : nat) (cfg : dict)
    (cs : list dict) : Prop :=
  match cs with
  | [] => True
  | c :: rest =>
      config_step init_step inc j cfg c ∧ config_chain init_step inc (S j) c rest
  end.

(** ** The three steps, as relations *)

(** The working dictionary of step 1 after lines 66 to 68. *)
Definition init_config (d : dict) (ninit : value) (cfg0 : dict) : Prop :=
  ∃ fr fr_init,
    d !! "file_root" = Some fr ∧ py_add fr (VStr "_init") = inr fr_init ∧
    cfg0 = <["nlive" := ninit]> (<["file_root" := fr_init]> d).

(** ... and after lines 72 and 73. *)
Definition loop_config (cfg0 : dict) : dict :=
  <["read_resume" := VBool false]> (<["write_resume" := VBool true]> cfg0).

Definition after_loop (sd : nat) (r : outcome checkpoints)
    : outcome (nat * option checkpoints) :=
  match r with
  | Ok cp => Ok (sd, Some cp)
  | Raise e => Raise e
  | OutOfFuel => OutOfFuel
  end.

(** [initial_outcome sd d ... r evs cfg']: step 1, run on a copy [sd] of the
    caller's dictionary [d], ends with [r], having logged [evs] and left
    [cfg'] in the copy. *)
Inductive initial_outcome (sd : nat) (d : dict) (goal : Q)
    (ninit init_step inc : value) (root : string) (fuel : nat)
    : outcome (nat * option checkpoints) → list event → dict → Prop :=
| initial_early e cfg' :
    initial_outcome sd d goal ninit init_step inc root fuel (Raise e) [] cfg'
| initial_single cfg0 r :
    Qeq_bool goal 0 = true → init_config d ninit cfg0 →
    (r = Ok (sd, None) ∨ ∃ e, r = Raise e) →
    initial_outcome sd d goal ninit init_step inc root fuel r [EvRun sd cfg0] cfg0
| initial_loop cfg0 r evs cfg' :
    Qeq_bool goal 0 = false → init_config d ninit cfg0 →
    loop_trace sd init_step inc root fuel (mkCheckpoints [] ∅)
      (loop_config cfg0) r evs cfg' →
    initial_outcome sd d goal ninit init_step inc root fuel
      (after_loop sd r) evs cfg'.

(** Lines 110 to 120. *)
Inductive staging_outcome (root : string) (cp : option checkpoints)
    (info : dyn_info) : outcome (option Z) → list event → Prop :=
| staging_skipped :
    peak_start_ind info = 0 →
    staging_outcome root cp info (Ok None) []
| staging_unbound :
    peak_start_ind info ≠ 0 → cp = None →
    staging_outcome root cp info (Raise (NameError "step_ndead")) []
| staging_no_candidate cp' e :
    peak_start_ind info ≠ 0 → cp = Some cp' →
    select_resume (step_ndead cp') (peak_start_ind info) = inl e →
    staging_outcome root cp info (Raise e) []
| staging_copy cp' snd r :
    peak_start_ind info ≠ 0 → cp = Some cp' →
    select_resume (step_ndead cp') (peak_start_ind info) = inr snd →
    (r = Ok (Some snd) ∨ ∃ e, r = Raise e) →
    staging_outcome root cp info r
      [EvCopy (step_file root snd) (root +:+ "_dyn.resume")].

(** The paths lines 124 and 125 go through. *)
Definition step_files (root : string) (steps : list Z) : list string :=
  step_file root <$> elements (list_to_set steps : gset Z).

(** Lines 121 to 125. *)
Inductive cleanup_outcome (root : string) (goal : Q) (cp : option checkpoints)
    : outcome unit → list event → Prop :=
| cleanup_skipped :
    Qeq_bool goal 0 = true →
    cleanup_outcome root goal cp (Ok tt) []
| cleanup_unbound :
    Qeq_bool goal 0 = false → cp = None →
    cleanup_outcome root goal cp (Raise (NameError "step_ndead")) []
| cleanup_all cp' :
    Qeq_bool goal 0 = false → cp = Some cp' →
    cleanup_outcome root goal cp (Ok tt)
      (EvRemove <$> step_files root (step_ndead cp'))
| cleanup_failed cp' e tried rest :
    Qeq_bool goal 0 = false → cp = Some cp' →
    step_files root (step_ndead cp') = tried ++ rest → tried ≠ [] →
    cleanup_outcome root goal cp (Raise e) (EvRemove <$> tried).

(** What step 2 reads from the caller's dictionary [d] and the files [f]. *)
Definition loaded_run (C : collaborators) (d : dict) (f : files) (run : ns_run) : Prop :=
  ∃ fr fr_init bd sfr sbd,
    d !! "file_root" = Some fr ∧ py_add fr (VStr "_init") = inr fr_init ∧
    d !! "base_dir" = Some bd ∧ as_str fr_init = inr sfr ∧ as_str bd = inr sbd ∧
    process_polychord_run C sfr sbd f = inr run.

Definition target_of (C : collaborators) (d : dict) (nlive_const ninit : value)
    (run : ns_run) : exn + value :=
  match d !! "max_ndead" with
  | None => inl (KeyError "max_ndead")
  | Some max_ndead =>
      sample_target C max_ndead nlive_const ninit (Z.of_nat (length (logl run)))
  end.

Definition after_cleanup (info : dyn_info) (resume : option Z) (r : outcome unit)
    : outcome (dyn_info * option Z) :=
  match r with
  | Ok _ => Ok (info, resume)
  | Raise e => Raise e
  | OutOfFuel => OutOfFuel
  end.

(** Step 2, for the caller's dictionary [d] and the files [f] it finds. *)
Inductive allocation_outcome (C : collaborators) (d : dict) (f : files)
    (goal : Q) (ninit nlive_const : value) (sf : smoothing) (root : string)
    (cp : option checkpoints)
    : outcome (dyn_info * option Z) → list event → Prop :=
| allocation_early e :
    allocation_outcome C d f goal ninit nlive_const sf root cp (Raise e) []
| allocation_no_target run e :
    loaded_run C d f run → target_of C d nlive_const ninit run = inl e →
    allocation_outcome C d f goal ninit nlive_const sf root cp
      (Raise e) [EvLoadRun run]
| allocation_engine_failed run samp e :
    loaded_run C d f run → target_of C d nlive_const ninit run = inr samp →
    allocate C run samp goal sf = inl e →
    allocation_outcome C d f goal ninit nlive_const sf root cp
      (Raise e) [EvLoadRun run]
| allocation_staging_failed run samp info e evs :
    loaded_run C d f run → target_of C d nlive_const ninit run = inr samp →
    allocate C run samp goal sf = inr info →
    staging_outcome root cp info (Raise e) evs →
    allocation_outcome C d f goal ninit nlive_const sf root cp
      (Raise e) ([EvLoadRun run; EvAllocate samp info] ++ evs)
| allocation_staged run samp info resume evs r evs' :
    loaded_run C d f run → target_of C d nlive_const ninit run = inr samp →
    allocate C run samp goal sf = inr info →
    staging_outcome root cp info (Ok resume) evs →
    cleanup_outcome root goal cp r evs' →
    allocation_outcome C d f goal ninit nlive_const sf root cp
      (after_cleanup info resume r)
      ([EvLoadRun run; EvAllocate samp info] ++ evs ++ evs').

(** The dictionary of the dynamic run (lines 129 to 140), built from the
    caller's dictionary [d] and the seed [final_seed] step 1 ended with. *)
Definition dynamic_config (d : dict) (goal : Q) (ninit inc final_seed : value)
    (info : dyn_info) (c : dict) : Prop :=
  ∃ final_n base nl fr fr_dyn,
    as_int final_seed = inr final_n ∧
    (if 0 <=? final_n
     then ∃ seed_in n seed',
            d !! "seed" = Some seed_in ∧ as_int seed_in = inr n ∧ 0 ≤ n ∧
            py_add final_seed inc = inr seed' ∧ base = <["seed" := seed']> d
     else base = d) ∧
    (if Qeq_bool goal 0
     then ∃ m, max_value (nlives_dict info) = inr m ∧ nl = VInt m
     else nl = ninit) ∧
    d !! "file_root" = Some fr ∧ py_add fr (VStr "_dyn") = inr fr_dyn ∧
    c = <["file_root" := fr_dyn]>
          (<["read_resume" := VBool (negb (peak_start_ind info =? 0))]>
             (<["nlives" := VNlives (nlives_dict info)]>
                (<["nlive" := nl]> base))).

(** The events that follow the sampler call of step 3: the pickle and the
    removals. *)
Definition closing_event (e : event) : Prop :=
  match e with
  | EvRemove _ | EvPickle _ _ => True
  | _ => False
  end.

(** Step 3, run on a second copy [sd] of the caller's dictionary [d], the
    working dictionary of step 1 holding [cfgA]. *)
Inductive dynamic_outcome (sd : nat) (d cfgA : dict) (goal : Q)
    (ninit inc : value) (info : dyn_info)
    : outcome unit → list event → Prop :=
| dynamic_early e :
    dynamic_outcome sd d cfgA goal ninit inc info (Raise e) []
| dynamic_called final_seed c r rest :
    cfgA !! "seed" = Some final_seed →
    dynamic_config d goal ninit inc final_seed info c →
    (r = Ok tt ∨ ∃ e, r = Raise e) → Forall closing_event rest →
    dynamic_outcome sd d cfgA goal ninit inc info r (EvRun sd c :: rest).

(** ** The whole call, as a relation *)

Definition reraise {A B} (r : outcome A) : outcome B :=
  match r with
  | Raise e => Raise e
  | _ => OutOfFuel
  end.

(** [run_outcome C d kwargs goal fuel r evs h]: called with the dictionary
    [d] and the options [kwargs], the driver ends with [r], having logged
    [evs] and left the heap [h].  The working dictionary of step 1 is
    object 1, that of step 3 is object 2. *)
Inductive run_outcome (C : collaborators) (d kwargs : dict) (goal : Q) (fuel : nat)
    : outcome unit → list event → gmap nat dict → Prop :=
| run_rejected e h :
    run_outcome C d kwargs goal fuel (Raise e) [] h
| run_initial_stopped bd fr root r evA cfgA h :
    fill_defaults d !! "base_dir" = Some bd →
    fill_defaults d !! "file_root" = Some fr →
    join_root bd fr = inr root →
    initial_outcome 1 (fill_defaults d) goal (opt_ninit kwargs)
      (opt_init_step kwargs) (opt_seed_increment kwargs) root fuel r evA cfgA →
    (∀ x, r ≠ Ok x) →
    run_outcome C d kwargs goal fuel (reraise r) evA h
| run_allocation_stopped bd fr root cp evA cfgA f1 r evB h :
    fill_defaults d !! "base_dir" = Some bd →
    fill_defaults d !! "file_root" = Some fr →
    join_root bd fr = inr root →
    initial_outcome 1 (fill_defaults d) goal (opt_ninit kwargs)
      (opt_init_step kwargs) (opt_seed_increment kwargs) root fuel
      (Ok (1%nat, cp)) evA cfgA →
    allocation_outcome C (fill_defaults d) f1 goal (opt_ninit kwargs)
      (opt_nlive_const d kwargs) (opt_smoothing kwargs) root cp r evB →
    (∀ x, r ≠ Ok x) →
    run_outcome C d kwargs goal fuel (reraise r) (evA ++ evB) h
| run_dynamic bd fr root cp evA cfgA f1 info resume evB r evC h :
    fill_defaults d !! "base_dir" = Some bd →
    fill_defaults d !! "file_root" = Some fr →
    join_root bd fr = inr root →
    initial_outcome 1 (fill_defaults d) goal (opt_ninit kwargs)
      (opt_init_step kwargs) (opt_seed_increment kwargs) root fuel
      (Ok (1%nat, cp)) evA cfgA →
    allocation_outcome C (fill_defaults d) f1 goal (opt_ninit kwargs)
      (opt_nlive_const d kwargs) (opt_smoothing kwargs) root cp
      (Ok (info, resume)) evB →
    dynamic_outcome 2 (fill_defaults d) cfgA goal (opt_ninit kwargs)
      (opt_seed_increment kwargs) info r evC →
    (∀ c rest, evC = EvRun 2 c :: rest → h !! 2%nat = Some c) →
    run_outcome C d kwargs goal fuel r (evA ++ evB ++ evC) h.

(** The events of step 1: those logged before the exploratory run is read
    back. *)
Fixpoint before_load (evs : list event) : list event :=
  match evs with
  | [] => []
  | EvLoadRun _ :: _ => []
  | e :: rest => e :: before_load rest
  end.

(** The events logged after the allocation engine has returned. *)
Fixpoint after_allocate (evs : list event) : list event :=
  match evs with
  | [] => []
  | EvAllocate _ _ :: rest => rest
  | _ :: rest => after_allocate rest
  end.

(** The allocations obtained, in order. *)
Definition allocations (evs : list event) : list (value * dyn_info) :=
  omap (λ e, match e with EvAllocate t i => Some (t, i) | _ => None end) evs.

(** The events step 1 can log: sampler calls, counts read back, copies of
    the checkpoint. *)
Definition sampling_event (e : event) : Prop :=
  match e with
  | EvRun _ _ | EvStats _ | EvCopy _ _ => True
  | _ => False
  end.

(** Keyword options with one the driver does not know. *)
Definition demo_bad_kwargs : dict := {[ "ninit" := VInt 5; "unexpected" := VInt 1 ]}.

(** The state the examples reach after the prelude, and step 1 run from it. *)
Definition demo_after_prelude : state :=
  (prelude caller (demo_kwargs 5) (initial_state (demo_settings 1) ∅)).2.

Definition demo_initial_run : outcome (nat * option checkpoints) * state :=
  initial_run 10 (demo_world 5 demo_schedule) (demo_sampler 12) caller 1
    (VInt 5) (VInt 5) (VInt 100) "chains_test/test" demo_after_prelude.

(** A complete goal-driven call: checkpoints after 0, 5 and 7 dead points,
    importance peak at index 5. *)
Definition demo_run : outcome unit * state :=
  run_dypolychord 10 (demo_world 5 demo_schedule) (demo_sampler 12) caller 1
    (demo_kwargs 5) (initial_state (demo_settings 1) ∅).

(** The reading of "the latest checkpoint before the peak" the code makes:
    entry [i] of [steps] is the last one with [nd - 1 < peak]. *)
Definition latest_before (steps : list Z) (peak : Z) (i : nat) (nd : Z) : Prop :=
  steps !! i = Some nd ∧ nd - 1 < peak ∧
  ∀ j nd', (i < j)%nat → steps !! j = Some nd' → ¬ nd' - 1 < peak.

(** The log and the heap a call leaves behind. *)
Definition call_log (fuel : nat) (C : collaborators) (run_func : sampler)
    (goal : Q) (kwargs d : dict) (f : files) : list event :=
  log (run_dypolychord fuel C run_func caller goal kwargs (initial_state d f)).2.

Definition call_heap (fuel : nat) (C : collaborators) (run_func : sampler)
    (goal : Q) (kwargs d : dict) (f : files) : gmap nat dict :=
  heap (run_dypolychord fuel C run_func caller goal kwargs (initial_state d f)).2.

(** ** Readings of the specification that the code does not follow *)

(** "The latest checkpoint whose dead-point count is strictly less than the
    peak index", word for word. *)
Definition spec_select_resume (steps : list Z) (peak : Z) : option Z :=
  last (filter (λ nd, nd < peak) steps).

(** "Created fresh per invocation; never mutated after being passed to the
    Sampler Adapter": no object is passed twice, and every object still
    holds what it held when it was passed. *)
Definition configs_fresh_and_frozen (s : state) : Prop :=
  NoDup (runs (log s)).*1 ∧
  ∀ l c, (l, c) ∈ runs (log s) → heap s !! l = Some c.

(** "The seed is offset by [seed_increment] from the previously used seed if
    and only if the configured seed is non-negative": [prev] is the seed
    used before the first of [seeds]. *)
Fixpoint seeds_as_claimed (configured inc prev : Z) (seeds : list Z) : bool :=
  match seeds with
  | [] => true
  | s :: rest =>
      (s =? (if 0 <=? configured then prev + inc else prev))
      && seeds_as_claimed configured inc s rest
  end.

(** The seeds the sampler was given, in order. *)
Definition seeds_used (evs : list event) : list (option value) :=
  (λ lc, lc.2 !! "seed") <$> runs evs.

(** ** More example calls *)

(** [dynamic_goal = 0], allocation peak at index 0. *)
Definition demo_evidence_run : outcome unit * state :=
  run_dypolychord 10 (demo_world 0 demo_schedule) (demo_sampler 12) caller 0
    (demo_kwargs 5) (initial_state (demo_settings 1) ∅).

(** The same with [max_ndead = 50] in the caller's dictionary. *)
Definition demo_capped_settings : dict := <["max_ndead" := VInt 50]> (demo_settings 1).

Definition demo_capped_run : outcome unit * state :=
  run_dypolychord 10 (demo_world 0 demo_schedule) (demo_sampler 12) caller 0
    (demo_kwargs 5) (initial_state demo_capped_settings ∅).

(** A goal-driven call with [seed = 50] and [seed_increment = -100]. *)
Definition demo_negative_kwargs : dict :=
  {[ "ninit" := VInt 5; "seed_increment" := VInt (-100) ]}.

Definition demo_negative_increment_run : outcome unit * state :=
  run_dypolychord 10 (demo_world 5 demo_schedule) (demo_sampler 12) caller 1
    demo_negative_kwargs (initial_state (demo_settings 50) ∅).

(** [ninit = 0] and [nlive_const = 0]. *)
Definition demo_zero_kwargs : dict :=
  {[ "ninit" := VInt 0; "nlive_const" := VInt 0 ]}.

Definition demo_zero_ninit_run : outcome unit * state :=
  run_dypolychord 10 (demo_world 0 demo_schedule) (demo_sampler 12) caller 0
    demo_zero_kwargs (initial_state (demo_settings 1) ∅).

(** The state in which step 2 of [demo_run] starts, and its local
    variables. *)
Definition demo_checkpoints : checkpoints :=
  match demo_initial_run.1 with
  | Ok (_, Some cp) => cp
  | _ => mkCheckpoints [] ∅
  end.

Definition demo_allocation : outcome (dyn_info * option Z) * state :=
  allocation (demo_world 5 demo_schedule) caller 1 (VInt 5) (VInt 10)
    (DefaultSavgol (VInt 5)) "chains_test/test" (Some demo_checkpoints)
    demo_initial_run.2.

(** The dictionary the sampler gets at the third invocation of [demo_run],
    and the one it gets for the dynamic run. *)
Definition demo_third_config : dict :=
  default ∅ (snd <$> runs (log demo_run.2) !! 2%nat).

Definition demo_dynamic_config : dict :=
  default ∅ (snd <$> last (runs (log demo_run.2))).

(** ** Further observations on the log *)

(** The outputs read back after the invocations of step 1, in order. *)
Definition outputs (evs : list event) : list stats :=
  omap (λ e, match e with EvStats out => Some out | _ => None end) evs.

(** What was pickled, and where. *)
Definition pickles (evs : list event) : list (dyn_info * string) :=
  omap (λ e, match e with EvPickle i p => Some (i, p) | _ => None end) evs.

(** ** Example calls that end in step 2 *)

(** [dynamic_goal = 0] with the allocation's peak at index 3. *)
Definition demo_unbound_run : outcome unit * state :=
  run_dypolychord 10 (demo_world 3 demo_schedule) (demo_sampler 12) caller 0
    (demo_kwargs 5) (initial_state (demo_settings 1) ∅).

Definition demo_unbound_allocation : value * dyn_info :=
  default (VNone, mkDynInfo 0 [] [] None None)
    (head (allocations (log demo_unbound_run.2))).

(** A goal-driven exploratory run with [ninit = 5] and [init_step = 10]:
    the first checkpoint is taken after 5 dead points.  The allocation that
    follows has its peak at index 2. *)
Definition demo_late_initial_run : outcome (nat * option checkpoints) * state :=
  initial_run 10 (demo_world 2 demo_schedule) (demo_sampler 12) caller 1
    (VInt 5) (VInt 10) (VInt 100) "chains_test/test" demo_after_prelude.

Definition demo_late_checkpoints : checkpoints :=
  match demo_late_initial_run.1 with
  | Ok (_, Some cp) => cp
  | _ => mkCheckpoints [] ∅
  end.

Definition demo_late_allocation : outcome (dyn_info * option Z) * state :=
  allocation (demo_world 2 demo_schedule) caller 1 (VInt 5) (VInt 10)
    (DefaultSavgol (VInt 5)) "chains_test/test" (Some demo_late_checkpoints)
    demo_late_initial_run.2.

(** Computations that touch neither the files nor the log: dictionary
    accesses, arithmetic, assertions. *)
Definition silent {A} (m : M A) : Prop :=
  ∀ s, wp m s (λ r s', r ≠ OutOfFuel ∧ fs s' = fs s ∧ log s' = log s).

(** Lines 142 to 145: what is pickled.  With the peak at index 0 it is the
    allocation as it came; otherwise the allocation with [resume_ndead] and
    the [nlike] filed in [outputs_at_resumes] under [resume_ndead]. *)
Definition saved_info (cp : option checkpoints) (info : dyn_info)
    (resume : option Z) (info' : dyn_info) : Prop :=
  if peak_start_ind info =? 0 then info' = info
  else ∃ nd outs out,
         resume = Some nd ∧ outputs_at_resumes <$> cp = Some outs ∧
         outs !! nd = Some out ∧
         info' = mkDynInfo (peak_start_ind info) (nlives_dict info)
                   (importance info) (Some nd) (Some (nlike out)).

(** Step 3 as seen on the log and the files, from the state [s] in which
    it starts: it stops before the sampler is called; or the sampler
    fails; or the sampler returns and lines 142 to 145 fail; or the
    allocation is pickled and the two resume files are removed. *)
Inductive closing_outcome (run_func : sampler) (root : string)
    (cp : option checkpoints) (info : dyn_info) (resume : option Z) (s : state)
    : outcome unit → state → Prop :=
| closing_early e s' :
    fs s' = fs s → log s' = log s →
    closing_outcome run_func root cp info resume s (Raise e) s'
| closing_sampler_failed l c e s' :
    run_func c (fs s) = inl e →
    fs s' = fs s → log s' = log s ++ [EvRun l c] →
    closing_outcome run_func root cp info resume s (Raise e) s'
| closing_no_resume_info l c f1 e s' :
    run_func c (fs s) = inr f1 →
    fs s' = f1 → log s' = log s ++ [EvRun l c] →
    peak_start_ind info ≠ 0 →
    (∀ nd outs, resume = Some nd → outputs_at_resumes <$> cp = Some outs →
       outs !! nd = None ∧ e = KeyError (str nd)) →
    closing_outcome run_func root cp info resume s (Raise e) s'
| closing_pickled l c f1 info' ps r s' :
    run_func c (fs s) = inr f1 →
    saved_info cp info resume info' →
    log s' = log s ++ EvRun l c :: EvPickle info' (root +:+ "_dyn_info")
                        :: (EvRemove <$> ps) →
    r ≠ OutOfFuel →
    (r = Ok tt →
       ps = [root +:+ "_init.resume"; root +:+ "_dyn.resume"] ∧
       fs s' !! (root +:+ "_init.resume") = None ∧
       fs s' !! (root +:+ "_dyn.resume") = None) →
    closing_outcome run_func root cp info resume s r s'.

(** ** Example calls of step 3 *)

(** Step 3 of [demo_run]: what step 2 returned, and the dynamic run that
    follows. *)
Definition demo_allocated : dyn_info * option Z :=
  match demo_allocation.1 with
  | Ok x => x
  | _ => (mkDynInfo 0 [] [] None None, None)
  end.

Definition demo_dynamic_run : outcome unit * state :=
  dynamic_run (demo_world 5 demo_schedule) (demo_sampler 12) caller 1 (VInt 5)
    (VInt 100) "chains_test/test" 1 (Some demo_checkpoints)
    demo_allocated.1 demo_allocated.2 demo_allocation.2.

(** The same exploratory run followed by an allocation with its peak at
    index 7: the checkpoint staged is the one of [step_ndead] entry 7, and
    no exploratory step reported 7 dead points. *)
Definition demo_key_allocation : outcome (dyn_info * option Z) * state :=
  allocation (demo_world 7 demo_schedule) caller 1 (VInt 5) (VInt 10)
    (DefaultSavgol (VInt 5)) "chains_test/test" (Some demo_checkpoints)
    demo_initial_run.2.

Definition demo_key_dynamic_run : outcome unit * state :=
  dynamic_run (demo_world 7 demo_schedule) (demo_sampler 12) caller 1 (VInt 5)
    (VInt 100) "chains_test/test" 1 (Some demo_checkpoints)
    (mkDynInfo 7 demo_schedule [] None None) (Some 7) demo_key_allocation.2.

(** The whole call with the peak at index 7. *)
Definition demo_key_run : outcome unit * state :=
  run_dypolychord 10 (demo_world 7 demo_schedule) (demo_sampler 12) caller 1
    (demo_kwargs 5) (initial_state (demo_settings 1) ∅).


(** * Proofs *)

(** ** Reasoning rules *)

Lemma wp_ret {A} (a : A) s Q : Q (Ok a) s → wp (mret a) s Q.
Proof. intros HQ r s' [= <- <-]. exact HQ. Qed.

Lemma wp_raise {A} (e : exn) s (Q : outcome A → state → Prop) :
  Q (Raise e) s → wp (raise e) s Q.
Proof. intros HQ r s' [= <- <-]. exact HQ. Qed.

Lemma wp_out_of_fuel {A} s (Q : outcome A → state → Prop) :
  Q OutOfFuel s → wp out_of_fuel s Q.
Proof. intros HQ r s' [= <- <-]. exact HQ. Qed.

Lemma wp_bind {A B} (m : M A) (k : A → M B) s Q :
  wp m s (λ r s1,
    match r with
    | Ok a => wp (k a) s1 Q
    | Raise e => Q (Raise e) s1
    | OutOfFuel => Q OutOfFuel s1
    end) →
  wp (m ≫= k) s Q.
Proof.
  intros Hm r s'. unfold mbind, M_bind, bind.
  destruct (m s) as [[a|e|] s1] eqn:E; specialize (Hm _ _ E); simpl in Hm.
  - apply Hm.
  - intros [= <- <-]. exact Hm.
  - intros [= <- <-]. exact Hm.
Qed.

Lemma wp_mono {A} (m : M A) s (Q Q' : outcome A → state → Prop) :
  wp m s Q → (∀ r s', Q r s' → Q' r s') → wp m s Q'.
Proof. intros Hm HQ r s' E. apply HQ, Hm, E. Qed.

Lemma wp_lift {A} (x : exn + A) s (Q : outcome A → state → Prop) :
  match x with inl e => Q (Raise e) s | inr a => Q (Ok a) s end →
  wp (lift x) s Q.
Proof. destruct x; simpl; [apply wp_raise | apply wp_ret]. Qed.

Lemma wp_assert (b : bool) msg s (Q : outcome unit → state → Prop) :
  (if b then Q (Ok tt) s else Q (Raise (AssertionError msg)) s) →
  wp (py_assert b msg) s Q.
Proof. destruct b; simpl; [apply wp_ret | apply wp_raise]. Qed.

Lemma wp_local {A} name (v : option A) s (Q : outcome A → state → Prop) :
  match v with Some a => Q (Ok a) s | None => Q (Raise (NameError name)) s end →
  wp (local name v) s Q.
Proof. destruct v; simpl; [apply wp_ret | apply wp_raise]. Qed.

Lemma wp_emit ev s Q :
  Q (Ok tt) (mkState (heap s) (next_loc s) (fs s) (log s ++ [ev])) →
  wp (emit ev) s Q.
Proof. intros HQ r s' [= <- <-]. exact HQ. Qed.

Lemma wp_get_fs s Q : Q (Ok (fs s)) s → wp get_fs s Q.
Proof. intros HQ r s' [= <- <-]. exact HQ. Qed.

Lemma wp_put_fs f s Q :
  Q (Ok tt) (mkState (heap s) (next_loc s) f (log s)) → wp (put_fs f) s Q.
Proof. intros HQ r s' [= <- <-]. exact HQ. Qed.

Lemma wp_read_obj l s Q :
  match heap s !! l with
  | Some d => Q (Ok d) s
  | None => Q (Raise (NameError "dangling reference")) s
  end →
  wp (read_obj l) s Q.
Proof.
  intros HQ r s'. unfold read_obj.
  destruct (heap s !! l); intros [= <- <-]; exact HQ.
Qed.

Lemma wp_getitem l k d s Q :
  heap s !! l = Some d →
  match d !! k with
  | Some v => Q (Ok v) s
  | None => Q (Raise (KeyError k)) s
  end →
  wp (getitem l k) s Q.
Proof.
  intros Hl HQ. unfold getitem. apply wp_bind, wp_read_obj. rewrite Hl.
  destruct (d !! k); [apply wp_ret | apply wp_raise]; exact HQ.
Qed.

Lemma wp_contains l k d s Q :
  heap s !! l = Some d →
  Q (Ok (bool_decide (is_Some (d !! k)))) s →
  wp (contains l k) s Q.
Proof.
  intros Hl HQ. unfold contains. apply wp_bind, wp_read_obj. rewrite Hl.
  apply wp_ret, HQ.
Qed.

Lemma wp_setitem l k v d s Q :
  heap s !! l = Some d →
  Q (Ok tt) (mkState (<[l := <[k := v]> d]> (heap s)) (next_loc s) (fs s) (log s)) →
  wp (setitem l k v) s Q.
Proof.
  intros Hl HQ. unfold setitem. apply wp_bind, wp_read_obj. rewrite Hl.
  intros r s' [= <- <-]. exact HQ.
Qed.

Lemma wp_deepcopy l d s Q :
  heap s !! l = Some d →
  Q (Ok (next_loc s))
    (mkState (<[next_loc s := d]> (heap s)) (S (next_loc s)) (fs s) (log s)) →
  wp (deepcopy l) s Q.
Proof.
  intros Hl HQ. unfold deepcopy. apply wp_bind, wp_read_obj. rewrite Hl.
  intros r s' [= <- <-]. exact HQ.
Qed.

Lemma wp_call_run_func run_func l d s Q :
  heap s !! l = Some d →
  match run_func d (fs s) with
  | inl e => Q (Raise e) (mkState (heap s) (next_loc s) (fs s) (log s ++ [EvRun l d]))
  | inr f' => Q (Ok tt) (mkState (heap s) (next_loc s) f' (log s ++ [EvRun l d]))
  end →
  wp (call_run_func run_func l) s Q.
Proof.
  intros Hl HQ. unfold call_run_func. apply wp_bind, wp_read_obj. rewrite Hl.
  apply wp_bind, wp_emit, wp_bind, wp_get_fs; simpl.
  apply wp_bind, wp_lift. destruct (run_func d (fs s)); [exact HQ|].
  apply wp_put_fs. exact HQ.
Qed.


(** ** Defaults and keyword options *)

Lemma foldl_set_default_lookup kvs (d : dict) k :
  foldl set_default d kvs !! k =
  match d !! k with Some v => Some v | None => assoc k kvs end.
Proof.
  revert d. induction kvs as [|[k' v'] kvs IH]; intros d; simpl.
  - by destruct (d !! k).
  - rewrite IH. unfold set_default; simpl.
    destruct (d !! k') eqn:Ek'.
    + destruct (d !! k) eqn:Ek; [done|].
      case_bool_decide; [congruence | done].
    + case_bool_decide as Hk.
      * subst k'. by rewrite lookup_insert_eq, Ek'.
      * by rewrite lookup_insert_ne.
Qed.

Lemma fill_defaults_present (d : dict) k v :
  d !! k = Some v → fill_defaults d !! k = Some v.
Proof. intros H. unfold fill_defaults. by rewrite foldl_set_default_lookup, H. Qed.

Lemma fill_defaults_missing (d : dict) k :
  d !! k = None → fill_defaults d !! k = assoc k default_settings.
Proof. intros H. unfold fill_defaults. by rewrite foldl_set_default_lookup, H. Qed.

Lemma fill_defaults_has (d : dict) k v :
  assoc k default_settings = Some v → is_Some (fill_defaults d !! k).
Proof.
  intros H. unfold fill_defaults. rewrite foldl_set_default_lookup.
  destruct (d !! k); [eauto | rewrite H; eauto].
Qed.

Lemma wp_apply_defaults l kvs (d : dict) s Q :
  heap s !! l = Some d →
  (∀ s', heap s' = <[l := foldl set_default d kvs]> (heap s) →
         next_loc s' = next_loc s → fs s' = fs s → log s' = log s →
         Q (Ok tt) s') →
  wp (apply_defaults l kvs) s Q.
Proof.
  revert d s. induction kvs as [|[k v] kvs IH]; intros d s Hl HQ; simpl.
  - apply wp_ret, HQ; try done. by rewrite insert_id.
  - apply wp_bind. eapply wp_contains; [done|].
    apply wp_bind. unfold set_default at 1 in HQ. simpl in HQ.
    case_bool_decide as Hk.
    + destruct Hk as [v' Hk]. rewrite Hk in HQ.
      apply wp_ret. eapply IH; [done|]. exact HQ.
    + assert (d !! k = None) as Ek by (destruct (d !! k); [exfalso; eauto | done]).
      rewrite Ek in HQ.
      eapply wp_setitem; [done|].
      eapply IH; [simpl; apply lookup_insert_eq|]. simpl.
      intros s' Hh Hn Hf Hg. apply HQ; try done.
      by rewrite Hh, insert_insert_eq.
Qed.

Lemma popped_lookup (kwargs : dict) k :
  delete "smoothing_filter" (delete "seed_increment" (delete "print_time"
    (delete "nlive_const" (delete "init_step" (delete "ninit" kwargs))))) !! k
  = if bool_decide (k ∈ recognised) then None else kwargs !! k.
Proof.
  unfold recognised. case_bool_decide as Hk.
  - repeat (apply elem_of_cons in Hk as [->|Hk];
            [by repeat (rewrite lookup_delete_eq || rewrite lookup_delete_ne by done)|]).
    by apply elem_of_nil in Hk.
  - repeat (rewrite lookup_delete_ne; [|intros <-; apply Hk; set_solver]). done.
Qed.

Lemma popped_size (kwargs : dict) :
  Nat.eqb (size (delete "smoothing_filter" (delete "seed_increment"
    (delete "print_time" (delete "nlive_const" (delete "init_step"
      (delete "ninit" kwargs))))))) 0 = false
  ↔ ∃ k, (k ∉ recognised) ∧ is_Some (kwargs !! k).
Proof.
  rewrite Nat.eqb_neq, map_size_empty_iff. split.
  - intros Hne. apply map_choose in Hne as (k & v & Hk).
    rewrite popped_lookup in Hk. case_bool_decide; [done|]. eauto.
  - intros (k & Hk & v & Hv) Hempty.
    assert (Hl := popped_lookup kwargs k). rewrite Hempty, lookup_empty in Hl.
    rewrite bool_decide_eq_false_2 in Hl by done. congruence.
Qed.

Lemma wp_fill_defaults l (d : dict) s Q :
  heap s !! l = Some d →
  (∀ s', heap s' = <[l := fill_defaults d]> (heap s) →
         next_loc s' = next_loc s → fs s' = fs s → log s' = log s →
         Q (Ok tt) s') →
  wp (apply_defaults l default_settings) s Q.
Proof. exact (wp_apply_defaults l default_settings d s Q). Qed.

Lemma prelude_spec l kwargs s (d : dict) :
  heap s !! l = Some d →
  wp (prelude l kwargs) s (prelude_post l d kwargs s).
Proof.
  intros Hl. unfold prelude. apply wp_bind.
  eapply wp_fill_defaults; [exact Hl|].
  intros s0 Hh Hn Hf Hg.
  assert (Hl0 : heap s0 !! l = Some (fill_defaults d))
    by (rewrite Hh; apply lookup_insert_eq).
  cbv beta iota zeta delta [pop pop_smoothing].
  apply wp_bind. eapply wp_getitem; [exact Hl0|].
  destruct (fill_defaults_has d "nlive" _ eq_refl) as [nl Hnl]. rewrite Hnl.
  destruct (Nat.eqb (size _) 0) eqn:Esz; cbn [negb].
  2:{ apply wp_raise. apply popped_size in Esz.
      unfold prelude_post. split_and!; try done.
      intros ? ? ? ? ?. eexists; split; [done|]. by left. }
  assert (Hrec : ¬ ∃ k, (k ∉ recognised) ∧ is_Some (kwargs !! k)).
  { intros H. apply popped_size in H. congruence. }
  apply wp_bind. eapply wp_getitem; [exact Hl0|].
  destruct (fill_defaults_has d "nlives" _ eq_refl) as [nls Hnls]. rewrite Hnls.
  apply wp_bind, wp_assert.
  destruct (truthy nls) eqn:Enls; cbn [negb].
  { unfold prelude_post. split_and!; try done.
    intros ? ? ? ? ?. eexists; split; [done|]. by right. }
  apply wp_bind. eapply wp_getitem; [exact Hl0|].
  destruct (fill_defaults_has d "read_resume" _ eq_refl) as [rr Hrr]. rewrite Hrr.
  apply wp_bind, wp_assert.
  destruct (truthy rr) eqn:Err; cbn [negb].
  { unfold prelude_post. split_and!; try done.
    intros ? ? ? ? ?. eexists; split; [done|]. by right. }
  apply wp_bind. eapply wp_getitem; [exact Hl0|].
  destruct (fill_defaults_has d "base_dir" _ eq_refl) as [bd Hbd]. rewrite Hbd.
  apply wp_bind. eapply wp_getitem; [exact Hl0|].
  destruct (fill_defaults_has d "file_root" _ eq_refl) as [fr Hfr]. rewrite Hfr.
  apply wp_bind, wp_lift.
  destruct (join_root bd fr) as [e|rt] eqn:Ert.
  { unfold prelude_post. split_and!; try done.
    intros k v [-> | ->] Hv Ht; congruence. }
  apply wp_ret. unfold prelude_post. split_and!; try done.
  - intros k v [-> | ->] Hv Ht; congruence.
  - intros o [= <-]; cbn [ninit init_step nlive_const seed_increment smoothing_filter root].
    rewrite !lookup_delete_ne by done.
    unfold opt_init_step, opt_nlive_const, opt_seed_increment, opt_smoothing, opt_ninit.
    rewrite Hnl. split_and!; eauto.
Qed.


(** ** The checkpointed loop *)

Lemma state_eta s : mkState (heap s) (next_loc s) (fs s) (log s) = s.
Proof. by destruct s. Qed.

Lemma wp_call_stats C fr bd s (Q : outcome stats → state → Prop) :
  (∀ e, Q (Raise e) s) →
  (∀ out, Q (Ok out) (mkState (heap s) (next_loc s) (fs s) (log s ++ [EvStats out]))) →
  wp (call_stats C fr bd) s Q.
Proof.
  intros He Hok. unfold call_stats.
  apply wp_bind, wp_lift. destruct (as_str fr); [apply He|].
  apply wp_bind, wp_lift. destruct (as_str bd); [apply He|].
  apply wp_bind, wp_get_fs, wp_bind, wp_lift.
  destruct (process_polychord_stats _ _ _ _); [apply He|].
  apply wp_bind, wp_emit, wp_ret, Hok.
Qed.

Lemma wp_copyfile src dst s (Q : outcome unit → state → Prop) :
  match copy_fs src dst (fs s) with
  | inl e => Q (Raise e) (mkState (heap s) (next_loc s) (fs s) (log s ++ [EvCopy src dst]))
  | inr f' => Q (Ok tt) (mkState (heap s) (next_loc s) f' (log s ++ [EvCopy src dst]))
  end →
  wp (copyfile src dst) s Q.
Proof.
  intros HQ. unfold copyfile.
  apply wp_bind, wp_emit, wp_bind, wp_get_fs. cbn [fs].
  apply wp_bind, wp_lift. destruct (copy_fs src dst (fs s)); [exact HQ|].
  apply wp_put_fs. exact HQ.
Qed.

Lemma wp_os_remove path s (Q : outcome unit → state → Prop) :
  match remove_fs path (fs s) with
  | inl e => Q (Raise e) (mkState (heap s) (next_loc s) (fs s) (log s ++ [EvRemove path]))
  | inr f' => Q (Ok tt) (mkState (heap s) (next_loc s) f' (log s ++ [EvRemove path]))
  end →
  wp (os_remove path) s Q.
Proof.
  intros HQ. unfold os_remove.
  apply wp_bind, wp_emit, wp_bind, wp_get_fs. cbn [fs].
  apply wp_bind, wp_lift. destruct (remove_fs path (fs s)); [exact HQ|].
  apply wp_put_fs. exact HQ.
Qed.

Lemma lookup_if_insert (b : bool) (cfg : dict) k k' v :
  k' ≠ k → (if b then <[k' := v]> cfg else cfg) !! k = cfg !! k.
Proof. intros. destruct b; [by rewrite lookup_insert_ne | done]. Qed.

Lemma call_config_other j step seed' (cfg : dict) k :
  k ≠ "seed" → k ≠ "max_ndead" → k ≠ "read_resume" →
  call_config j step seed' cfg !! k = cfg !! k.
Proof.
  intros. unfold call_config.
  rewrite !lookup_insert_ne by done. by apply lookup_if_insert.
Qed.

Lemma call_config_seed j step seed' (cfg : dict) :
  call_config j step seed' cfg !! "seed" = Some seed'.
Proof. unfold call_config. by rewrite lookup_insert_eq. Qed.

Lemma call_config_max_ndead j step seed' (cfg : dict) :
  call_config j step seed' cfg !! "max_ndead" = Some (VInt ((Z.of_nat j + 1) * step)).
Proof. unfold call_config. by rewrite lookup_insert_ne, lookup_insert_eq. Qed.

Lemma exploratory_step_spec C run_func sd init_step inc root cp s (cfg : dict) :
  heap s !! sd = Some cfg →
  wp (exploratory_step C run_func sd init_step inc root cp) s (λ r s',
    ∃ evs cfg', step_outcome sd init_step inc root cp cfg r evs cfg' ∧
      heap s' = <[sd := cfg']> (heap s) ∧ next_loc s' = next_loc s ∧
      log s' = log s ++ evs).
Proof.
  intros Hsd. unfold exploratory_step.
  set (j := length (step_ndead cp)).
  set (X := if bool_decide (j = 1%nat) then <["read_resume" := VBool true]> cfg else cfg).
  apply wp_bind.
  apply (wp_mono _ _ (λ r s1, r = Ok tt ∧
           s1 = mkState (<[sd := X]> (heap s)) (next_loc s) (fs s) (log s))).
  { subst X. case_bool_decide.
    - eapply wp_setitem; [exact Hsd|]. done.
    - apply wp_ret. split; [done|]. rewrite insert_id by done. by rewrite state_eta. }
  intros r s1 [-> ->].
  assert (Hearly : ∀ e c, ∃ evs cfg',
    step_outcome sd init_step inc root cp cfg (Raise e) evs cfg' ∧
    <[sd := c]> (heap s) = <[sd := cfg']> (heap s) ∧
    next_loc s = next_loc s ∧ log s = log s ++ evs).
  { intros e c. exists [], c. split_and!; [constructor|done|done|by rewrite app_nil_r]. }
  apply wp_bind, wp_lift. destruct (as_int init_step) as [e|step] eqn:Estep.
  { cbn [heap next_loc fs log]. apply Hearly. }
  apply wp_bind. eapply wp_setitem; [cbn [heap]; apply lookup_insert_eq|].
  cbn [heap next_loc fs log]. rewrite insert_insert_eq.
  apply wp_bind. eapply wp_getitem; [cbn [heap]; apply lookup_insert_eq|].
  rewrite lookup_insert_ne by done. subst X. rewrite lookup_if_insert by done.
  destruct (cfg !! "seed") as [seed|] eqn:Eseed; [|cbn [heap next_loc fs log]; apply Hearly].
  apply wp_bind, wp_lift. destruct (as_int seed) as [e|seed_n] eqn:Eseed_n.
  { cbn [heap next_loc fs log]. apply Hearly. }
  apply wp_bind.
  set (Y := <["max_ndead" := _]> _).
  apply (wp_mono _ _ (λ r s1,
           (∃ e c, r = Raise e ∧
              s1 = mkState (<[sd := c]> (heap s)) (next_loc s) (fs s) (log s)) ∨
           (∃ seed', bump inc seed = inr seed' ∧ r = Ok tt ∧
              s1 = mkState (<[sd := <["seed" := seed']> Y]> (heap s))
                     (next_loc s) (fs s) (log s)))).
  { unfold bump. rewrite Eseed_n. destruct (0 <=? seed_n).
    - apply wp_bind, wp_lift. destruct (py_add seed inc) as [e|seed'].
      + left. eauto.
      + eapply wp_setitem; [cbn [heap]; apply lookup_insert_eq|].
        cbn [heap next_loc fs log]. rewrite insert_insert_eq. right. eauto.
    - apply wp_ret. right. exists seed. split_and!; try done.
      f_equal. f_equal. symmetry. apply insert_id.
      subst Y. rewrite lookup_insert_ne by done. by rewrite lookup_if_insert. }
  intros r s1 [(e & c & -> & ->) | (seed' & Hbump & -> & ->)].
  { cbn [heap next_loc fs log]. apply Hearly. }
  assert (Hcfg : config_step init_step inc j cfg (<["seed" := seed']> Y)).
  { exists step, seed, seed'. done. }
  set (c' := <["seed" := seed']> Y) in *.
  eapply wp_bind, wp_call_run_func; [cbn [heap]; apply lookup_insert_eq|].
  cbn [heap next_loc fs log].
  assert (Hfail : ∀ e, ∃ evs cfg',
    step_outcome sd init_step inc root cp cfg (Raise e) evs cfg' ∧
    <[sd := c']> (heap s) = <[sd := cfg']> (heap s) ∧
    next_loc s = next_loc s ∧ log s ++ [EvRun sd c'] = log s ++ evs).
  { intros e. exists [EvRun sd c'], c'. split_and!; try done.
    by apply step_sampler_failed. }
  destruct (run_func c' (fs s)) as [e|f1]; [cbn [heap next_loc fs log]; apply Hfail|].
  apply wp_bind. eapply wp_getitem; [cbn [heap]; apply lookup_insert_eq|].
  destruct (c' !! "file_root") as [fr|]; [|cbn [heap next_loc fs log]; apply Hfail].
  apply wp_bind. eapply wp_getitem; [cbn [heap]; apply lookup_insert_eq|].
  destruct (c' !! "base_dir") as [bd|]; [|cbn [heap next_loc fs log]; apply Hfail].
  apply wp_bind, wp_call_stats; [intros e; cbn [heap next_loc fs log]; apply Hfail|].
  intros out. cbn [heap next_loc fs log].
  assert (Hfail2 : ∀ e,
    (∀ nlv n, c' !! "nlive" = Some nlv → as_int nlv = inr n → False) →
    ∃ evs cfg',
    step_outcome sd init_step inc root cp cfg (Raise e) evs cfg' ∧
    <[sd := c']> (heap s) = <[sd := cfg']> (heap s) ∧
    next_loc s = next_loc s ∧
    (log s ++ [EvRun sd c']) ++ [EvStats out] = log s ++ evs).
  { intros e Hno. exists [EvRun sd c'; EvStats out], c'. split_and!; try done.
    - by apply step_count_failed.
    - by rewrite <- app_assoc. }
  apply wp_bind. eapply wp_getitem; [cbn [heap]; apply lookup_insert_eq|].
  destruct (c' !! "nlive") as [nlv|] eqn:Enlv;
    [|cbn [heap next_loc fs log]; by apply Hfail2].
  apply wp_bind, wp_lift. destruct (as_int nlv) as [e|n] eqn:En.
  { cbn [heap next_loc fs log]. apply Hfail2. intros ? ? [= <-]. congruence. }
  destruct (last_two_equal _) eqn:Elast.
  - apply wp_ret. eexists [EvRun sd c'; EvStats out], c'. split_and!; try done.
    + by eapply step_break.
    + by rewrite <- app_assoc.
  - apply wp_bind, wp_copyfile. cbn [heap next_loc fs log].
    destruct (copy_fs _ _ _).
    + eexists [EvRun sd c'; EvStats out; EvCopy _ _], c'.
      split_and!; cbn [heap next_loc fs log]; try done.
      * eapply step_continue; eauto.
      * by rewrite <- !app_assoc.
    + apply wp_ret.
      eexists [EvRun sd c'; EvStats out; EvCopy _ _], c'.
      split_and!; cbn [heap next_loc fs log]; try done.
      * eapply step_continue; eauto.
      * by rewrite <- !app_assoc.
Qed.

Lemma step_outcome_fuel sd init_step inc root cp cfg evs cfg' :
  ¬ step_outcome sd init_step inc root cp cfg OutOfFuel evs cfg'.
Proof.
  intros H. inversion H as [| | | |c' out nlv n r H1 H2 H3 H4 Hr].
  by destruct Hr as [|[]].
Qed.

Lemma exploratory_loop_spec C run_func sd init_step inc root fuel cp s (cfg : dict) :
  heap s !! sd = Some cfg →
  wp (exploratory_loop fuel C run_func sd init_step inc root cp) s (λ r s',
    ∃ evs cfg', loop_trace sd init_step inc root fuel cp cfg r evs cfg' ∧
      heap s' = <[sd := cfg']> (heap s) ∧ next_loc s' = next_loc s ∧
      log s' = log s ++ evs).
Proof.
  revert cp s cfg. induction fuel as [|fuel IH]; intros cp s cfg Hsd.
  - apply wp_out_of_fuel. exists [], cfg. split_and!; try done.
    + constructor.
    + by rewrite insert_id.
    + by rewrite app_nil_r.
  - cbn [exploratory_loop]. apply wp_bind.
    eapply wp_mono; [by apply exploratory_step_spec|].
    intros r s1 (evs & cfg1 & Hstep & Hh & Hn & Hl).
    destruct r as [[[] cp1]|e|].
    + apply wp_ret. exists evs, cfg1. split_and!; try done. by constructor.
    + eapply wp_mono.
      { apply (IH cp1 s1 cfg1). rewrite Hh. apply lookup_insert_eq. }
      intros r s2 (evs' & cfg2 & Htr & Hh2 & Hn2 & Hl2).
      exists (evs ++ evs'), cfg2. split_and!.
      * by eapply loop_again.
      * by rewrite Hh2, Hh, insert_insert_eq.
      * congruence.
      * by rewrite Hl2, Hl, app_assoc.
    + exists evs, cfg1. split_and!; try done. by constructor.
    + by apply step_outcome_fuel in Hstep.
Qed.


(** ** The three steps *)


Lemma initial_run_spec fuel C run_func l_in goal ninit init_step inc root s (d : dict) :
  heap s !! l_in = Some d → l_in ≠ next_loc s →
  wp (initial_run fuel C run_func l_in goal ninit init_step inc root) s (λ r s',
    ∃ evs cfg',
      initial_outcome (next_loc s) d goal ninit init_step inc root fuel r evs cfg' ∧
      heap s' = <[next_loc s := cfg']> (heap s) ∧
      next_loc s' = S (next_loc s) ∧ log s' = log s ++ evs).
Proof.
  intros Hin Hne. unfold initial_run.
  set (sd := next_loc s).
  apply wp_bind. eapply wp_deepcopy; [exact Hin|]. fold sd.
  assert (Hearly : ∀ e c, ∃ evs cfg',
    initial_outcome sd d goal ninit init_step inc root fuel (Raise e) evs cfg' ∧
    <[sd := c]> (heap s) = <[sd := cfg']> (heap s) ∧ S sd = S sd ∧
    log s = log s ++ evs).
  { intros e c. exists [], c. split_and!; [constructor|done|done|by rewrite app_nil_r]. }
  apply wp_bind. eapply wp_getitem.
  { cbn [heap]. rewrite lookup_insert_ne by done. exact Hin. }
  destruct (d !! "file_root") as [fr|] eqn:Efr;
    [|cbn [heap next_loc fs log]; apply Hearly].
  apply wp_bind, wp_lift.
  destruct (py_add fr (VStr "_init")) as [e|fr_init] eqn:Efri;
    [cbn [heap next_loc fs log]; apply Hearly|].
  apply wp_bind. eapply wp_setitem; [cbn [heap]; apply lookup_insert_eq|].
  cbn [heap next_loc fs log]. rewrite insert_insert_eq.
  apply wp_bind. eapply wp_setitem; [cbn [heap]; apply lookup_insert_eq|].
  cbn [heap next_loc fs log]. rewrite insert_insert_eq.
  set (cfg0 := <["nlive" := ninit]> _).
  assert (Hcfg0 : init_config d ninit cfg0) by (exists fr, fr_init; done).
  destruct (Qeq_bool goal 0) eqn:Egoal.
  - eapply wp_bind, wp_call_run_func; [cbn [heap]; apply lookup_insert_eq|].
    cbn [heap next_loc fs log].
    destruct (run_func cfg0 (fs s)) as [e|f'].
    + exists [EvRun sd cfg0], cfg0. split_and!; try done.
      apply initial_single; eauto.
    + apply wp_ret. exists [EvRun sd cfg0], cfg0. split_and!; try done.
      apply initial_single; eauto.
  - apply wp_bind. eapply wp_setitem; [cbn [heap]; apply lookup_insert_eq|].
    cbn [heap next_loc fs log]. rewrite insert_insert_eq.
    apply wp_bind. eapply wp_setitem; [cbn [heap]; apply lookup_insert_eq|].
    cbn [heap next_loc fs log]. rewrite insert_insert_eq.
    fold (loop_config cfg0).
    apply wp_bind. eapply wp_mono.
    { eapply exploratory_loop_spec. cbn [heap]. apply lookup_insert_eq. }
    cbn [heap next_loc fs log].
    intros r s1 (evs & cfg' & Htr & Hh & Hn & Hl).
    rewrite insert_insert_eq in Hh.
    assert (Hout : initial_outcome sd d goal ninit init_step inc root fuel
                     (after_loop sd r) evs cfg') by (by eapply initial_loop).
    destruct r as [cp|e|]; cbn [after_loop] in Hout.
    + apply wp_ret. eauto 10.
    + eauto 10.
    + eauto 10.
Qed.


Lemma wp_call_load_run C fr bd s (Q : outcome ns_run → state → Prop) :
  match as_str fr, as_str bd with
  | inr sfr, inr sbd =>
      match process_polychord_run C sfr sbd (fs s) with
      | inr run => Q (Ok run) (mkState (heap s) (next_loc s) (fs s) (log s ++ [EvLoadRun run]))
      | inl e => Q (Raise e) s
      end
  | inl e, _ | _, inl e => Q (Raise e) s
  end →
  wp (call_load_run C fr bd) s Q.
Proof.
  intros HQ. unfold call_load_run.
  apply wp_bind, wp_lift. destruct (as_str fr); [exact HQ|].
  apply wp_bind, wp_lift. destruct (as_str bd); [exact HQ|].
  apply wp_bind, wp_get_fs, wp_bind, wp_lift.
  destruct (process_polychord_run _ _ _ _); [exact HQ|].
  apply wp_bind, wp_emit, wp_ret, HQ.
Qed.

Lemma wp_call_allocate C run samp goal sf s (Q : outcome dyn_info → state → Prop) :
  match allocate C run samp goal sf with
  | inr info => Q (Ok info) (mkState (heap s) (next_loc s) (fs s)
                               (log s ++ [EvAllocate samp info]))
  | inl e => Q (Raise e) s
  end →
  wp (call_allocate C run samp goal sf) s Q.
Proof.
  intros HQ. unfold call_allocate. apply wp_bind, wp_lift.
  destruct (allocate _ _ _ _ _); [exact HQ|].
  apply wp_bind, wp_emit, wp_ret, HQ.
Qed.

Lemma stage_resume_spec root cp info s :
  wp (stage_resume root cp info) s (λ r s',
    ∃ evs, staging_outcome root cp info r evs ∧
      heap s' = heap s ∧ next_loc s' = next_loc s ∧ log s' = log s ++ evs).
Proof.
  unfold stage_resume.
  destruct (peak_start_ind info =? 0) eqn:Epeak; cbn [negb].
  { apply Z.eqb_eq in Epeak. apply wp_ret. exists [].
    split_and!; [by constructor|done|done|by rewrite app_nil_r]. }
  apply Z.eqb_neq in Epeak.
  apply wp_bind, wp_local. destruct cp as [cp'|]; cbn [fmap option_fmap option_map].
  2:{ exists []. split_and!; [by constructor|done|done|by rewrite app_nil_r]. }
  apply wp_bind, wp_lift.
  destruct (select_resume (step_ndead cp') (peak_start_ind info)) as [e|snd] eqn:Esel.
  { exists []. split_and!; [by eapply staging_no_candidate|done|done|by rewrite app_nil_r]. }
  apply wp_bind, wp_copyfile. destruct (copy_fs _ _ _).
  - eexists [_]. split_and!; [eapply staging_copy; eauto|done..].
  - apply wp_ret. eexists [_]. split_and!; [eapply staging_copy; eauto|done..].
Qed.

Lemma remove_each_spec root xs s :
  wp (for_each xs (λ snd, os_remove (step_file root snd))) s (λ r s',
    heap s' = heap s ∧ next_loc s' = next_loc s ∧
    ((r = Ok tt ∧ log s' = log s ++ (EvRemove <$> (step_file root <$> xs))) ∨
     (∃ e tried rest, r = Raise e ∧ step_file root <$> xs = tried ++ rest ∧
        tried ≠ [] ∧ log s' = log s ++ (EvRemove <$> tried)))).
Proof.
  revert s. induction xs as [|x xs IH]; intros s; cbn [for_each].
  - apply wp_ret. split_and!; try done. left. by rewrite app_nil_r.
  - apply wp_bind, wp_os_remove. destruct (remove_fs _ _) as [e|f'].
    + cbn [heap next_loc fs log]. split_and!; try done. right.
      exists e, [step_file root x], (step_file root <$> xs). done.
    + eapply wp_mono; [apply IH|]. cbn [heap next_loc fs log].
      intros r s' (Hh & Hn & [[-> Hl] | (e & tried & rest & -> & Hx & Ht & Hl)]).
      * split_and!; try done. left. split; [done|].
        rewrite Hl, <- app_assoc. done.
      * split_and!; try done. right.
        exists e, (step_file root x :: tried), rest. split_and!; try done.
        -- rewrite fmap_cons, Hx. done.
        -- rewrite Hl, <- app_assoc. done.
Qed.

Lemma remove_step_files_spec root goal cp s :
  wp (remove_step_files root goal cp) s (λ r s',
    ∃ evs, cleanup_outcome root goal cp r evs ∧
      heap s' = heap s ∧ next_loc s' = next_loc s ∧ log s' = log s ++ evs).
Proof.
  unfold remove_step_files.
  destruct (Qeq_bool goal 0) eqn:Egoal; cbn [negb].
  { apply wp_ret. exists [].
    split_and!; [by constructor|done|done|by rewrite app_nil_r]. }
  apply wp_bind, wp_local. destruct cp as [cp'|]; cbn [fmap option_fmap option_map].
  2:{ exists []. split_and!; [by constructor|done|done|by rewrite app_nil_r]. }
  eapply wp_mono; [apply remove_each_spec|].
  intros r s' (Hh & Hn & [[-> Hl] | (e & tried & rest & -> & Hx & Ht & Hl)]).
  - eexists. split_and!; [by eapply cleanup_all|done..].
  - eexists. split_and!; [by eapply cleanup_failed|done..].
Qed.

Lemma staging_outcome_fuel root cp info evs :
  ¬ staging_outcome root cp info OutOfFuel evs.
Proof.
  intros H. inversion H as [| | |cp' snd r H1 H2 H3 Hr]. by destruct Hr as [|[]].
Qed.

Lemma allocation_spec C l_in goal ninit nlive_const sf root cp s (d : dict) :
  heap s !! l_in = Some d →
  wp (allocation C l_in goal ninit nlive_const sf root cp) s (λ r s',
    ∃ evs,
      allocation_outcome C d (fs s) goal ninit nlive_const sf root cp r evs ∧
      heap s' = heap s ∧ next_loc s' = next_loc s ∧ log s' = log s ++ evs).
Proof.
  intros Hin. unfold allocation.
  assert (Hearly : ∀ e, ∃ evs,
    allocation_outcome C d (fs s) goal ninit nlive_const sf root cp (Raise e) evs ∧
    heap s = heap s ∧ next_loc s = next_loc s ∧ log s = log s ++ evs).
  { intros e. exists []. split_and!; [constructor|done|done|by rewrite app_nil_r]. }
  apply wp_bind. eapply wp_getitem; [exact Hin|].
  destruct (d !! "file_root") as [fr|] eqn:Efr; [|apply Hearly].
  apply wp_bind, wp_lift.
  destruct (py_add fr (VStr "_init")) as [e|fr_init] eqn:Efri; [apply Hearly|].
  apply wp_bind. eapply wp_getitem; [exact Hin|].
  destruct (d !! "base_dir") as [bd|] eqn:Ebd; [|apply Hearly].
  apply wp_bind, wp_call_load_run.
  destruct (as_str fr_init) as [e|sfr] eqn:Esfr; [apply Hearly|].
  destruct (as_str bd) as [e|sbd] eqn:Esbd; [apply Hearly|].
  destruct (process_polychord_run C sfr sbd (fs s)) as [e|run] eqn:Erun;
    [apply Hearly|].
  assert (Hrun : loaded_run C d (fs s) run).
  { exists fr, fr_init, bd, sfr, sbd. done. }
  apply wp_bind. eapply wp_getitem; [exact Hin|].
  destruct (d !! "max_ndead") as [mx|] eqn:Emx.
  2:{ exists [EvLoadRun run]. split_and!; try done.
      apply allocation_no_target; [done|]. unfold target_of. by rewrite Emx. }
  apply wp_bind, wp_lift.
  destruct (sample_target C mx nlive_const ninit _) as [e|samp] eqn:Etarget.
  { exists [EvLoadRun run]. split_and!; try done.
    apply allocation_no_target; [done|]. unfold target_of. by rewrite Emx. }
  assert (Htarget : target_of C d nlive_const ninit run = inr samp).
  { unfold target_of. by rewrite Emx. }
  apply wp_bind, wp_call_allocate.
  destruct (allocate C run samp goal sf) as [e|info] eqn:Ealloc.
  { exists [EvLoadRun run]. split_and!; try done.
    by eapply allocation_engine_failed. }
  apply wp_bind. eapply wp_mono; [apply stage_resume_spec|].
  cbn [heap next_loc fs log].
  intros r s1 (evs1 & Hst & Hh1 & Hn1 & Hl1).
  destruct r as [resume|e|].
  - apply wp_bind. eapply wp_mono; [apply remove_step_files_spec|].
    intros r s2 (evs2 & Hcl & Hh2 & Hn2 & Hl2).
    assert (Hout : allocation_outcome C d (fs s) goal ninit nlive_const sf root cp
              (after_cleanup info resume r)
              ([EvLoadRun run; EvAllocate samp info] ++ evs1 ++ evs2))
      by (by eapply allocation_staged).
    assert (Hlog : log s2 = log s ++ [EvLoadRun run; EvAllocate samp info] ++ evs1 ++ evs2).
    { rewrite Hl2, Hl1, <- !app_assoc. done. }
    destruct r as [[]|e|]; cbn [after_cleanup] in Hout.
    + apply wp_ret. exists ([EvLoadRun run; EvAllocate samp info] ++ evs1 ++ evs2).
      split_and!; try done; congruence.
    + eexists. split_and!; [exact Hout| congruence | congruence | done].
    + eexists. split_and!; [exact Hout| congruence | congruence | done].
  - exists ([EvLoadRun run; EvAllocate samp info] ++ evs1). split_and!; try done.
    + by eapply allocation_staging_failed.
    + rewrite Hl1, <- !app_assoc. done.
  - by apply staging_outcome_fuel in Hst.
Qed.

Lemma wp_except m s (Q : outcome unit → state → Prop) :
  wp m s (λ r s',
    match r with
    | Raise (FileNotFoundError _) => Q (Ok tt) s'
    | _ => Q r s'
    end) →
  wp (except_file_not_found m) s Q.
Proof.
  intros H r s'. unfold except_file_not_found.
  destruct (m s) as [r0 s1] eqn:E. specialize (H _ _ E).
  destruct r0 as [|[]|]; intros [= <- <-]; exact H.
Qed.

(** The events after the sampler call of step 3 only touch files. *)
Lemma wp_tidy_up root s :
  wp (tidy_up root) s (λ r s',
    heap s' = heap s ∧ next_loc s' = next_loc s ∧ r ≠ OutOfFuel ∧
    ∃ evs, log s' = log s ++ evs ∧ Forall closing_event evs).
Proof.
  unfold tidy_up. cbn [for_each].
  assert (Hone : ∀ p s0, wp (except_file_not_found (os_remove p)) s0 (λ r s',
    heap s' = heap s0 ∧ next_loc s' = next_loc s0 ∧ r ≠ OutOfFuel ∧
    log s' = log s0 ++ [EvRemove p])).
  { intros p s0. apply wp_except, wp_os_remove.
    destruct (remove_fs p (fs s0)) as [e|f']; [destruct e|]; done. }
  apply wp_bind. eapply wp_mono; [apply Hone|].
  intros r s1 (Hh1 & Hn1 & Hr1 & Hl1). destruct r as [[]|e|]; [| |done].
  2:{ split_and!; try done. eexists; split; [exact Hl1|by repeat constructor]. }
  apply wp_bind. eapply wp_mono; [apply Hone|].
  intros r s2 (Hh2 & Hn2 & Hr2 & Hl2). destruct r as [[]|e|]; [| |done].
  - apply wp_ret. split_and!; try congruence.
    eexists [_; _]. split; [rewrite Hl2, Hl1, <- app_assoc; done|by repeat constructor].
  - split_and!; try congruence.
    eexists [_; _]. split; [rewrite Hl2, Hl1, <- app_assoc; done|by repeat constructor].
Qed.


Lemma wp_call_pickle_save C info path s (Q : outcome unit → state → Prop) :
  (∀ r f', r ≠ OutOfFuel →
     Q r (mkState (heap s) (next_loc s) f' (log s ++ [EvPickle info path]))) →
  wp (call_pickle_save C info path) s Q.
Proof.
  intros HQ. unfold call_pickle_save.
  apply wp_bind, wp_emit, wp_bind, wp_get_fs. cbn [fs].
  apply wp_bind, wp_lift. destruct (pickle_save _ _ _ _); [by apply HQ|].
  apply wp_put_fs. by apply HQ.
Qed.

Lemma dynamic_run_spec C run_func l_in goal ninit inc root init_dict cp info
    resume s (d cfgA : dict) :
  heap s !! l_in = Some d → heap s !! init_dict = Some cfgA →
  l_in ≠ next_loc s →
  wp (dynamic_run C run_func l_in goal ninit inc root init_dict cp info resume) s
    (λ r s',
      ∃ evs, dynamic_outcome (next_loc s) d cfgA goal ninit inc info r evs ∧
        (∀ l, l ≠ next_loc s → heap s' !! l = heap s !! l) ∧
        (∀ c rest, evs = EvRun (next_loc s) c :: rest →
           heap s' !! next_loc s = Some c) ∧
        log s' = log s ++ evs).
Proof.
  intros Hin HA Hne. unfold dynamic_run. set (sd := next_loc s).
  assert (Hearly : ∀ e (h' : gmap nat dict),
    (∀ l, l ≠ sd → h' !! l = heap s !! l) →
    ∃ evs, dynamic_outcome sd d cfgA goal ninit inc info (Raise e) evs ∧
      (∀ l, l ≠ sd → h' !! l = heap s !! l) ∧
      (∀ c rest, evs = EvRun sd c :: rest → h' !! sd = Some c) ∧
      log s = log s ++ evs).
  { intros e h' Hh. exists []. split_and!; [constructor|done|done|by rewrite app_nil_r]. }
  assert (Hframe : ∀ c l, l ≠ sd → <[sd := c]> (heap s) !! l = heap s !! l).
  { intros c l Hl. by rewrite lookup_insert_ne. }
  apply wp_bind. eapply wp_getitem; [exact HA|].
  destruct (cfgA !! "seed") as [final_seed|] eqn:Efinal;
    [|cbn beta; by apply Hearly].
  apply wp_bind. eapply wp_deepcopy; [exact Hin|]. fold sd.
  apply wp_bind, wp_lift.
  destruct (as_int final_seed) as [e|final_n] eqn:Efn;
    [cbn [heap next_loc fs log]; apply Hearly, Hframe|].
  apply wp_bind.
  apply (wp_mono _ _ (λ r s1,
    (∃ e c, r = Raise e ∧
       s1 = mkState (<[sd := c]> (heap s)) (S sd) (fs s) (log s)) ∨
    (∃ base, r = Ok tt ∧
       (if 0 <=? final_n
        then ∃ seed_in n seed',
               d !! "seed" = Some seed_in ∧ as_int seed_in = inr n ∧ 0 ≤ n ∧
               py_add final_seed inc = inr seed' ∧ base = <["seed" := seed']> d
        else base = d) ∧
       s1 = mkState (<[sd := base]> (heap s)) (S sd) (fs s) (log s)))).
  { destruct (0 <=? final_n).
    - apply wp_bind. eapply wp_getitem.
      { cbn [heap]. rewrite lookup_insert_ne by done. exact Hin. }
      destruct (d !! "seed") as [seed_in|] eqn:Esi; [|left; eauto].
      apply wp_bind, wp_lift.
      destruct (as_int seed_in) as [e|n] eqn:Ean; [left; eauto|].
      apply wp_bind, wp_assert. destruct (0 <=? n) eqn:En; [|left; eauto].
      apply Z.leb_le in En.
      apply wp_bind, wp_lift.
      destruct (py_add final_seed inc) as [e|seed'] eqn:Eadd; [left; eauto|].
      eapply wp_setitem; [cbn [heap]; apply lookup_insert_eq|].
      cbn [heap next_loc fs log]. rewrite insert_insert_eq.
      right. eexists. split_and!; [done| |done]. by exists seed_in, n, seed'.
    - apply wp_ret. right. eauto. }
  intros r s1 [(e & c & -> & ->) | (base & -> & Hbase & ->)].
  { cbn [heap next_loc fs log]. apply Hearly, Hframe. }
  apply wp_bind.
  apply (wp_mono _ _ (λ r s1,
    (∃ e c, r = Raise e ∧
       s1 = mkState (<[sd := c]> (heap s)) (S sd) (fs s) (log s)) ∨
    (∃ nl, r = Ok tt ∧
       (if Qeq_bool goal 0
        then ∃ m, max_value (nlives_dict info) = inr m ∧ nl = VInt m
        else nl = ninit) ∧
       s1 = mkState (<[sd := <["nlive" := nl]> base]> (heap s)) (S sd) (fs s) (log s)))).
  { destruct (Qeq_bool goal 0).
    - apply wp_bind, wp_lift.
      destruct (max_value (nlives_dict info)) as [e|m] eqn:Emax; [left; eauto|].
      eapply wp_setitem; [cbn [heap]; apply lookup_insert_eq|].
      cbn [heap next_loc fs log]. rewrite insert_insert_eq. right.
      exists (VInt m). eauto.
    - eapply wp_setitem; [cbn [heap]; apply lookup_insert_eq|].
      cbn [heap next_loc fs log]. rewrite insert_insert_eq. right.
      by exists ninit. }
  intros r s1 [(e & c & -> & ->) | (nl & -> & Hnl & ->)].
  { cbn [heap next_loc fs log]. apply Hearly, Hframe. }
  apply wp_bind. eapply wp_setitem; [cbn [heap]; apply lookup_insert_eq|].
  cbn [heap next_loc fs log]. rewrite insert_insert_eq.
  apply wp_bind. eapply wp_setitem; [cbn [heap]; apply lookup_insert_eq|].
  cbn [heap next_loc fs log]. rewrite insert_insert_eq.
  apply wp_bind. eapply wp_getitem.
  { cbn [heap]. rewrite lookup_insert_ne by done. exact Hin. }
  destruct (d !! "file_root") as [fr|] eqn:Efr;
    [|cbn [heap next_loc fs log]; apply Hearly, Hframe].
  apply wp_bind, wp_lift.
  destruct (py_add fr (VStr "_dyn")) as [e|fr_dyn] eqn:Efrd;
    [cbn [heap next_loc fs log]; apply Hearly, Hframe|].
  apply wp_bind. eapply wp_setitem; [cbn [heap]; apply lookup_insert_eq|].
  cbn [heap next_loc fs log]. rewrite insert_insert_eq.
  set (c := <["file_root" := fr_dyn]> _).
  assert (Hc : dynamic_config d goal ninit inc final_seed info c).
  { exists final_n, base, nl, fr, fr_dyn. done. }
  eapply wp_bind, wp_call_run_func; [cbn [heap]; apply lookup_insert_eq|].
  cbn [heap next_loc fs log].
  assert (Hcalled : ∀ r rest, (r = Ok tt ∨ ∃ e, r = Raise e) → Forall closing_event rest →
    ∃ evs, dynamic_outcome sd d cfgA goal ninit inc info r evs ∧
      (∀ l, l ≠ sd → <[sd := c]> (heap s) !! l = heap s !! l) ∧
      (∀ c0 rest0, evs = EvRun sd c0 :: rest0 → <[sd := c]> (heap s) !! sd = Some c0) ∧
      log s ++ [EvRun sd c] ++ rest = log s ++ evs).
  { intros r rest Hr Hrest. exists (EvRun sd c :: rest). split_and!; try done.
    - by eapply dynamic_called.
    - apply Hframe.
    - intros c0 rest0 [= <- <-]. apply lookup_insert_eq. }
  destruct (run_func c (fs s)) as [e|f1].
  { destruct (Hcalled (Raise e) []) as (evs & ? & ? & ? & Hl); [eauto|constructor|].
    exists evs. rewrite app_nil_r in Hl. done. }
  apply wp_bind.
  apply (wp_mono _ _ (λ (r : outcome dyn_info) s1, r ≠ OutOfFuel ∧
    s1 = mkState (<[sd := c]> (heap s)) (S sd) f1 (log s ++ [EvRun sd c]))).
  { destruct (negb _).
    - apply wp_bind, wp_local. destruct resume; [|done].
      apply wp_bind, wp_local. destruct (outputs_at_resumes <$> cp) as [outs|]; [|done].
      destruct (outs !! _); [by apply wp_ret | by apply wp_raise].
    - by apply wp_ret. }
  intros r s1 [Hr ->]. destruct r as [info'|e|]; [| |done].
  2:{ destruct (Hcalled (Raise e) []) as (evs & ? & ? & ? & Hl); [eauto|constructor|].
      exists evs. rewrite app_nil_r in Hl. done. }
  apply wp_bind, wp_call_pickle_save. intros r f2 Hr2. cbn [heap next_loc fs log].
  destruct r as [[]|e|]; [| |done].
  2:{ destruct (Hcalled (Raise e) [EvPickle info' (root +:+ "_dyn_info")])
        as (evs & ? & ? & ? & Hl); [eauto|by repeat constructor|].
      exists evs. rewrite <- app_assoc. done. }
  eapply wp_mono; [apply wp_tidy_up|]. cbn [heap next_loc fs log].
  intros r s2 (Hh & Hn & Hr3 & evs3 & Hl3 & Hev3).
  destruct (Hcalled r (EvPickle info' (root +:+ "_dyn_info") :: evs3))
    as (evs & ? & ? & ? & Hl).
  { destruct r as [[]|e|]; [by left | right; eauto | done]. }
  { by constructor. }
  exists evs. rewrite Hh, Hl3. split_and!; try done.
  rewrite <- Hl, <- !app_assoc. done.
Qed.


(** ** The whole call *)

Lemma initial_outcome_ok sd d goal ninit init_step inc root fuel x cp evs cfg' :
  initial_outcome sd d goal ninit init_step inc root fuel (Ok (x, cp)) evs cfg' →
  x = sd.
Proof.
  inversion 1 as [|cfg0 r Hg Hc Hr|cfg0 r evs0 cfg0' Hg Hc Htr Hr]; subst.
  - destruct Hr as [[= ->]|[? [=]]]. done.
  - destruct r; simplify_eq/=. done.
Qed.

Lemma run_dypolychord_spec fuel C run_func goal kwargs (d : dict) f :
  wp (run_dypolychord fuel C run_func caller goal kwargs) (initial_state d f)
    (λ r s',
      run_outcome C d kwargs goal fuel r (log s') (heap s') ∧
      heap s' !! caller = Some (fill_defaults d)).
Proof.
  unfold run_dypolychord. apply wp_bind.
  eapply wp_mono; [apply (prelude_spec caller kwargs _ d); apply lookup_singleton_eq|].
  intros r s0 (Hh0 & Hn0 & Hf0 & Hl0 & Hr0 & _ & _ & Hopt).
  cbn [initial_state heap next_loc fs log] in *.
  assert (Hc0 : heap s0 !! caller = Some (fill_defaults d))
    by (rewrite Hh0; apply lookup_insert_eq).
  destruct r as [o|e|]; [| |done].
  2:{ rewrite Hl0. split; [constructor|done]. }
  destruct (Hopt o eq_refl) as (-> & -> & -> & -> & -> & bd & fr & Hbd & Hfr & Hroot).
  apply wp_bind. eapply wp_mono.
  { eapply initial_run_spec; [exact Hc0|]. rewrite Hn0. done. }
  rewrite Hn0, Hl0. cbn [app].
  intros rA s1 (evA & cfgA & HA & Hh1 & Hn1 & Hl1).
  assert (Hc1 : heap s1 !! caller = Some (fill_defaults d)).
  { rewrite Hh1, lookup_insert_ne by done. exact Hc0. }
  destruct rA as [[sd cp]|e|].
  2:{ rewrite Hl1. split; [|done].
      by eapply (run_initial_stopped _ _ _ _ _ _ _ _ (Raise e)). }
  2:{ rewrite Hl1. split; [|done].
      by eapply (run_initial_stopped _ _ _ _ _ _ _ _ OutOfFuel). }
  assert (sd = 1%nat) as -> by (by eapply initial_outcome_ok).
  apply wp_bind. eapply wp_mono; [eapply allocation_spec; exact Hc1|].
  intros rB s2 (evB & HB & Hh2 & Hn2 & Hl2).
  assert (Hc2 : heap s2 !! caller = Some (fill_defaults d)) by (by rewrite Hh2).
  destruct rB as [[info resume]|e|].
  2:{ rewrite Hl2, Hl1. split; [|done].
      by eapply (run_allocation_stopped _ _ _ _ _ _ _ _ _ _ _ _ (Raise e)). }
  2:{ rewrite Hl2, Hl1. split; [|done].
      by eapply (run_allocation_stopped _ _ _ _ _ _ _ _ _ _ _ _ OutOfFuel). }
  eapply wp_mono.
  { eapply dynamic_run_spec; [exact Hc2| |].
    - rewrite Hh2, Hh1. apply lookup_insert_eq.
    - rewrite Hn2, Hn1. done. }
  rewrite Hn2, Hn1.
  intros r s3 (evC & HC & Hh3 & Hh3' & Hl3). split.
  - rewrite Hl3, Hl2, Hl1, <- app_assoc. by eapply run_dynamic.
  - rewrite Hh3 by done. exact Hc2.
Qed.


(** ** Input checks and the caller's dictionary *)

Lemma run_dypolychord_rejected fuel C run_func l goal kwargs s e s0 :
  prelude l kwargs s = (Raise e, s0) →
  run_dypolychord fuel C run_func l goal kwargs s = (Raise e, s0).
Proof.
  intros E. unfold run_dypolychord, mbind, M_bind, bind. by rewrite E.
Qed.

(** C7: an unrecognised keyword option, or a caller's dictionary that
    already holds a non-empty [nlives] or a true [read_resume], makes the
    call fail with a usage error -- the [TypeError] of line 58 or the
    [AssertionError] of lines 60 and 61 -- whatever [dynamic_goal] is, and
    nothing has been asked of the sampler or of any other collaborator by
    then: the log is empty. *)
Theorem usage_errors_precede_sampling fuel C run_func goal kwargs (d : dict) f :
  (∃ k, (k ∉ recognised) ∧ is_Some (kwargs !! k)) ∨
  (∃ v, d !! "nlives" = Some v ∧ truthy v = true) ∨
  (∃ v, d !! "read_resume" = Some v ∧ truthy v = true) →
  ∃ e s',
    run_dypolychord fuel C run_func caller goal kwargs (initial_state d f)
      = (Raise e, s') ∧
    usage_error e ∧ log s' = [] ∧ runs (log s') = [] ∧
    ((∃ k, (k ∉ recognised) ∧ is_Some (kwargs !! k)) →
       e = TypeError "Unexpected **kwargs").
Proof.
  intros Hbad.
  destruct (prelude caller kwargs (initial_state d f)) as [r s0] eqn:E.
  destruct (prelude_spec caller kwargs (initial_state d f) d
              (lookup_singleton_eq _ _) r s0 E)
    as (_ & _ & _ & Hl & _ & Hkw & Hset & _).
  cbn [initial_state log] in Hl.
  assert (∃ e, r = Raise e ∧ usage_error e ∧
            ((∃ k, (k ∉ recognised) ∧ is_Some (kwargs !! k)) →
               e = TypeError "Unexpected **kwargs")) as (e & -> & Hu & Hty).
  { destruct Hbad as [Hk | [(v & Hv & Ht) | (v & Hv & Ht)]].
    - exists (TypeError "Unexpected **kwargs"). split_and!; [by apply Hkw|by left|done].
    - destruct (Hset "nlives" v) as (e & -> & Hu);
        [by left|by apply fill_defaults_present|done|].
      exists e. split_and!; [done..|]. intros Hk. apply Hkw in Hk. congruence.
    - destruct (Hset "read_resume" v) as (e & -> & Hu);
        [by right|by apply fill_defaults_present|done|].
      exists e. split_and!; [done..|]. intros Hk. apply Hkw in Hk. congruence. }
  exists e, s0. split_and!; try done.
  - by apply run_dypolychord_rejected.
  - by rewrite Hl.
Qed.

Lemma usage_errors_precede_sampling_witness :
  ((∃ k, (k ∉ recognised) ∧ is_Some (demo_bad_kwargs !! k)) ∨
   (∃ v, demo_settings 1 !! "nlives" = Some v ∧ truthy v = true) ∨
   (∃ v, demo_settings 1 !! "read_resume" = Some v ∧ truthy v = true)) ∧
  ∃ e s',
    run_dypolychord 5 (demo_world 5 demo_schedule) (demo_sampler 12) caller 1
      demo_bad_kwargs (initial_state (demo_settings 1) ∅) = (Raise e, s') ∧
    usage_error e ∧ log s' = [] ∧ runs (log s') = [] ∧
    ((∃ k, (k ∉ recognised) ∧ is_Some (demo_bad_kwargs !! k)) →
       e = TypeError "Unexpected **kwargs").
Proof.
  assert (H : ∃ k, (k ∉ recognised) ∧ is_Some (demo_bad_kwargs !! k)).
  { exists "unexpected". split.
    - apply (bool_decide_unpack _). vm_compute. exact I.
    - exists (VInt 1). vm_compute. reflexivity. }
  split; [by left|].
  apply (usage_errors_precede_sampling 5 (demo_world 5 demo_schedule)
           (demo_sampler 12) 1 demo_bad_kwargs (demo_settings 1) ∅).
  by left.
Defined.

(** C10: before anything else the call writes the missing defaults into the
    caller's own dictionary, and that is all it ever writes there.  However
    the call ends -- normally, with an exception raised at any point, or
    still looping when the fuel runs out -- the caller's dictionary holds
    exactly what it held before, plus the default value of every default
    key it lacked: [file_root], [nlive], [seed], [max_ndead], the resume
    flags and [nlives] are overridden in the deep copies only. *)
Theorem caller_dict_gets_defaults_only fuel C run_func goal kwargs (d : dict) f :
  heap (run_dypolychord fuel C run_func caller goal kwargs (initial_state d f)).2
    !! caller = Some (fill_defaults d) ∧
  heap (prelude caller kwargs (initial_state d f)).2 !! caller
    = Some (fill_defaults d) ∧
  (∀ k v, d !! k = Some v → fill_defaults d !! k = Some v) ∧
  (∀ k, d !! k = None → fill_defaults d !! k = assoc k default_settings).
Proof.
  split_and!.
  - destruct (run_dypolychord _ _ _ _ _ _ _) as [r s'] eqn:E.
    by destruct (run_dypolychord_spec fuel C run_func goal kwargs d f r s' E).
  - destruct (prelude _ _ _) as [r s'] eqn:E.
    destruct (prelude_spec caller kwargs (initial_state d f) d
                (lookup_singleton_eq _ _) r s' E) as (Hh & _).
    cbn [snd]. rewrite Hh. apply lookup_insert_eq.
  - apply fill_defaults_present.
  - apply fill_defaults_missing.
Qed.


(** ** What the passes of the loop hand to the sampler *)

Lemma config_step_other init_step inc j (cfg c' : dict) k :
  config_step init_step inc j cfg c' →
  k ≠ "seed" → k ≠ "max_ndead" → k ≠ "read_resume" →
  c' !! k = cfg !! k.
Proof. intros (step & seed & seed' & _ & _ & _ & ->) ???. by apply call_config_other. Qed.

Lemma config_step_max_ndead init_step inc j (cfg c' : dict) step :
  config_step init_step inc j cfg c' → as_int init_step = inr step →
  c' !! "max_ndead" = Some (VInt ((Z.of_nat j + 1) * step)).
Proof.
  intros (step' & seed & seed' & Hs & _ & _ & ->) Hstep.
  rewrite call_config_max_ndead. congruence.
Qed.

Lemma bump_int z s : bump (VInt z) (VInt s) = inr (VInt (next_seed z s)).
Proof. unfold bump, next_seed; cbn. by destruct (0 <=? s). Qed.

Lemma bump_negative inc s : s < 0 → bump inc (VInt s) = inr (VInt s).
Proof.
  intros Hs. unfold bump; cbn [as_int].
  destruct (0 <=? s) eqn:E; [apply Z.leb_le in E; lia | done].
Qed.

Lemma config_step_seed z j (cfg c' : dict) init_step s :
  config_step init_step (VInt z) j cfg c' → cfg !! "seed" = Some (VInt s) →
  c' !! "seed" = Some (VInt (next_seed z s)).
Proof.
  intros (step & seed & seed' & _ & Hseed & Hb & ->) Hs.
  rewrite call_config_seed. rewrite Hs in Hseed. injection Hseed as <-.
  rewrite bump_int in Hb. congruence.
Qed.

Lemma config_step_seed_negative inc j (cfg c' : dict) init_step s :
  config_step init_step inc j cfg c' → cfg !! "seed" = Some (VInt s) → s < 0 →
  c' !! "seed" = Some (VInt s).
Proof.
  intros (step & seed & seed' & _ & Hseed & Hb & ->) Hs Hneg.
  rewrite call_config_seed. rewrite Hs in Hseed. injection Hseed as <-.
  rewrite bump_negative in Hb by done. congruence.
Qed.

Lemma config_chain_other init_step inc j (cfg : dict) cs i c k :
  config_chain init_step inc j cfg cs → cs !! i = Some c →
  k ≠ "seed" → k ≠ "max_ndead" → k ≠ "read_resume" →
  c !! k = cfg !! k.
Proof.
  revert j cfg i. induction cs as [|c0 cs IH]; intros j cfg i Hch Hi ???; [done|].
  destruct Hch as [Hstep Hch]. destruct i as [|i]; simplify_eq/=.
  - by eapply config_step_other.
  - rewrite (IH _ _ _ Hch Hi) by done. by eapply config_step_other.
Qed.

Lemma config_chain_max_ndead init_step inc j (cfg : dict) cs i c step :
  config_chain init_step inc j cfg cs → cs !! i = Some c →
  as_int init_step = inr step →
  c !! "max_ndead" = Some (VInt ((Z.of_nat (j + i) + 1) * step)).
Proof.
  revert j cfg i. induction cs as [|c0 cs IH]; intros j cfg i Hch Hi Hs; [done|].
  destruct Hch as [Hstep Hch]. destruct i as [|i]; simplify_eq/=.
  - rewrite Nat.add_0_r. by eapply config_step_max_ndead.
  - rewrite (IH _ _ _ Hch Hi Hs). do 3 f_equal. lia.
Qed.

Lemma config_chain_seed init_step z j (cfg : dict) cs i c s :
  config_chain init_step (VInt z) j cfg cs → cs !! i = Some c →
  cfg !! "seed" = Some (VInt s) →
  c !! "seed" = Some (VInt (Nat.iter (S i) (next_seed z) s)).
Proof.
  revert j cfg i s. induction cs as [|c0 cs IH]; intros j cfg i s Hch Hi Hs; [done|].
  destruct Hch as [Hstep Hch]. destruct i as [|i]; simplify_eq/=.
  - by eapply config_step_seed.
  - rewrite (IH _ _ _ _ Hch Hi (config_step_seed _ _ _ _ _ _ Hstep Hs)).
    do 2 f_equal. by rewrite <- !Nat.iter_succ_r.
Qed.

Lemma config_chain_seed_negative init_step inc j (cfg : dict) cs i c s :
  config_chain init_step inc j cfg cs → cs !! i = Some c →
  cfg !! "seed" = Some (VInt s) → s < 0 →
  c !! "seed" = Some (VInt s).
Proof.
  revert j cfg i. induction cs as [|c0 cs IH]; intros j cfg i Hch Hi Hs Hneg; [done|].
  destruct Hch as [Hstep Hch]. destruct i as [|i]; simplify_eq/=.
  - by eapply config_step_seed_negative.
  - eapply IH; [done..| |done]. by eapply config_step_seed_negative.
Qed.

(** *** Shape of the traces *)

Lemma step_outcome_sampling sd init_step inc root cp cfg r evs cfg' :
  step_outcome sd init_step inc root cp cfg r evs cfg' → Forall sampling_event evs.
Proof. destruct 1; repeat constructor. Qed.

Lemma step_outcome_runs sd init_step inc root cp cfg r evs cfg' :
  step_outcome sd init_step inc root cp cfg r evs cfg' →
  runs evs = [] ∧ (∃ e, r = Raise e) ∨
  config_step init_step inc (length (step_ndead cp)) cfg cfg' ∧
    runs evs = [(sd, cfg')].
Proof. destruct 1; eauto. Qed.

Lemma step_outcome_continue sd init_step inc root cp cfg b cp' evs cfg' :
  step_outcome sd init_step inc root cp cfg (Ok (b, cp')) evs cfg' →
  ∃ out nlv n,
    cfg' !! "nlive" = Some nlv ∧ as_int nlv = inr n ∧
    step_ndead cp' = step_ndead cp ++ [ndead out - n] ∧
    last_two_equal (step_ndead cp') = b ∧
    readings evs = [ndead out].
Proof.
  inversion 1 as [| | |c' out nlv n Hc Hn Hi Hl
                  |c' out nlv n r Hc Hn Hi Hl Hr]; subst.
  - by exists out, nlv, n.
  - destruct Hr as [Hr|[? Hr]]; simplify_eq. by exists out, nlv, n.
Qed.

Lemma loop_trace_sampling sd init_step inc root fuel cp cfg r evs cfg' :
  loop_trace sd init_step inc root fuel cp cfg r evs cfg' →
  Forall sampling_event evs.
Proof.
  induction 1; [constructor|by eapply step_outcome_sampling..|].
  apply Forall_app. split; [by eapply step_outcome_sampling|done].
Qed.

Lemma loop_trace_chain sd init_step inc root fuel cp cfg r evs cfg' :
  loop_trace sd init_step inc root fuel cp cfg r evs cfg' →
  ∃ cs, runs evs = (λ c, (sd, c)) <$> cs ∧
    config_chain init_step inc (length (step_ndead cp)) cfg cs ∧
    (∀ cp', r = Ok cp' → last cs = Some cfg').
Proof.
  induction 1 as [cp cfg|fuel cp cfg cp' evs cfg' Hstep
                  |fuel cp cfg e evs cfg' Hstep
                  |fuel cp cfg cp' evs cfg' r evs' cfg'' Hstep Htr IH].
  - by exists [].
  - apply step_outcome_runs in Hstep as [[_ [? [=]]]|[Hc Hr]].
    exists [cfg']. by rewrite Hr.
  - apply step_outcome_runs in Hstep as [[Hr _]|[Hc Hr]].
    + exists []. by rewrite Hr.
    + exists [cfg']. by rewrite Hr.
  - destruct IH as (cs & Hruns & Hch & Hlast).
    destruct (step_outcome_continue _ _ _ _ _ _ _ _ _ _ Hstep)
      as (out & nlv & n & _ & _ & Hsteps & _ & _).
    apply step_outcome_runs in Hstep as [[_ [? [=]]]|[Hc Hr]].
    exists (cfg' :: cs). split_and!.
    + unfold runs in *. by rewrite omap_app, Hr, Hruns.
    + split; [done|]. rewrite Hsteps, length_app, Nat.add_1_r in Hch. done.
    + intros cp'' ->. specialize (Hlast _ eq_refl).
      destruct cs; [done|]. done.
Qed.

Lemma last_two_equal_snoc steps a b :
  last_two_equal ((steps ++ [a]) ++ [b]) = (b =? a).
Proof. unfold last_two_equal. by rewrite !rev_app_distr. Qed.

Lemma last_two_equal_single a : last_two_equal [a] = false.
Proof. done. Qed.

(** The counts read back, pass after pass: the loop goes on as long as the
    last two entries of [step_ndead] differ, and returns as soon as they
    agree. *)
Lemma loop_trace_readings sd init_step inc root fuel cp cfg r evs cfg' nlv n :
  loop_trace sd init_step inc root fuel cp cfg r evs cfg' →
  cfg !! "nlive" = Some nlv → as_int nlv = inr n →
  let ds := (λ x, x - n) <$> readings evs in
  (∀ k, (0 < k < length ds)%nat →
     last_two_equal (step_ndead cp ++ take k ds) = false) ∧
  (∀ cp', r = Ok cp' →
     ds ≠ [] ∧ last_two_equal (step_ndead cp ++ ds) = true ∧
     step_ndead cp' = step_ndead cp ++ ds ∧
     length (runs evs) = length ds) ∧
  (ds ≠ [] → last_two_equal (step_ndead cp ++ ds) = true → ∃ cp', r = Ok cp') ∧
  (r = OutOfFuel → length ds = fuel ∧ length (runs evs) = fuel).
Proof.
  intros Htr. revert nlv n.
  induction Htr as [cp cfg|fuel cp cfg cp' evs cfg' Hstep
                    |fuel cp cfg e evs cfg' Hstep
                    |fuel cp cfg cp' evs cfg' r evs' cfg'' Hstep Htr IH];
    intros nlv n Hnlv Hn ds.
  - subst ds. cbn. split_and!; try done. intros; lia.
  - destruct (step_outcome_continue _ _ _ _ _ _ _ _ _ _ Hstep)
      as (out & nlv' & n' & Hnlv' & Hn' & Hsteps & Hlast & Hread).
    apply step_outcome_runs in Hstep as [[_ [? [=]]]|[Hc Hr]].
    rewrite (config_step_other _ _ _ _ _ "nlive" Hc) in Hnlv' by done.
    assert (nlv' = nlv) as -> by congruence. assert (n' = n) as -> by congruence.
    subst ds. rewrite Hread, Hr. cbn [fmap list_fmap length].
    split_and!; try done.
    + intros; lia.
    + intros cp'' [= <-]. rewrite <- Hsteps. done.
    + eauto.
  - subst ds.
    inversion Hstep as [e' c'|c' e' Hc|c' out e' Hc Hno| |c' out nlv' n' r' Hc Hnlv' Hn' Hl Hr];
      subst; cbn [readings omap list_omap fmap list_fmap length runs].
    + split_and!; try done. intros; lia.
    + split_and!; try done. intros; lia.
    + exfalso. eapply Hno; [|exact Hn].
      by rewrite (config_step_other _ _ _ _ _ "nlive" Hc).
    + rewrite (config_step_other _ _ _ _ _ "nlive" Hc) in Hnlv' by done.
      assert (nlv' = nlv) as -> by congruence. assert (n' = n) as -> by congruence.
      split_and!; try done.
      * intros; lia.
      * intros _ Heq. congruence.
  - destruct (step_outcome_continue _ _ _ _ _ _ _ _ _ _ Hstep)
      as (out & nlv' & n' & Hnlv' & Hn' & Hsteps & Hlast & Hread).
    apply step_outcome_runs in Hstep as [[_ [? [=]]]|[Hc Hr]].
    pose proof Hnlv' as Hnlv''.
    rewrite (config_step_other _ _ _ _ _ "nlive" Hc) in Hnlv' by done.
    assert (nlv' = nlv) as -> by congruence. assert (n' = n) as -> by congruence.
    destruct (IH nlv n Hnlv'' Hn) as (IH1 & IH2 & IH3 & IH4). clear IH.
    subst ds. unfold readings, runs in *.
    rewrite !omap_app, Hread, Hr, !fmap_app, !length_app.
    cbn [fmap list_fmap length app].
    set (ds' := (λ x, x - n) <$> omap _ evs') in *.
    rewrite Hsteps in IH1, IH2, IH3.
    split_and!.
    + intros k Hk. destruct k as [|[|k]]; [lia| |].
      * cbn [take]. rewrite take_0, <- Hsteps. exact Hlast.
      * cbn [take]. rewrite (cons_middle _ (step_ndead cp)), app_assoc.
        apply IH1. cbn [length] in Hk. lia.
    + intros cp'' ->. destruct (IH2 _ eq_refl) as (Hne & Hl2 & Hs2 & Hlen).
      split_and!; try done.
      * by rewrite (cons_middle _ (step_ndead cp)), app_assoc.
      * by rewrite (cons_middle _ (step_ndead cp)), app_assoc.
      * cbn. by rewrite Hlen.
    + intros _ Heq. rewrite (cons_middle _ (step_ndead cp)), app_assoc in Heq.
      destruct (decide (ds' = [])) as [Eds|Eds].
      * rewrite Eds, app_nil_r, <- Hsteps in Heq. congruence.
      * by apply IH3.
    + intros ->. destruct (IH4 eq_refl) as [H1 H2]. cbn. lia.
Qed.


(** ** Step 1 *)

Lemma loop_config_lookup (cfg0 : dict) k :
  k ≠ "read_resume" → k ≠ "write_resume" → loop_config cfg0 !! k = cfg0 !! k.
Proof. intros. unfold loop_config. by rewrite !lookup_insert_ne. Qed.

Lemma loop_config_write_resume (cfg0 : dict) :
  loop_config cfg0 !! "write_resume" = Some (VBool true).
Proof. unfold loop_config. by rewrite lookup_insert_ne, lookup_insert_eq. Qed.

Lemma init_config_nlive (d : dict) ninit cfg0 :
  init_config d ninit cfg0 → cfg0 !! "nlive" = Some ninit.
Proof. intros (fr & fr_init & _ & _ & ->). apply lookup_insert_eq. Qed.

Lemma init_config_other (d : dict) ninit cfg0 k :
  init_config d ninit cfg0 → k ≠ "nlive" → k ≠ "file_root" → cfg0 !! k = d !! k.
Proof. intros (fr & fr_init & _ & _ & ->) ??. by rewrite !lookup_insert_ne. Qed.

Lemma initial_outcome_sampling sd d goal ninit init_step inc root fuel r evs cfg' :
  initial_outcome sd d goal ninit init_step inc root fuel r evs cfg' →
  Forall sampling_event evs.
Proof.
  destruct 1; [constructor|repeat constructor|by eapply loop_trace_sampling].
Qed.

(** C2: in the goal-driven case the loop of step 1 returns exactly when the
    last two entries of [step_ndead] -- the dead-point counts read back
    after the last two invocations, less [nlive] -- agree.  With [ds] the
    list of these entries as the log shows them: step 1 returns if and only
    if the last two entries of [ds] are equal; no two earlier consecutive
    entries are equal, so the loop neither went on after a repeat nor
    stopped without one; once the repeat is there every invocation made has
    had its count read, so none was made after it; and when the loop is
    still running as the fuel of the model runs out, it has made one
    invocation for each unit of fuel. *)
Theorem exploratory_loop_stops_at_repeat fuel C run_func l_in goal ninit
    init_step inc root s (d : dict) n r s' :
  heap s !! l_in = Some d → l_in ≠ next_loc s →
  Qeq_bool goal 0 = false → as_int ninit = inr n →
  initial_run fuel C run_func l_in goal ninit init_step inc root s = (r, s') →
  ∃ evs, log s' = log s ++ evs ∧
    ((∃ sd cp, r = Ok (sd, Some cp) ∧
               step_ndead cp = (λ x, x - n) <$> readings evs)
     ↔ last_two_equal ((λ x, x - n) <$> readings evs) = true) ∧
    (∀ k, (0 < k < length (readings evs))%nat →
       last_two_equal (take k ((λ x, x - n) <$> readings evs)) = false) ∧
    (last_two_equal ((λ x, x - n) <$> readings evs) = true →
       length (runs evs) = length (readings evs)) ∧
    (r = OutOfFuel →
       length (readings evs) = fuel ∧ length (runs evs) = fuel).
Proof.
  intros Hin Hne Hgoal Hn E.
  destruct (initial_run_spec fuel C run_func l_in goal ninit init_step inc root
              s d Hin Hne r s' E) as (evs & cfg' & Hout & _ & _ & Hl).
  exists evs. split; [done|].
  inversion Hout as [e cfg1|cfg0 r0 Hg|cfg0 rL evs0 cfg1 Hg Hc0 Htr]; subst.
  - cbn [readings omap list_omap fmap list_fmap length runs]. split_and!; try done.
    + split; [intros (? & ? & [=] & _)|done].
    + intros; lia.
  - congruence.
  - assert (Hnl : loop_config cfg0 !! "nlive" = Some ninit).
    { rewrite loop_config_lookup by done. by eapply init_config_nlive. }
    destruct (loop_trace_readings _ _ _ _ _ _ _ _ _ _ _ _ Htr Hnl Hn)
      as (H1 & H2 & H3 & H4).
    cbn [step_ndead app] in *. rewrite length_fmap in H1, H2, H4.
    split_and!.
    + split.
      * intros (sd & cp & Hr & _). destruct rL; cbn [after_loop] in Hr; simplify_eq.
        by destruct (H2 _ eq_refl) as (_ & ? & _).
      * intros Heq. destruct H3 as [cp ->]; [by intros Hnil; rewrite Hnil in Heq|done|].
        destruct (H2 _ eq_refl) as (_ & _ & ? & _). cbn. eauto.
    + exact H1.
    + intros Heq. destruct H3 as [cp ->]; [by intros Hnil; rewrite Hnil in Heq|done|].
      by destruct (H2 _ eq_refl) as (_ & _ & _ & ?).
    + intros Hr. destruct rL; cbn [after_loop] in Hr; simplify_eq. by apply H4.
Qed.

Lemma exploratory_loop_stops_at_repeat_witness :
  (heap demo_after_prelude !! caller = Some (fill_defaults (demo_settings 1)) ∧
   caller ≠ next_loc demo_after_prelude ∧
   Qeq_bool 1 0 = false ∧ as_int (VInt 5) = inr 5 ∧
   initial_run 10 (demo_world 5 demo_schedule) (demo_sampler 12) caller 1
     (VInt 5) (VInt 5) (VInt 100) "chains_test/test" demo_after_prelude
   = (demo_initial_run.1, demo_initial_run.2)) ∧
  ∃ evs, log demo_initial_run.2 = log demo_after_prelude ++ evs ∧
    ((∃ sd cp, demo_initial_run.1 = Ok (sd, Some cp) ∧
               step_ndead cp = (λ x, x - 5) <$> readings evs)
     ↔ last_two_equal ((λ x, x - 5) <$> readings evs) = true) ∧
    (∀ k, (0 < k < length (readings evs))%nat →
       last_two_equal (take k ((λ x, x - 5) <$> readings evs)) = false) ∧
    (last_two_equal ((λ x, x - 5) <$> readings evs) = true →
       length (runs evs) = length (readings evs)) ∧
    (demo_initial_run.1 = OutOfFuel →
       length (readings evs) = 10%nat ∧ length (runs evs) = 10%nat).
Proof.
  assert (H1 : heap demo_after_prelude !! caller
               = Some (fill_defaults (demo_settings 1)))
    by (vm_compute; reflexivity).
  assert (H2 : caller ≠ next_loc demo_after_prelude) by (vm_compute; discriminate).
  assert (H3 : Qeq_bool 1 0 = false) by reflexivity.
  assert (H4 : as_int (VInt 5) = inr 5) by reflexivity.
  assert (H5 : initial_run 10 (demo_world 5 demo_schedule) (demo_sampler 12)
                 caller 1 (VInt 5) (VInt 5) (VInt 100) "chains_test/test"
                 demo_after_prelude
               = (demo_initial_run.1, demo_initial_run.2))
    by (unfold demo_initial_run; apply surjective_pairing).
  split; [exact (conj H1 (conj H2 (conj H3 (conj H4 H5))))|].
  exact (exploratory_loop_stops_at_repeat 10 (demo_world 5 demo_schedule)
           (demo_sampler 12) caller 1 (VInt 5) (VInt 5) (VInt 100)
           "chains_test/test" demo_after_prelude (fill_defaults (demo_settings 1))
           5 demo_initial_run.1 demo_initial_run.2 H1 H2 H3 H4 H5).
Defined.


(** ** The log of a whole call *)

Lemma runs_app a b : runs (a ++ b) = runs a ++ runs b.
Proof. apply omap_app. Qed.

Lemma copies_app a b : copies (a ++ b) = copies a ++ copies b.
Proof. apply omap_app. Qed.

Lemma removals_app a b : removals (a ++ b) = removals a ++ removals b.
Proof. apply omap_app. Qed.

Lemma allocations_app a b : allocations (a ++ b) = allocations a ++ allocations b.
Proof. apply omap_app. Qed.

Lemma runs_cons e evs :
  runs (e :: evs) = match e with EvRun l c => [(l, c)] | _ => [] end ++ runs evs.
Proof. by destruct e. Qed.

Lemma copies_cons e evs :
  copies (e :: evs) = match e with EvCopy a b => [(a, b)] | _ => [] end ++ copies evs.
Proof. by destruct e. Qed.

Lemma removals_cons e evs :
  removals (e :: evs) = match e with EvRemove p => [p] | _ => [] end ++ removals evs.
Proof. by destruct e. Qed.

Lemma allocations_cons e evs :
  allocations (e :: evs)
  = match e with EvAllocate t i => [(t, i)] | _ => [] end ++ allocations evs.
Proof. by destruct e. Qed.

Lemma before_load_app a b :
  Forall sampling_event a → before_load (a ++ b) = a ++ before_load b.
Proof.
  induction 1 as [|e a He _ IH]; [done|].
  destruct e; try done; cbn; by rewrite IH.
Qed.

Lemma after_allocate_app a b :
  Forall sampling_event a → after_allocate (a ++ b) = after_allocate b.
Proof. induction 1 as [|e a He _ IH]; [done|]. by destruct e. Qed.

Lemma sampling_allocations a : Forall sampling_event a → allocations a = [].
Proof. induction 1 as [|e a He _ IH]; [done|]. by destruct e. Qed.

Lemma closing_runs a : Forall closing_event a → runs a = [].
Proof. induction 1 as [|e a He _ IH]; [done|]. by destruct e. Qed.

Lemma closing_copies a : Forall closing_event a → copies a = [].
Proof. induction 1 as [|e a He _ IH]; [done|]. by destruct e. Qed.

Lemma closing_allocations a : Forall closing_event a → allocations a = [].
Proof. induction 1 as [|e a He _ IH]; [done|]. by destruct e. Qed.

Lemma removes_closing ps : Forall closing_event (EvRemove <$> ps).
Proof. induction ps; by constructor. Qed.

Lemma removes_removals ps : removals (EvRemove <$> ps) = ps.
Proof. induction ps as [|p ps IH]; [done|]. cbn. by rewrite <- IH at 2. Qed.

Lemma cleanup_outcome_closing root goal cp r evs :
  cleanup_outcome root goal cp r evs → Forall closing_event evs.
Proof. destruct 1; try constructor; apply removes_closing. Qed.

(** What step 2 logs: nothing, the load alone, or the load, the allocation
    and then the copy (if any) and the removals. *)
Lemma allocation_outcome_shape C d f goal ninit nlive_const sf root cp r evs :
  allocation_outcome C d f goal ninit nlive_const sf root cp r evs →
  ((evs = [] ∨ ∃ run, evs = [EvLoadRun run]) ∧ ∃ e, r = Raise e) ∨
  ∃ run samp info rs evs1 evs2,
    evs = EvLoadRun run :: EvAllocate samp info :: evs1 ++ evs2 ∧
    loaded_run C d f run ∧ target_of C d nlive_const ninit run = inr samp ∧
    allocate C run samp goal sf = inr info ∧
    staging_outcome root cp info rs evs1 ∧
    Forall closing_event evs2 ∧
    (∀ x, r = Ok x → ∃ resume, x = (info, resume) ∧ rs = Ok resume ∧
                       cleanup_outcome root goal cp (Ok tt) evs2).
Proof.
  destruct 1 as [e|run e Hl Ht|run samp e Hl Ht Ha
                 |run samp info e evs1 Hl Ht Ha Hs
                 |run samp info resume evs1 r2 evs2 Hl Ht Ha Hs Hc].
  - left. eauto.
  - left. eauto.
  - left. eauto.
  - right. exists run, samp, info, (Raise e), evs1, [].
    split_and!; try done; try (by rewrite app_nil_r); try constructor.
  - right. exists run, samp, info, (Ok resume), evs1, evs2.
    split_and!; try done; try (by eapply cleanup_outcome_closing).
    intros x Hx. destruct r2 as [[]|e|]; cbn [after_cleanup] in Hx; simplify_eq.
    eauto.
Qed.


Lemma staging_outcome_ok root cp info resume evs :
  staging_outcome root cp info (Ok resume) evs →
  (peak_start_ind info = 0 ∧ evs = [] ∧ resume = None) ∨
  (peak_start_ind info ≠ 0 ∧ ∃ cp' snd,
     cp = Some cp' ∧
     select_resume (step_ndead cp') (peak_start_ind info) = inr snd ∧
     resume = Some snd ∧
     evs = [EvCopy (step_file root snd) (root +:+ "_dyn.resume")]).
Proof.
  inversion 1 as [Hp| | |cp' snd r Hp Hcp Hsel Hr]; subst.
  - by left.
  - right. split; [done|]. destruct Hr as [Hr|[? Hr]]; simplify_eq. eauto 10.
Qed.

Lemma staging_outcome_events root cp info r evs :
  staging_outcome root cp info r evs →
  runs evs = [] ∧ allocations evs = [] ∧
  (evs = [] ∨ ∃ snd, evs = [EvCopy (step_file root snd) (root +:+ "_dyn.resume")]).
Proof. destruct 1; split_and!; eauto. Qed.

Lemma initial_outcome_single sd d goal ninit init_step inc root fuel r evs cfg' :
  initial_outcome sd d goal ninit init_step inc root fuel r evs cfg' →
  Qeq_bool goal 0 = true →
  evs = [] ∧ (∃ e, r = Raise e) ∨
  ∃ cfg0, init_config d ninit cfg0 ∧ evs = [EvRun sd cfg0] ∧ cfg' = cfg0.
Proof. destruct 1; intros Hg; [left; eauto|right; eauto|congruence]. Qed.

Lemma initial_outcome_chain sd d goal ninit init_step inc root fuel r evs cfg' :
  initial_outcome sd d goal ninit init_step inc root fuel r evs cfg' →
  Qeq_bool goal 0 = false →
  evs = [] ∧ (∃ e, r = Raise e) ∨
  ∃ cfg0 cs,
    init_config d ninit cfg0 ∧ runs evs = (λ c, (sd, c)) <$> cs ∧
    config_chain init_step inc 0 (loop_config cfg0) cs ∧
    (∀ x, r = Ok x → last cs = Some cfg').
Proof.
  destruct 1 as [e cfg1|cfg0 r Hg|cfg0 rL evs cfg1 Hg Hc0 Htr]; intros Hgoal.
  - left. eauto.
  - congruence.
  - right. destruct (loop_trace_chain _ _ _ _ _ _ _ _ _ _ Htr) as (cs & Hr & Hch & Hl).
    exists cfg0, cs. split_and!; try done.
    intros x Hx. destruct rL; cbn [after_loop] in Hx; simplify_eq. by eapply Hl.
Qed.

Lemma before_load_sampling a : Forall sampling_event a → before_load a = a.
Proof.
  intros H. rewrite <- (app_nil_r a) at 1. rewrite before_load_app by done.
  apply app_nil_r.
Qed.

Lemma after_allocate_sampling a : Forall sampling_event a → after_allocate a = [].
Proof.
  intros H. rewrite <- (app_nil_r a). by rewrite after_allocate_app.
Qed.

(** Every call logs the events of step 1, then those of step 2, then those
    of step 3; the sampler is invoked in steps 1 and 3 only, and once in
    step 3, on object 2. *)
Lemma run_outcome_structure C d kwargs goal fuel r evs h :
  run_outcome C d kwargs goal fuel r evs h →
  ∃ root rA cfgA,
    initial_outcome 1 (fill_defaults d) goal (opt_ninit kwargs)
      (opt_init_step kwargs) (opt_seed_increment kwargs) root fuel rA
      (before_load evs) cfgA ∧
    runs evs = runs (before_load evs) ++ runs (after_allocate evs) ∧
    (runs (after_allocate evs) = [] ∨
     ∃ cp samp info final_seed c,
       rA = Ok (1%nat, cp) ∧ allocations evs = [(samp, info)] ∧
       cfgA !! "seed" = Some final_seed ∧
       dynamic_config (fill_defaults d) goal (opt_ninit kwargs)
         (opt_seed_increment kwargs) final_seed info c ∧
       runs (after_allocate evs) = [(2%nat, c)] ∧ h !! 2%nat = Some c ∧
       (peak_start_ind info = 0 ↔ copies (after_allocate evs) = [])).
Proof.
  destruct 1 as [e h
                |bd fr root rA evA cfgA h Hbd Hfr Hroot HA HrA
                |bd fr root cp evA cfgA f1 rB evB h Hbd Hfr Hroot HA HB HrB
                |bd fr root cp evA cfgA f1 info resume evB r evC h Hbd Hfr Hroot
                   HA HB HC Hh].
  - exists "", (Raise e), ∅. split_and!; [constructor|done|by left].
  - pose proof (initial_outcome_sampling _ _ _ _ _ _ _ _ _ _ _ HA) as Hs.
    exists root, rA, cfgA.
    rewrite before_load_sampling, after_allocate_sampling by done.
    split_and!; [done|by rewrite app_nil_r|by left].
  - pose proof (initial_outcome_sampling _ _ _ _ _ _ _ _ _ _ _ HA) as Hs.
    exists root, (Ok (1%nat, cp)), cfgA.
    rewrite before_load_app, after_allocate_app, runs_app by done.
    destruct (allocation_outcome_shape _ _ _ _ _ _ _ _ _ _ _ HB)
      as [[[->|[run ->]] _]
         |(run & samp & info & rs & evs1 & evs2 & -> & _ & _ & _ & Hst & Hcl & _)];
      cbn [before_load after_allocate]; rewrite ?app_nil_r.
    + split_and!; try done; try (by left); by rewrite ?app_nil_r.
    + split_and!; try done; try (by left); by rewrite ?app_nil_r.
    + destruct (staging_outcome_events _ _ _ _ _ Hst) as (Hr1 & _ & _).
      assert (runs (evs1 ++ evs2) = []) as Hr12.
      { by rewrite runs_app, Hr1, (closing_runs _ Hcl). }
      split_and!; try done; try (by left); cbn; by rewrite ?Hr12, ?app_nil_r.
  - pose proof (initial_outcome_sampling _ _ _ _ _ _ _ _ _ _ _ HA) as Hs.
    exists root, (Ok (1%nat, cp)), cfgA.
    rewrite before_load_app, after_allocate_app, runs_app by done.
    destruct (allocation_outcome_shape _ _ _ _ _ _ _ _ _ _ _ HB)
      as [[_ [? [=]]]
         |(run & samp & info' & rs & evs1 & evs2 & -> & _ & _ & _ & Hst & Hcl & Hok)].
    destruct (Hok _ eq_refl) as (resume' & [= <- <-] & -> & _).
    destruct (staging_outcome_events _ _ _ _ _ Hst) as (Hr1 & Ha1 & _).
    cbn [before_load after_allocate app]. rewrite app_nil_r.
    assert (runs (evs1 ++ evs2) = []) as Hr12.
    { by rewrite runs_app, Hr1, (closing_runs _ Hcl). }
    split_and!; [done| |].
    { cbn. by rewrite !runs_app, Hr1, (closing_runs _ Hcl). }
    destruct HC as [e|final_seed c r rest Hseed Hcfg Hr Hrest].
    + left. by rewrite app_nil_r.
    + right. exists cp, samp, info, final_seed, c. split_and!; try done.
      * repeat (rewrite allocations_app || rewrite allocations_cons).
        rewrite (sampling_allocations _ Hs), Ha1, (closing_allocations _ Hcl),
          (closing_allocations _ Hrest). done.
      * rewrite runs_app, Hr12, runs_cons, (closing_runs _ Hrest). done.
      * by eapply Hh.
      * repeat (rewrite copies_app || rewrite copies_cons).
        rewrite (closing_copies _ Hcl), (closing_copies _ Hrest).
        cbn [app]. rewrite !app_nil_r.
        destruct (staging_outcome_ok _ _ _ _ _ Hst)
          as [(Hp & -> & _)|(Hp & cp' & snd & _ & _ & _ & ->)]; [done|].
        split; [done|]. by intros [=].
Qed.

Lemma foldl_max_spec n (l : list Z) :
  n ≤ foldl Z.max n l ∧ (∀ x, x ∈ l → x ≤ foldl Z.max n l) ∧
  (foldl Z.max n l = n ∨ foldl Z.max n l ∈ l).
Proof.
  revert n. induction l as [|y l IH]; intros n; cbn [foldl].
  - split_and!; [lia| |by left]. by intros x ?%elem_of_nil.
  - destruct (IH (Z.max n y)) as (H1 & H2 & H3). split_and!.
    + lia.
    + intros x [->|Hx]%elem_of_cons; [lia|by apply H2].
    + destruct H3 as [H3|H3].
      * rewrite H3. destruct (Z.max_spec n y) as [[_ ->]|[_ ->]].
        -- right. by left.
        -- by left.
      * right. by right.
Qed.

(** [max_value] is the largest value of the schedule. *)
Lemma max_value_spec (d : list (Q * Z)) m :
  max_value d = inr m → m ∈ d.*2 ∧ ∀ x, x ∈ d.*2 → x ≤ m.
Proof.
  destruct d as [|[q n] rest]; [done|]. intros [= <-]. cbn [fmap list_fmap snd].
  fold (fmap (M:=list) (@snd Q Z) rest).
  destruct (foldl_max_spec n (rest.*2)) as (H1 & H2 & H3). split.
  - destruct H3 as [->|H3]; [by left|by right].
  - intros x [->|Hx]%elem_of_cons; [done|by apply H2].
Qed.


(** ** Step 2: the checkpoint staged and the files removed *)

Lemma string_length_app (s t : string) :
  String.length (s +:+ t) = (String.length s + String.length t)%nat.
Proof.
  induction s as [|a s IH]; [done|].
  change (String a s +:+ t) with (String a (s +:+ t)).
  cbn [String.length]. by rewrite IH.
Qed.

Lemma string_app_inj_r (s1 s2 t : string) : s1 +:+ t = s2 +:+ t → s1 = s2.
Proof.
  revert s2. induction s1 as [|a s1 IH]; intros [|b s2] H.
  - done.
  - apply (f_equal String.length) in H. rewrite !string_length_app in H.
    cbn [String.length] in H. lia.
  - apply (f_equal String.length) in H. rewrite !string_length_app in H.
    cbn [String.length] in H. lia.
  - change (String a (s1 +:+ t) = String b (s2 +:+ t)) in H.
    injection H as -> H. f_equal. by apply IH.
Qed.

Lemma step_file_inj root : Inj (=) (=) (step_file root).
Proof.
  intros a b H. unfold step_file, str in H.
  apply String.app_inj, String.app_inj, string_app_inj_r in H.
  by apply (inj pretty) in H.
Qed.

Lemma np_where_from_snoc i mask (b : bool) :
  np_where_from i (mask ++ [b])
  = np_where_from i mask ++ (if b then [(i + length mask)%nat] else []).
Proof.
  revert i. induction mask as [|b0 mask IH]; intros i; cbn [np_where_from app length].
  - rewrite Nat.add_0_r. by destruct b.
  - rewrite IH, <- app_assoc.
    by replace (i + S (length mask))%nat with (S i + length mask)%nat by lia.
Qed.

(** [select_resume], entry by entry from the right. *)
Lemma select_resume_snoc steps x peak :
  select_resume (steps ++ [x]) peak
  = if x - 1 <? peak then inr x else select_resume steps peak.
Proof.
  unfold select_resume, np_where. rewrite !map_app. cbn [map].
  rewrite np_where_from_snoc, !length_map. cbn [Nat.add].
  destruct (x - 1 <? peak).
  - rewrite last_snoc, lookup_app_r, Nat.sub_diag by done. done.
  - rewrite app_nil_r.
    destruct (last _) as [i|] eqn:Hlast; [|done].
    destruct (steps !! i) as [snd|] eqn:Hi.
    + by rewrite (lookup_app_l_Some _ _ _ _ Hi).
    + apply lookup_ge_None in Hi.
      destruct ((steps ++ [x]) !! i) as [y|] eqn:Hy; [|done].
      (* the index comes from [np_where] over [steps], so it is in range *)
      exfalso. clear Hy.
      assert (Hin : ∀ j m k, k ∈ np_where_from j m → (k < j + length m)%nat).
      { clear. intros j m. revert j. induction m as [|b m IH]; intros j k Hk.
        - by apply elem_of_nil in Hk.
        - cbn [np_where_from length] in *. apply elem_of_app in Hk as [Hk|Hk].
          + destruct b; [apply list_elem_of_singleton in Hk; lia
                        |by apply elem_of_nil in Hk].
          + apply IH in Hk. lia. }
      apply last_Some_elem_of, Hin in Hlast. rewrite !length_map in Hlast. lia.
Qed.

Lemma select_resume_nil peak : select_resume [] peak = inl IndexError.
Proof. done. Qed.

(** The copy staged is the last entry with [snd - 1 < peak]; without such an
    entry the selection raises [IndexError]. *)
Lemma select_resume_spec steps peak :
  match select_resume steps peak with
  | inr snd => ∃ i, latest_before steps peak i snd
  | inl e => e = IndexError ∧ ∀ snd, snd ∈ steps → ¬ snd - 1 < peak
  end.
Proof.
  induction steps as [|x steps IH] using rev_ind.
  - split; [done|]. by intros ? ?%elem_of_nil.
  - rewrite select_resume_snoc. destruct (x - 1 <? peak) eqn:Hx.
    + apply Z.ltb_lt in Hx. exists (length steps). split_and!; [|done|].
      * by rewrite lookup_app_r, Nat.sub_diag.
      * intros j snd' Hj Hl. apply lookup_lt_Some in Hl.
        rewrite length_app in Hl. cbn in Hl. lia.
    + apply Z.ltb_ge in Hx.
      destruct (select_resume steps peak) as [e|snd].
      * destruct IH as [-> IH]. split; [done|].
        intros snd [Hs|Hs]%elem_of_app; [by apply IH|].
        apply list_elem_of_singleton in Hs as ->. lia.
      * destruct IH as (i & Hi & Hlt & Hlast). exists i. split_and!; [|done|].
        -- by apply lookup_app_l_Some.
        -- intros j snd' Hj Hl.
           destruct (decide (j < length steps)%nat) as [Hjl|Hjl].
           ++ rewrite lookup_app_l in Hl by done. by eapply Hlast.
           ++ rewrite lookup_app_r in Hl by lia.
              destruct (j - length steps)%nat; [|done]. injection Hl as <-. lia.
Qed.

Lemma latest_before_unique steps peak i snd i' snd' :
  latest_before steps peak i snd → latest_before steps peak i' snd' →
  i = i' ∧ snd = snd'.
Proof.
  intros (Hi & Hlt & Hlast) (Hi' & Hlt' & Hlast').
  destruct (lt_eq_lt_dec i i') as [[H|H]|H].
  - by destruct (Hlast _ _ H Hi').
  - subst. split; [done|]. congruence.
  - by destruct (Hlast' _ _ H Hi).
Qed.

Lemma select_resume_latest steps peak i snd :
  latest_before steps peak i snd → select_resume steps peak = inr snd.
Proof.
  intros H. pose proof (select_resume_spec steps peak) as Hs.
  destruct (select_resume steps peak) as [e|snd'].
  - destruct Hs as [_ Hs]. destruct H as (Hi & Hlt & _).
    destruct (Hs snd); [by eapply list_elem_of_lookup_2|done].
  - destruct Hs as [i' Hs]. by destruct (latest_before_unique _ _ _ _ _ _ H Hs) as [_ ->].
Qed.

Lemma step_files_NoDup root steps : NoDup (step_files root steps).
Proof.
  unfold step_files.
  eapply @NoDup_fmap_2; [apply step_file_inj | apply NoDup_elements].
Qed.

Lemma step_files_elem root steps p :
  p ∈ step_files root steps ↔ ∃ snd, snd ∈ steps ∧ p = step_file root snd.
Proof.
  unfold step_files. rewrite list_elem_of_fmap. split.
  - intros (snd & -> & Hs). exists snd. split; [|done].
    by apply elem_of_elements, elem_of_list_to_set in Hs.
  - intros (snd & Hs & ->). exists snd. split; [done|].
    by apply elem_of_elements, elem_of_list_to_set.
Qed.

Lemma cleanup_outcome_removals root goal cp r evs :
  cleanup_outcome root goal cp r evs →
  NoDup (removals evs) ∧
  (∀ p, p ∈ removals evs →
     ∃ cp' snd, cp = Some cp' ∧ snd ∈ step_ndead cp' ∧ p = step_file root snd) ∧
  (Qeq_bool goal 0 = true → removals evs = []) ∧
  (∀ cp', r = Ok tt → Qeq_bool goal 0 = false → cp = Some cp' →
     ∀ snd, snd ∈ step_ndead cp' → step_file root snd ∈ removals evs).
Proof.
  destruct 1 as [Hg|Hg Hcp|cp' Hg Hcp|cp' e tried rest Hg Hcp Hsplit Hne].
  - split_and!; try done; try apply NoDup_nil_2; try (by intros ? ?%elem_of_nil);
      congruence.
  - split_and!; try done; try apply NoDup_nil_2; try (by intros ? ?%elem_of_nil);
      congruence.
  - rewrite removes_removals. split_and!.
    + apply step_files_NoDup.
    + intros p (snd & Hs & ->)%step_files_elem. eauto.
    + congruence.
    + intros cp'' _ _ Hcp' snd Hs. simplify_eq. apply step_files_elem. eauto.
  - rewrite removes_removals.
    pose proof (step_files_NoDup root (step_ndead cp')) as Hnd.
    rewrite Hsplit in Hnd. apply NoDup_app in Hnd as (Hnd & _ & _).
    split_and!; try done; [|congruence].
    intros p Hp.
    assert (p ∈ step_files root (step_ndead cp')) as (snd & Hs & ->)%step_files_elem
      by (rewrite Hsplit; apply elem_of_app; by left).
    eauto.
Qed.


(** What step 2 logs around an allocation it obtained. *)
Lemma allocation_allocations C d f goal ninit nlive_const sf root cp r evs samp info :
  allocation_outcome C d f goal ninit nlive_const sf root cp r evs →
  (samp, info) ∈ allocations evs →
  ∃ run rs evs1 evs2,
    evs = EvLoadRun run :: EvAllocate samp info :: evs1 ++ evs2 ∧
    staging_outcome root cp info rs evs1 ∧ Forall closing_event evs2 ∧
    (∀ x, r = Ok x → ∃ resume, x = (info, resume) ∧ rs = Ok resume).
Proof.
  intros Hout Hin.
  destruct (allocation_outcome_shape _ _ _ _ _ _ _ _ _ _ _ Hout)
    as [[[->|[run ->]] _]
       |(run & samp' & info' & rs & evs1 & evs2 & -> & _ & _ & _ & Hst & Hcl & Hok)].
  - by apply elem_of_nil in Hin.
  - by apply elem_of_nil in Hin.
  - destruct (staging_outcome_events _ _ _ _ _ Hst) as (_ & Ha1 & _).
    repeat (rewrite allocations_app in Hin || rewrite allocations_cons in Hin).
    rewrite Ha1, (closing_allocations _ Hcl) in Hin. cbn [app] in Hin.
    apply list_elem_of_singleton in Hin as [= -> ->].
    exists run, rs, evs1, evs2. split_and!; try done.
    intros x Hx. destruct (Hok x Hx) as (resume & ? & ? & _). eauto.
Qed.

(** C1, as the code has it: in step 2 of a goal-driven call, when the
    allocation puts the importance peak at an index other than 0, the
    checkpoint copied to [<root>_dyn.resume] is the one of the latest entry
    [nd] of [step_ndead] with [nd - 1 < peak_start_ind] -- that is, with
    [nd <= peak_start_ind], not [nd < peak_start_ind] -- provided there is
    such an entry; and that entry is the [resume_ndead] step 2 returns.
    When the peak is at index 0, step 2 copies nothing. *)
Theorem staged_checkpoint C l_in goal ninit nlive_const sf root cp s (d : dict) r s' :
  heap s !! l_in = Some d →
  allocation C l_in goal ninit nlive_const sf root (Some cp) s = (r, s') →
  ∃ evs, log s' = log s ++ evs ∧
    ∀ samp info, (samp, info) ∈ allocations evs →
      (peak_start_ind info = 0 → copies evs = []) ∧
      (∀ i nd, peak_start_ind info ≠ 0 →
         latest_before (step_ndead cp) (peak_start_ind info) i nd →
         copies evs = [(step_file root nd, root +:+ "_dyn.resume")] ∧
         ∀ x, r = Ok x → x.2 = Some nd).
Proof.
  intros Hin E.
  destruct (allocation_spec C l_in goal ninit nlive_const sf root (Some cp) s d
              Hin r s' E) as (evs & Hout & _ & _ & Hl).
  exists evs. split; [done|]. intros samp info Ha.
  destruct (allocation_allocations _ _ _ _ _ _ _ _ _ _ _ _ _ Hout Ha)
    as (run & rs & evs1 & evs2 & -> & Hst & Hcl & Hok).
  repeat (rewrite copies_app || rewrite copies_cons).
  rewrite (closing_copies _ Hcl). cbn [app]. rewrite app_nil_r.
  inversion Hst as [Hp|Hp [=]|cp' e Hp [= <-] Hsel|cp' nd0 r0 Hp [= <-] Hsel Hr]; subst.
  - split; [done|]. intros i nd Hne. done.
  - split; [done|]. intros i nd _ Hlatest.
    rewrite (select_resume_latest _ _ _ _ Hlatest) in Hsel. done.
  - split; [done|]. intros i nd _ Hlatest.
    rewrite (select_resume_latest _ _ _ _ Hlatest) in Hsel. injection Hsel as <-.
    split; [done|]. intros x Hx.
    destruct (Hok _ Hx) as (resume & -> & ->).
    destruct Hr as [[= <-]|[? [=]]]. done.
Qed.

Lemma staged_checkpoint_witness :
  (heap demo_initial_run.2 !! caller = Some (fill_defaults (demo_settings 1)) ∧
   allocation (demo_world 5 demo_schedule) caller 1 (VInt 5) (VInt 10)
     (DefaultSavgol (VInt 5)) "chains_test/test" (Some demo_checkpoints)
     demo_initial_run.2 = (demo_allocation.1, demo_allocation.2)) ∧
  ∃ evs, log demo_allocation.2 = log demo_initial_run.2 ++ evs ∧
    ∀ samp info, (samp, info) ∈ allocations evs →
      (peak_start_ind info = 0 → copies evs = []) ∧
      (∀ i nd, peak_start_ind info ≠ 0 →
         latest_before (step_ndead demo_checkpoints) (peak_start_ind info) i nd →
         copies evs = [(step_file "chains_test/test" nd,
                        "chains_test/test" +:+ "_dyn.resume")] ∧
         ∀ x, demo_allocation.1 = Ok x → x.2 = Some nd).
Proof.
  assert (H : heap demo_initial_run.2 !! caller
              = Some (fill_defaults (demo_settings 1)))
    by (vm_compute; reflexivity).
  assert (H2 : allocation (demo_world 5 demo_schedule) caller 1 (VInt 5) (VInt 10)
                 (DefaultSavgol (VInt 5)) "chains_test/test" (Some demo_checkpoints)
                 demo_initial_run.2 = (demo_allocation.1, demo_allocation.2))
    by (unfold demo_allocation; apply surjective_pairing).
  split; [exact (conj H H2)|].
  exact (staged_checkpoint (demo_world 5 demo_schedule) caller 1 (VInt 5) (VInt 10)
           (DefaultSavgol (VInt 5)) "chains_test/test" demo_checkpoints
           demo_initial_run.2 (fill_defaults (demo_settings 1))
           demo_allocation.1 demo_allocation.2 H H2).
Defined.

(** C1 as worded fails: with checkpoints after 0, 5 and 7 dead points and
    the importance peak at index 5, the latest checkpoint with a count
    strictly less than 5 is the one taken at 0, yet the call stages the one
    taken at 5. *)
Lemma staged_checkpoint_counterexample :
  (λ x, x - 5) <$> readings (log demo_run.2) = [0; 5; 7; 7] ∧
  (λ ti, peak_start_ind ti.2) <$> allocations (log demo_run.2) = [5] ∧
  spec_select_resume [0; 5; 7; 7] 5 = Some 0 ∧
  select_resume [0; 5; 7; 7] 5 = inr 5 ∧
  copies (after_allocate (log demo_run.2))
    = [("chains_test/test_init_5.resume", "chains_test/test_dyn.resume")] ∧
  step_file "chains_test/test" 5 = "chains_test/test_init_5.resume" ∧
  ¬ 5 < 5.
Proof. split_and!; [vm_compute; reflexivity..|lia]. Qed.

(** ** Whole calls, step by step *)

Lemma call_outcome fuel C run_func goal kwargs (d : dict) f :
  run_outcome C d kwargs goal fuel
    (run_dypolychord fuel C run_func caller goal kwargs (initial_state d f)).1
    (call_log fuel C run_func goal kwargs d f)
    (call_heap fuel C run_func goal kwargs d f).
Proof.
  unfold call_log, call_heap.
  destruct (run_dypolychord _ _ _ _ _ _ _) as [r s'] eqn:E.
  by destruct (run_dypolychord_spec fuel C run_func goal kwargs d f r s' E).
Qed.

(** The dictionaries step 1 hands to the sampler: one when
    [dynamic_goal == 0], a chain otherwise. *)
Lemma initial_outcome_runs sd d goal ninit init_step inc root fuel r evs cfg' :
  initial_outcome sd d goal ninit init_step inc root fuel r evs cfg' →
  ∃ cfg0 cs, runs evs = (λ c, (sd, c)) <$> cs ∧
    (cs ≠ [] → init_config d ninit cfg0) ∧
    (if Qeq_bool goal 0 then cs = [] ∨ cs = [cfg0]
     else config_chain init_step inc 0 (loop_config cfg0) cs) ∧
    (∀ x, r = Ok x → last cs = Some cfg').
Proof.
  destruct 1 as [e cfg1|cfg0 r Hg Hc Hr|cfg0 rL evs cfg1 Hg Hc0 Htr].
  - exists ∅, []. split_and!; [done|done| |done].
    destruct (Qeq_bool goal 0); [by left|exact I].
  - exists cfg0, [cfg0]. rewrite Hg. split_and!; [done|done|by right|done].
  - destruct (loop_trace_chain _ _ _ _ _ _ _ _ _ _ Htr) as (cs & Hr & Hch & Hl).
    exists cfg0, cs. rewrite Hg. split_and!; [done|done|exact Hch|].
    intros x Hx. destruct rL; cbn [after_loop] in Hx; simplify_eq. by eapply Hl.
Qed.

Lemma call_initial fuel C run_func goal kwargs (d : dict) f :
  ∃ (rA : outcome (nat * option checkpoints)) cfgA cfg0 cs,
    runs (before_load (call_log fuel C run_func goal kwargs d f))
      = (λ c, (1%nat, c)) <$> cs ∧
    (cs ≠ [] → init_config (fill_defaults d) (opt_ninit kwargs) cfg0) ∧
    (if Qeq_bool goal 0 then cs = [] ∨ cs = [cfg0]
     else config_chain (opt_init_step kwargs) (opt_seed_increment kwargs) 0
            (loop_config cfg0) cs) ∧
    (∀ x, rA = Ok x → last cs = Some cfgA) ∧
    runs (call_log fuel C run_func goal kwargs d f)
      = runs (before_load (call_log fuel C run_func goal kwargs d f))
        ++ runs (after_allocate (call_log fuel C run_func goal kwargs d f)) ∧
    (runs (after_allocate (call_log fuel C run_func goal kwargs d f)) = [] ∨
     ∃ cp samp info final_seed c,
       rA = Ok (1%nat, cp) ∧
       allocations (call_log fuel C run_func goal kwargs d f) = [(samp, info)] ∧
       cfgA !! "seed" = Some final_seed ∧
       dynamic_config (fill_defaults d) goal (opt_ninit kwargs)
         (opt_seed_increment kwargs) final_seed info c ∧
       runs (after_allocate (call_log fuel C run_func goal kwargs d f))
         = [(2%nat, c)] ∧
       call_heap fuel C run_func goal kwargs d f !! 2%nat = Some c ∧
       (peak_start_ind info = 0
        ↔ copies (after_allocate (call_log fuel C run_func goal kwargs d f)) = [])).
Proof.
  destruct (run_outcome_structure _ _ _ _ _ _ _ _
              (call_outcome fuel C run_func goal kwargs d f))
    as (root & rA & cfgA & HA & Hruns & HC).
  destruct (initial_outcome_runs _ _ _ _ _ _ _ _ _ _ _ HA)
    as (cfg0 & cs & Hr & Hinit & Hshape & Hlast).
  exists rA, cfgA, cfg0, cs. split_and!; assumption.
Qed.

(** C3: in the goal-driven case every sampler invocation of step 1 -- the
    one at position [k] of the log, counting from 0, being invocation number
    [k + 1] -- gets a dictionary with [write_resume] set to [True] and
    [max_ndead] set to [(k + 1) * init_step], [k] being the number of steps
    completed before it. *)
Theorem checkpointed_invocations fuel C run_func goal kwargs (d : dict) f
    step k l c :
  Qeq_bool goal 0 = false →
  as_int (opt_init_step kwargs) = inr step →
  runs (before_load (call_log fuel C run_func goal kwargs d f)) !! k
    = Some (l, c) →
  c !! "write_resume" = Some (VBool true) ∧
  c !! "max_ndead" = Some (VInt ((Z.of_nat k + 1) * step)).
Proof.
  intros Hg Hstep Hk.
  destruct (call_initial fuel C run_func goal kwargs d f)
    as (rA & cfgA & cfg0 & cs & Hr & _ & Hch & _).
  rewrite Hg in Hch. rewrite Hr, list_lookup_fmap in Hk.
  destruct (cs !! k) as [c'|] eqn:Hc; [|discriminate Hk].
  injection Hk as <- <-. split.
  - rewrite (config_chain_other _ _ _ _ _ _ _ "write_resume" Hch Hc) by done.
    apply loop_config_write_resume.
  - exact (config_chain_max_ndead _ _ _ _ _ _ _ _ Hch Hc Hstep).
Qed.

Lemma checkpointed_invocations_witness :
  (Qeq_bool 1 0 = false ∧
   as_int (opt_init_step (demo_kwargs 5)) = inr 5 ∧
   runs (before_load (call_log 10 (demo_world 5 demo_schedule) (demo_sampler 12)
                        1 (demo_kwargs 5) (demo_settings 1) ∅)) !! 2%nat
     = Some (1%nat, demo_third_config)) ∧
  demo_third_config !! "write_resume" = Some (VBool true) ∧
  demo_third_config !! "max_ndead" = Some (VInt ((Z.of_nat 2 + 1) * 5)).
Proof.
  assert (H1 : Qeq_bool 1 0 = false) by reflexivity.
  assert (H2 : as_int (opt_init_step (demo_kwargs 5)) = inr 5)
    by (vm_compute; reflexivity).
  assert (H3 : runs (before_load (call_log 10 (demo_world 5 demo_schedule)
                                    (demo_sampler 12) 1 (demo_kwargs 5)
                                    (demo_settings 1) ∅)) !! 2%nat
               = Some (1%nat, demo_third_config))
    by (vm_compute; reflexivity).
  split; [exact (conj H1 (conj H2 H3))|].
  exact (checkpointed_invocations 10 (demo_world 5 demo_schedule) (demo_sampler 12)
           1 (demo_kwargs 5) (demo_settings 1) ∅ 5 2 1%nat demo_third_config
           H1 H2 H3).
Defined.

(** ** What the sampler is handed *)

Lemma dynamic_config_fields d goal ninit inc final_seed info c :
  dynamic_config d goal ninit inc final_seed info c →
  (if Qeq_bool goal 0
   then ∃ m, max_value (nlives_dict info) = inr m ∧ c !! "nlive" = Some (VInt m)
   else c !! "nlive" = Some ninit) ∧
  c !! "nlives" = Some (VNlives (nlives_dict info)) ∧
  c !! "read_resume" = Some (VBool (negb (peak_start_ind info =? 0))) ∧
  c !! "max_ndead" = d !! "max_ndead".
Proof.
  intros (final_n & base & nl & fr & fr_dyn & _ & Hbase & Hnl & _ & _ & ->).
  split_and!.
  - destruct (Qeq_bool goal 0).
    + destruct Hnl as (m & Hm & ->). exists m. split; [done|].
      rewrite !lookup_insert_ne by done. apply lookup_insert_eq.
    + subst nl. rewrite !lookup_insert_ne by done. apply lookup_insert_eq.
  - rewrite !lookup_insert_ne by done. apply lookup_insert_eq.
  - rewrite lookup_insert_ne by done. apply lookup_insert_eq.
  - rewrite !lookup_insert_ne by done.
    destruct (0 <=? final_n).
    + destruct Hbase as (seed_in & n & seed' & _ & _ & _ & _ & ->).
      by rewrite lookup_insert_ne.
    + by subst base.
Qed.

(** C9, as the code has it: the sampler is never handed the caller's own
    dictionary.  Every invocation of step 1 is handed the deep copy made at
    line 66 -- object 1, one and the same object each time, which the loop
    edits between invocations; the invocation of step 3 is handed the deep
    copy made at line 129 -- object 2, handed over once, and still holding at
    the end of the call what it held when it was handed over.  Neither
    object existed before the call. *)
Theorem sampler_gets_copies fuel C run_func goal kwargs (d : dict) f :
  heap (initial_state d f) !! 1%nat = None ∧
  heap (initial_state d f) !! 2%nat = None ∧
  runs (call_log fuel C run_func goal kwargs d f)
    = runs (before_load (call_log fuel C run_func goal kwargs d f))
      ++ runs (after_allocate (call_log fuel C run_func goal kwargs d f)) ∧
  (∀ l c, (l, c) ∈ runs (before_load (call_log fuel C run_func goal kwargs d f)) →
     l = 1%nat) ∧
  (∀ l c, (l, c) ∈ runs (after_allocate (call_log fuel C run_func goal kwargs d f)) →
     l = 2%nat ∧
     runs (after_allocate (call_log fuel C run_func goal kwargs d f)) = [(l, c)] ∧
     call_heap fuel C run_func goal kwargs d f !! l = Some c) ∧
  (∀ l c, (l, c) ∈ runs (call_log fuel C run_func goal kwargs d f) → l ≠ caller).
Proof.
  destruct (call_initial fuel C run_func goal kwargs d f)
    as (rA & cfgA & cfg0 & cs & Hr & _ & _ & _ & Hruns & HC).
  assert (HA : ∀ l c,
            (l, c) ∈ runs (before_load (call_log fuel C run_func goal kwargs d f)) →
            l = 1%nat).
  { intros l c Hin. rewrite Hr in Hin.
    apply list_elem_of_fmap in Hin as (c' & [= -> _] & _). done. }
  assert (HB : ∀ l c,
            (l, c) ∈ runs (after_allocate (call_log fuel C run_func goal kwargs d f)) →
            l = 2%nat ∧
            runs (after_allocate (call_log fuel C run_func goal kwargs d f)) = [(l, c)] ∧
            call_heap fuel C run_func goal kwargs d f !! l = Some c).
  { intros l c Hin.
    destruct HC as [HC|(cp & samp & info & fs' & c' & _ & _ & _ & _ & HC & Hh & _)];
      rewrite HC in Hin.
    - by apply elem_of_nil in Hin.
    - apply list_elem_of_singleton in Hin as [= -> ->]. by rewrite HC. }
  split_and!; [done|done|exact Hruns|exact HA|exact HB|].
  intros l c Hin. rewrite Hruns in Hin. apply elem_of_app in Hin as [Hin|Hin].
  - by rewrite (HA _ _ Hin).
  - destruct (HB _ _ Hin) as (-> & _). done.
Qed.

(** C9 as worded fails: in a goal-driven call with four invocations in
    step 1, these four are handed the same object, which by the end of the
    call no longer holds what the first three were handed. *)
Lemma sampler_gets_copies_counterexample :
  (runs (log demo_run.2)).*1 = [1; 1; 1; 1; 2]%nat ∧
  (λ lc, lc.2 !! "max_ndead") <$> runs (log demo_run.2)
    = [Some (VInt 5); Some (VInt 10); Some (VInt 15); Some (VInt 20);
       Some (VInt (-1))] ∧
  heap demo_run.2 !! 1%nat ≫= (λ c : dict, c !! "max_ndead") = Some (VInt 20) ∧
  ¬ configs_fresh_and_frozen demo_run.2.
Proof.
  assert (H : (runs (log demo_run.2)).*1 = [1; 1; 1; 1; 2]%nat)
    by (vm_compute; reflexivity).
  split_and!; [exact H|vm_compute; reflexivity..|].
  intros [Hnd _]. rewrite H in Hnd.
  apply NoDup_cons in Hnd as [Hnotin _]. apply Hnotin. by left.
Qed.

(** C4, as the code has it: the dictionary of the one sampler invocation of
    step 3 has [nlive] equal to the largest value of the allocation's
    schedule when [dynamic_goal == 0] and to [ninit] otherwise, the schedule
    itself under [nlives], and [read_resume] true exactly when the peak is
    not at index 0, which is exactly when step 2 staged a resume file.  Its
    [max_ndead] is not made unbounded: it is the caller's own [max_ndead],
    which is [-1] (no bound) only when the caller gave none. *)
Theorem dynamic_run_settings fuel C run_func goal kwargs (d : dict) f l c :
  (l, c) ∈ runs (after_allocate (call_log fuel C run_func goal kwargs d f)) →
  ∃ samp info,
    allocations (call_log fuel C run_func goal kwargs d f) = [(samp, info)] ∧
    runs (after_allocate (call_log fuel C run_func goal kwargs d f)) = [(l, c)] ∧
    (if Qeq_bool goal 0
     then ∃ m, c !! "nlive" = Some (VInt m) ∧ m ∈ (nlives_dict info).*2 ∧
               ∀ x, x ∈ (nlives_dict info).*2 → x ≤ m
     else c !! "nlive" = Some (opt_ninit kwargs)) ∧
    c !! "nlives" = Some (VNlives (nlives_dict info)) ∧
    c !! "read_resume" = Some (VBool (negb (peak_start_ind info =? 0))) ∧
    (peak_start_ind info ≠ 0
     ↔ copies (after_allocate (call_log fuel C run_func goal kwargs d f)) ≠ []) ∧
    c !! "max_ndead" = fill_defaults d !! "max_ndead" ∧
    (∀ v, d !! "max_ndead" = Some v → c !! "max_ndead" = Some v) ∧
    (d !! "max_ndead" = None → c !! "max_ndead" = Some (VInt (-1))).
Proof.
  intros Hin.
  destruct (call_initial fuel C run_func goal kwargs d f)
    as (rA & cfgA & cfg0 & cs & _ & _ & _ & _ & _ & HC).
  destruct HC as [HC|(cp & samp & info & fs' & c' & _ & Hal & _ & Hcfg & HC & _ & Hp)].
  { rewrite HC in Hin. by apply elem_of_nil in Hin. }
  rewrite HC in Hin. apply list_elem_of_singleton in Hin as [= -> ->].
  destruct (dynamic_config_fields _ _ _ _ _ _ _ Hcfg) as (Hnl & Hnls & Hrr & Hmax).
  exists samp, info. split_and!; try assumption.
  - destruct (Qeq_bool goal 0); [|exact Hnl].
    destruct Hnl as (m & Hm & Hc). exists m. split; [exact Hc|].
    by apply max_value_spec.
  - rewrite Hp. tauto.
  - intros v Hv. rewrite Hmax. by apply fill_defaults_present.
  - intros Hnone. rewrite Hmax, (fill_defaults_missing _ _ Hnone). reflexivity.
Qed.

Lemma dynamic_run_settings_witness :
  (2%nat, demo_dynamic_config)
    ∈ runs (after_allocate (call_log 10 (demo_world 5 demo_schedule)
                              (demo_sampler 12) 1 (demo_kwargs 5)
                              (demo_settings 1) ∅)) ∧
  ∃ samp info,
    allocations (call_log 10 (demo_world 5 demo_schedule) (demo_sampler 12) 1
                   (demo_kwargs 5) (demo_settings 1) ∅) = [(samp, info)] ∧
    runs (after_allocate (call_log 10 (demo_world 5 demo_schedule)
                            (demo_sampler 12) 1 (demo_kwargs 5)
                            (demo_settings 1) ∅))
      = [(2%nat, demo_dynamic_config)] ∧
    (if Qeq_bool 1 0
     then ∃ m, demo_dynamic_config !! "nlive" = Some (VInt m) ∧
               m ∈ (nlives_dict info).*2 ∧
               ∀ x, x ∈ (nlives_dict info).*2 → x ≤ m
     else demo_dynamic_config !! "nlive" = Some (opt_ninit (demo_kwargs 5))) ∧
    demo_dynamic_config !! "nlives" = Some (VNlives (nlives_dict info)) ∧
    demo_dynamic_config !! "read_resume"
      = Some (VBool (negb (peak_start_ind info =? 0))) ∧
    (peak_start_ind info ≠ 0
     ↔ copies (after_allocate (call_log 10 (demo_world 5 demo_schedule)
                                 (demo_sampler 12) 1 (demo_kwargs 5)
                                 (demo_settings 1) ∅)) ≠ []) ∧
    demo_dynamic_config !! "max_ndead"
      = fill_defaults (demo_settings 1) !! "max_ndead" ∧
    (∀ v, demo_settings 1 !! "max_ndead" = Some v →
       demo_dynamic_config !! "max_ndead" = Some v) ∧
    (demo_settings 1 !! "max_ndead" = None →
       demo_dynamic_config !! "max_ndead" = Some (VInt (-1))).
Proof.
  assert (E : runs (after_allocate (call_log 10 (demo_world 5 demo_schedule)
                                      (demo_sampler 12) 1 (demo_kwargs 5)
                                      (demo_settings 1) ∅))
              = [(2%nat, demo_dynamic_config)])
    by (vm_compute; reflexivity).
  assert (H : (2%nat, demo_dynamic_config)
                ∈ runs (after_allocate (call_log 10 (demo_world 5 demo_schedule)
                                          (demo_sampler 12) 1 (demo_kwargs 5)
                                          (demo_settings 1) ∅))).
  { rewrite E. apply list_elem_of_singleton. reflexivity. }
  split; [exact H|].
  exact (dynamic_run_settings 10 (demo_world 5 demo_schedule) (demo_sampler 12) 1
           (demo_kwargs 5) (demo_settings 1) ∅ 2%nat demo_dynamic_config H).
Defined.

(** C4 as worded fails: called with [max_ndead = 50] in the caller's
    dictionary, the dynamic run is handed [max_ndead = 50], not an unbounded
    count. *)
Lemma dynamic_run_settings_counterexample :
  demo_capped_settings !! "max_ndead" = Some (VInt 50) ∧
  demo_capped_run.1 = Ok tt ∧
  (λ lc, (lc.1, lc.2 !! "max_ndead"))
    <$> runs (after_allocate (log demo_capped_run.2))
    = [(2%nat, Some (VInt 50))] ∧
  ¬ 50 ≤ 0.
Proof. split_and!; [vm_compute; reflexivity..|lia]. Qed.

(** ** Seeds *)

Lemma next_seed_iter_negative z s k : s < 0 → Nat.iter k (next_seed z) s = s.
Proof.
  intros Hs. induction k as [|k IH]; [done|].
  change (Nat.iter (S k) (next_seed z) s)
    with (next_seed z (Nat.iter k (next_seed z) s)).
  rewrite IH. unfold next_seed.
  destruct (0 <=? s) eqn:E; [|done]. apply Z.leb_le in E. lia.
Qed.

Lemma next_seed_iter_nonneg z s k :
  0 ≤ s → 0 ≤ z → Nat.iter k (next_seed z) s = s + Z.of_nat k * z.
Proof.
  intros Hs Hz. induction k as [|k IH]; [cbn; lia|].
  change (Nat.iter (S k) (next_seed z) s)
    with (next_seed z (Nat.iter k (next_seed z) s)).
  rewrite IH. unfold next_seed.
  destruct (0 <=? s + Z.of_nat k * z) eqn:E; [lia|].
  apply Z.leb_gt in E. nia.
Qed.

Lemma dynamic_config_seed (d : dict) goal ninit z sl info c :
  dynamic_config d goal ninit (VInt z) (VInt sl) info c →
  c !! "seed" = if 0 <=? sl then Some (VInt (sl + z)) else d !! "seed".
Proof.
  intros (final_n & base & nl & fr & fr_dyn & Hfn & Hbase & _ & _ & _ & ->).
  rewrite !lookup_insert_ne by done. injection Hfn as <-.
  destruct (0 <=? sl).
  - destruct Hbase as (seed_in & n & seed' & _ & _ & _ & Hadd & ->).
    injection Hadd as <-. apply lookup_insert_eq.
  - by subst base.
Qed.

(** The seeds of a call: those of step 1, then that of step 3. *)
Lemma call_seeds fuel C run_func goal kwargs (d : dict) f s0 z :
  fill_defaults d !! "seed" = Some (VInt s0) →
  opt_seed_increment kwargs = VInt z →
  ∃ A B,
    runs (before_load (call_log fuel C run_func goal kwargs d f)) = A ∧
    runs (after_allocate (call_log fuel C run_func goal kwargs d f)) = B ∧
    runs (call_log fuel C run_func goal kwargs d f) = A ++ B ∧
    (Qeq_bool goal 0 = true → (length A ≤ 1)%nat) ∧
    (∀ k l c, A !! k = Some (l, c) →
       c !! "seed" = Some (VInt (if Qeq_bool goal 0 then s0
                                 else Nat.iter (S k) (next_seed z) s0))) ∧
    (B = [] ∨
     ∃ c la ca sl,
       B = [(2%nat, c)] ∧ last A = Some (la, ca) ∧
       ca !! "seed" = Some (VInt sl) ∧
       c !! "seed" = Some (VInt (if 0 <=? sl then sl + z else s0))).
Proof.
  intros Hs0 Hz.
  destruct (call_initial fuel C run_func goal kwargs d f)
    as (rA & cfgA & cfg0 & cs & Hr & Hinit & Hshape & Hlast & Hruns & HC).
  rewrite Hz in Hshape, HC.
  assert (Hseeds : ∀ k c, cs !! k = Some c →
            c !! "seed" = Some (VInt (if Qeq_bool goal 0 then s0
                                      else Nat.iter (S k) (next_seed z) s0))).
  { intros k c Hk.
    assert (Hne : cs ≠ []) by (intros ->; by rewrite lookup_nil in Hk).
    assert (H0 : cfg0 !! "seed" = Some (VInt s0)).
    { rewrite (init_config_other _ _ _ "seed" (Hinit Hne)) by done. exact Hs0. }
    destruct (Qeq_bool goal 0).
    - destruct Hshape as [-> | ->]; [done|].
      apply list_lookup_singleton_Some in Hk as [_ <-]. exact H0.
    - eapply config_chain_seed; [exact Hshape|exact Hk|].
      rewrite loop_config_lookup by done. exact H0. }
  eexists _, _. split_and!; [reflexivity|reflexivity|exact Hruns| | |].
  - intros Hg. rewrite Hr, length_fmap. rewrite Hg in Hshape.
    destruct Hshape as [-> | ->]; cbn; lia.
  - intros k l c Hk. rewrite Hr, list_lookup_fmap in Hk.
    destruct (cs !! k) as [c'|] eqn:Hc; [|discriminate Hk].
    injection Hk as <- <-. by apply Hseeds.
  - destruct HC as [HC|(cp & samp & info & final_seed & c & -> & _ & Hfs & Hcfg & HC & _)];
      [by left|right].
    pose proof (Hlast _ eq_refl) as Hl.
    rewrite last_lookup in Hl. pose proof (Hseeds _ _ Hl) as HcA.
    rewrite Hfs in HcA. injection HcA as ->.
    eexists c, 1%nat, cfgA, _. split_and!; [exact HC| |exact Hfs|].
    + rewrite Hr, fmap_last, last_lookup, Hl. reflexivity.
    + rewrite (dynamic_config_seed _ _ _ _ _ _ _ Hcfg).
      destruct (0 <=? _); [reflexivity|exact Hs0].
Qed.

(** C6, as the code has it.  Let [s0] be the configured seed and [z] the
    seed increment.  When [dynamic_goal == 0] the one invocation of step 1
    uses [s0] itself; otherwise invocation [k] of step 1 (counting from 0)
    uses the seed obtained from [s0] by [k + 1] applications of the rule of
    lines 81-82, which adds [z] to the current seed when the current seed --
    not the configured one -- is non-negative.  The dynamic run uses the last
    seed of step 1 plus [z] when that last seed is non-negative, and [s0]
    otherwise.  Hence a negative [s0] is used unchanged throughout, and with
    [s0] and [z] both non-negative each seed of a goal-driven call is the
    one before plus [z], the first being [s0 + z]. *)
Theorem seed_rule fuel C run_func goal kwargs (d : dict) f s0 z :
  fill_defaults d !! "seed" = Some (VInt s0) →
  opt_seed_increment kwargs = VInt z →
  (∀ k l c,
     runs (before_load (call_log fuel C run_func goal kwargs d f)) !! k
       = Some (l, c) →
     c !! "seed" = Some (VInt (if Qeq_bool goal 0 then s0
                               else Nat.iter (S k) (next_seed z) s0))) ∧
  (∀ l c,
     (l, c) ∈ runs (after_allocate (call_log fuel C run_func goal kwargs d f)) →
     ∃ la ca sl,
       last (runs (before_load (call_log fuel C run_func goal kwargs d f)))
         = Some (la, ca) ∧
       ca !! "seed" = Some (VInt sl) ∧
       c !! "seed" = Some (VInt (if 0 <=? sl then sl + z else s0))) ∧
  (s0 < 0 →
     ∀ l c, (l, c) ∈ runs (call_log fuel C run_func goal kwargs d f) →
       c !! "seed" = Some (VInt s0)) ∧
  (0 ≤ s0 → 0 ≤ z →
     ∀ k l c, runs (call_log fuel C run_func goal kwargs d f) !! k = Some (l, c) →
       c !! "seed"
       = Some (VInt (s0 + (if Qeq_bool goal 0 then Z.of_nat k
                           else Z.of_nat k + 1) * z))).
Proof.
  intros Hs0 Hz.
  destruct (call_seeds fuel C run_func goal kwargs d f s0 z Hs0 Hz)
    as (A & B & -> & -> & -> & Hlen & HA & HB).
  split_and!.
  - exact HA.
  - intros l c Hin.
    destruct HB as [HB|(c' & la & ca & sl & HB & Hlast & Hsl & Hc)];
      rewrite HB in Hin.
    + by apply elem_of_nil in Hin.
    + apply list_elem_of_singleton in Hin as [= -> ->].
      exists la, ca, sl. split_and!; assumption.
  - intros Hneg.
    assert (HA' : ∀ k l c, A !! k = Some (l, c) → c !! "seed" = Some (VInt s0)).
    { intros k l c Hk. rewrite (HA _ _ _ Hk).
      destruct (Qeq_bool goal 0); [done|]. by rewrite next_seed_iter_negative. }
    intros l c [Hin|Hin]%elem_of_app.
    + apply list_elem_of_lookup in Hin as [k Hk]. by eapply HA'.
    + destruct HB as [HB|(c' & la & ca & sl & HB & Hlast & Hsl & Hc)];
        rewrite HB in Hin.
      * by apply elem_of_nil in Hin.
      * apply list_elem_of_singleton in Hin as [= -> ->].
        rewrite last_lookup in Hlast. rewrite (HA' _ _ _ Hlast) in Hsl.
        injection Hsl as <-. rewrite Hc.
        destruct (0 <=? s0) eqn:E; [|done]. apply Z.leb_le in E. lia.
  - intros Hpos Hz0 k l c Hk.
    apply lookup_app_Some in Hk as [Hk|[Hge Hk]].
    + rewrite (HA _ _ _ Hk). apply lookup_lt_Some in Hk.
      destruct (Qeq_bool goal 0).
      * specialize (Hlen eq_refl). do 2 f_equal. nia.
      * rewrite next_seed_iter_nonneg by done. do 2 f_equal. lia.
    + destruct HB as [HB|(c' & la & ca & sl & HB & Hlast & Hsl & Hc)];
        rewrite HB in Hk.
      * by rewrite lookup_nil in Hk.
      * apply list_lookup_singleton_Some in Hk as [Hk0 [= <- <-]].
        rewrite last_lookup in Hlast. pose proof (HA _ _ _ Hlast) as Hsl'.
        apply lookup_lt_Some in Hlast.
        assert (sl = if Qeq_bool goal 0 then s0
                     else Nat.iter (S (pred (length A))) (next_seed z) s0) as ->
          by congruence.
        rewrite Hc. clear Hc Hsl Hsl'.
        destruct (Qeq_bool goal 0).
        -- specialize (Hlen eq_refl).
           destruct (0 <=? s0) eqn:E; [|apply Z.leb_gt in E; lia].
           do 2 f_equal. nia.
        -- rewrite next_seed_iter_nonneg by done.
           replace (S (pred (length A))) with k by lia.
           assert (0 ≤ Z.of_nat k * z) by (apply Z.mul_nonneg_nonneg; lia).
           destruct (0 <=? _) eqn:E; [|apply Z.leb_gt in E; lia].
           do 2 f_equal. lia.
Qed.

Lemma seed_rule_witness :
  (fill_defaults (demo_settings 1) !! "seed" = Some (VInt 1) ∧
   opt_seed_increment (demo_kwargs 5) = VInt 100) ∧
  (∀ k l c,
     runs (before_load (call_log 10 (demo_world 5 demo_schedule) (demo_sampler 12)
                          1 (demo_kwargs 5) (demo_settings 1) ∅)) !! k
       = Some (l, c) →
     c !! "seed" = Some (VInt (if Qeq_bool 1 0 then 1
                               else Nat.iter (S k) (next_seed 100) 1))) ∧
  (∀ l c,
     (l, c) ∈ runs (after_allocate (call_log 10 (demo_world 5 demo_schedule)
                                      (demo_sampler 12) 1 (demo_kwargs 5)
                                      (demo_settings 1) ∅)) →
     ∃ la ca sl,
       last (runs (before_load (call_log 10 (demo_world 5 demo_schedule)
                                  (demo_sampler 12) 1 (demo_kwargs 5)
                                  (demo_settings 1) ∅)))
         = Some (la, ca) ∧
       ca !! "seed" = Some (VInt sl) ∧
       c !! "seed" = Some (VInt (if 0 <=? sl then sl + 100 else 1))) ∧
  (1 < 0 →
     ∀ l c, (l, c) ∈ runs (call_log 10 (demo_world 5 demo_schedule)
                             (demo_sampler 12) 1 (demo_kwargs 5)
                             (demo_settings 1) ∅) →
       c !! "seed" = Some (VInt 1)) ∧
  (0 ≤ 1 → 0 ≤ 100 →
     ∀ k l c, runs (call_log 10 (demo_world 5 demo_schedule) (demo_sampler 12) 1
                      (demo_kwargs 5) (demo_settings 1) ∅) !! k = Some (l, c) →
       c !! "seed"
       = Some (VInt (1 + (if Qeq_bool 1 0 then Z.of_nat k
                          else Z.of_nat k + 1) * 100))).
Proof.
  assert (H1 : fill_defaults (demo_settings 1) !! "seed" = Some (VInt 1))
    by (vm_compute; reflexivity).
  assert (H2 : opt_seed_increment (demo_kwargs 5) = VInt 100)
    by (vm_compute; reflexivity).
  split; [exact (conj H1 H2)|].
  exact (seed_rule 10 (demo_world 5 demo_schedule) (demo_sampler 12) 1
           (demo_kwargs 5) (demo_settings 1) ∅ 1 100 H1 H2).
Defined.

(** C6 as worded fails twice over.  With [dynamic_goal == 0], configured
    seed 1 and increment 100, the invocation of step 1 uses seed 1, which is
    not offset from anything.  In a goal-driven call with configured seed 50
    and increment -100, the first invocation uses -50 and so do the three
    that follow, without further offset although the configured seed is
    non-negative; the dynamic run then uses 50, not the last seed of step 1
    plus the increment. *)
Lemma seed_rule_counterexample :
  demo_settings 1 !! "seed" = Some (VInt 1) ∧
  seeds_used (log demo_evidence_run.2) = [Some (VInt 1); Some (VInt 101)] ∧
  (∀ prev, seeds_as_claimed 1 100 prev [1; 101] = true → prev = -99) ∧
  demo_settings 50 !! "seed" = Some (VInt 50) ∧
  opt_seed_increment demo_negative_kwargs = VInt (-100) ∧
  seeds_used (log demo_negative_increment_run.2)
    = [Some (VInt (-50)); Some (VInt (-50)); Some (VInt (-50));
       Some (VInt (-50)); Some (VInt 50)] ∧
  (∀ prev, seeds_as_claimed 50 (-100) prev [-50; -50; -50; -50; 50] = false).
Proof.
  split_and!; try (vm_compute; reflexivity).
  - intros prev H. cbn [seeds_as_claimed] in H. apply andb_prop in H as [H _].
    change (0 <=? 1) with true in H. cbv iota in H. apply Z.eqb_eq in H. lia.
  - intros prev. cbn [seeds_as_claimed]. apply andb_false_iff. right.
    vm_compute. reflexivity.
Qed.

(** ** Removing the resume files *)

Lemma staging_outcome_removals root cp info r evs :
  staging_outcome root cp info r evs → removals evs = [].
Proof. by destruct 1. Qed.

(** The removals of step 2 are those of lines 121 to 125. *)
Lemma allocation_outcome_removals C d f goal ninit nlive_const sf root cp r evs :
  allocation_outcome C d f goal ninit nlive_const sf root cp r evs →
  NoDup (removals evs) ∧
  (∀ p, p ∈ removals evs →
     ∃ cp' nd, cp = Some cp' ∧ nd ∈ step_ndead cp' ∧ p = step_file root nd) ∧
  (Qeq_bool goal 0 = true → removals evs = []) ∧
  (∀ x cp', r = Ok x → Qeq_bool goal 0 = false → cp = Some cp' →
     ∀ nd, nd ∈ step_ndead cp' → step_file root nd ∈ removals evs).
Proof.
  assert (Hnone : ∀ (r' : outcome (dyn_info * option Z)) evs',
            removals evs' = [] → (∀ x, r' ≠ Ok x) →
            NoDup (removals evs') ∧
            (∀ p, p ∈ removals evs' →
               ∃ cp' nd, cp = Some cp' ∧ nd ∈ step_ndead cp' ∧
                         p = step_file root nd) ∧
            (Qeq_bool goal 0 = true → removals evs' = []) ∧
            (∀ x cp', r' = Ok x → Qeq_bool goal 0 = false → cp = Some cp' →
               ∀ nd, nd ∈ step_ndead cp' → step_file root nd ∈ removals evs')).
  { intros r' evs' Hnil Hr. rewrite Hnil. split_and!.
    - apply NoDup_nil_2.
    - by intros p ?%elem_of_nil.
    - done.
    - intros x cp' Hx. by destruct (Hr x). }
  destruct 1 as [e|run e Hrun Ht|run samp e Hrun Ht Hal
                |run samp info e evs Hrun Ht Hal Hst
                |run samp info resume evs r evs' Hrun Ht Hal Hst Hcl].
  - by apply Hnone.
  - by apply Hnone.
  - by apply Hnone.
  - apply Hnone; [|done].
    repeat (rewrite removals_app || rewrite removals_cons).
    by rewrite (staging_outcome_removals _ _ _ _ _ Hst).
  - assert (removals ([EvLoadRun run; EvAllocate samp info] ++ evs ++ evs')
            = removals evs') as ->.
    { repeat (rewrite removals_app || rewrite removals_cons).
      by rewrite (staging_outcome_removals _ _ _ _ _ Hst). }
    destruct (cleanup_outcome_removals _ _ _ _ _ Hcl) as (H1 & H2 & H3 & H4).
    split_and!; [exact H1|exact H2|exact H3|].
    intros x cp' Hx. apply H4. by destruct r as [[]| |].
Qed.

Lemma resume_paths_differ root : root +:+ "_init.resume" ≠ root +:+ "_dyn.resume".
Proof.
  intros H. apply (f_equal String.length) in H.
  rewrite !string_length_app in H. cbn [String.length] in H. lia.
Qed.

(** One pass of the loop of lines 150 to 154. *)
Lemma remove_if_present_spec p s :
  wp (except_file_not_found (os_remove p)) s (λ r s',
    heap s' = heap s ∧ next_loc s' = next_loc s ∧
    log s' = log s ++ [EvRemove p] ∧
    match fs s !! p with
    | Some Dir => r = Raise (IsADirectoryError p) ∧ fs s' = fs s
    | _ => r = Ok tt ∧ fs s' = delete p (fs s)
    end).
Proof.
  apply wp_except, wp_os_remove. unfold remove_fs.
  destruct (fs s !! p) as [[c|]|] eqn:E; cbn [heap next_loc fs log].
  - by split_and!.
  - by split_and!.
  - split_and!; try done. symmetry. by apply delete_id.
Qed.

Lemma tidy_up_spec root s :
  wp (tidy_up root) s (λ r s',
    match fs s !! (root +:+ "_init.resume"), fs s !! (root +:+ "_dyn.resume") with
    | Some Dir, _ =>
        r = Raise (IsADirectoryError (root +:+ "_init.resume")) ∧
        fs s' = fs s ∧ log s' = log s ++ [EvRemove (root +:+ "_init.resume")]
    | _, Some Dir =>
        r = Raise (IsADirectoryError (root +:+ "_dyn.resume")) ∧
        fs s' = delete (root +:+ "_init.resume") (fs s) ∧
        log s' = log s ++ [EvRemove (root +:+ "_init.resume");
                           EvRemove (root +:+ "_dyn.resume")]
    | _, _ =>
        r = Ok tt ∧
        fs s' = delete (root +:+ "_dyn.resume")
                  (delete (root +:+ "_init.resume") (fs s)) ∧
        log s' = log s ++ [EvRemove (root +:+ "_init.resume");
                           EvRemove (root +:+ "_dyn.resume")]
    end).
Proof.
  unfold tidy_up. cbn [for_each].
  change (root +:+ "_" +:+ "init" +:+ ".resume") with (root +:+ "_init.resume").
  change (root +:+ "_" +:+ "dyn" +:+ ".resume") with (root +:+ "_dyn.resume").
  pose proof (resume_paths_differ root) as Hne.
  apply wp_bind. eapply wp_mono; [apply remove_if_present_spec|].
  intros r s1 (_ & _ & Hl1 & H1).
  destruct (fs s !! (root +:+ "_init.resume")) as [[c|]|] eqn:E1.
  - destruct H1 as (-> & Hf1).
    apply wp_bind. eapply wp_mono; [apply remove_if_present_spec|].
    intros r s2 (_ & _ & Hl2 & H3). rewrite Hf1, lookup_delete_ne in H3 by done.
    destruct (fs s !! (root +:+ "_dyn.resume")) as [[c'|]|];
      destruct H3 as (-> & Hf2); try apply wp_ret; cbv beta iota;
      rewrite Hf2, Hl2, Hl1, <- app_assoc; by split_and!.
  - destruct H1 as (-> & Hf1). by split_and!.
  - destruct H1 as (-> & Hf1).
    apply wp_bind. eapply wp_mono; [apply remove_if_present_spec|].
    intros r s2 (_ & _ & Hl2 & H3). rewrite Hf1, lookup_delete_ne in H3 by done.
    destruct (fs s !! (root +:+ "_dyn.resume")) as [[c'|]|];
      destruct H3 as (-> & Hf2); try apply wp_ret; cbv beta iota;
      rewrite Hf2, Hl2, Hl1, <- app_assoc; by split_and!.
Qed.

(** C8: the two clean-ups.  In step 2 the step-indexed checkpoint files are
    removed only in the goal-driven case, and the paths passed to
    [os.remove] are pairwise distinct -- one for each distinct entry of
    [step_ndead] -- and all of them when the step ends normally.  At the end
    of step 3, [<root>_init.resume] and [<root>_dyn.resume] are removed
    where they exist and the tidy-up ends normally whether or not they do;
    any other failure of [os.remove] -- in the model, a directory at the
    path -- ends the call with that exception, since the handler of
    lines 151 to 154 turns [FileNotFoundError] alone into a normal end. *)
Theorem checkpoint_cleanup C l_in goal ninit nlive_const sf root cp s (d : dict) r s' :
  heap s !! l_in = Some d →
  allocation C l_in goal ninit nlive_const sf root cp s = (r, s') →
  (∃ evs, log s' = log s ++ evs ∧
     NoDup (removals evs) ∧
     (∀ p, p ∈ removals evs →
        ∃ cp' nd, cp = Some cp' ∧ nd ∈ step_ndead cp' ∧ p = step_file root nd) ∧
     (Qeq_bool goal 0 = true → removals evs = []) ∧
     (∀ x cp', r = Ok x → Qeq_bool goal 0 = false → cp = Some cp' →
        ∀ nd, nd ∈ step_ndead cp' → step_file root nd ∈ removals evs)) ∧
  (∀ s0,
     match fs s0 !! (root +:+ "_init.resume"), fs s0 !! (root +:+ "_dyn.resume") with
     | Some Dir, _ =>
         (tidy_up root s0).1 = Raise (IsADirectoryError (root +:+ "_init.resume"))
     | _, Some Dir =>
         (tidy_up root s0).1 = Raise (IsADirectoryError (root +:+ "_dyn.resume"))
     | _, _ =>
         (tidy_up root s0).1 = Ok tt ∧
         fs (tidy_up root s0).2
         = delete (root +:+ "_dyn.resume")
             (delete (root +:+ "_init.resume") (fs s0))
     end) ∧
  (∀ (m : M unit) s0 e s1, m s0 = (Raise e, s1) →
     except_file_not_found m s0
     = (match e with FileNotFoundError _ => Ok tt | _ => Raise e end, s1)).
Proof.
  intros Hin E. split_and!.
  - destruct (allocation_spec C l_in goal ninit nlive_const sf root cp s d
                Hin r s' E) as (evs & Hout & _ & _ & Hl).
    exists evs. split; [exact Hl|].
    exact (allocation_outcome_removals _ _ _ _ _ _ _ _ _ _ _ Hout).
  - intros s0. destruct (tidy_up root s0) as [r0 s1] eqn:E0.
    pose proof (tidy_up_spec root s0 r0 s1 E0) as H. cbn [fst snd].
    destruct (fs s0 !! (root +:+ "_init.resume")) as [[c|]|];
      destruct (fs s0 !! (root +:+ "_dyn.resume")) as [[c'|]|];
      destruct H as (H1 & H2 & _); try exact H1; exact (conj H1 H2).
  - intros m s0 e s1 Hm. unfold except_file_not_found. rewrite Hm.
    by destruct e.
Qed.

Lemma checkpoint_cleanup_witness :
  (heap demo_initial_run.2 !! caller = Some (fill_defaults (demo_settings 1)) ∧
   allocation (demo_world 5 demo_schedule) caller 1 (VInt 5) (VInt 10)
     (DefaultSavgol (VInt 5)) "chains_test/test" (Some demo_checkpoints)
     demo_initial_run.2 = (demo_allocation.1, demo_allocation.2)) ∧
  (∃ evs, log demo_allocation.2 = log demo_initial_run.2 ++ evs ∧
     NoDup (removals evs) ∧
     (∀ p, p ∈ removals evs →
        ∃ cp' nd, Some demo_checkpoints = Some cp' ∧ nd ∈ step_ndead cp' ∧
                  p = step_file "chains_test/test" nd) ∧
     (Qeq_bool 1 0 = true → removals evs = []) ∧
     (∀ x cp', demo_allocation.1 = Ok x → Qeq_bool 1 0 = false →
        Some demo_checkpoints = Some cp' →
        ∀ nd, nd ∈ step_ndead cp' →
          step_file "chains_test/test" nd ∈ removals evs)) ∧
  (∀ s0,
     match fs s0 !! ("chains_test/test" +:+ "_init.resume"),
           fs s0 !! ("chains_test/test" +:+ "_dyn.resume") with
     | Some Dir, _ =>
         (tidy_up "chains_test/test" s0).1
         = Raise (IsADirectoryError ("chains_test/test" +:+ "_init.resume"))
     | _, Some Dir =>
         (tidy_up "chains_test/test" s0).1
         = Raise (IsADirectoryError ("chains_test/test" +:+ "_dyn.resume"))
     | _, _ =>
         (tidy_up "chains_test/test" s0).1 = Ok tt ∧
         fs (tidy_up "chains_test/test" s0).2
         = delete ("chains_test/test" +:+ "_dyn.resume")
             (delete ("chains_test/test" +:+ "_init.resume") (fs s0))
     end) ∧
  (∀ (m : M unit) s0 e s1, m s0 = (Raise e, s1) →
     except_file_not_found m s0
     = (match e with FileNotFoundError _ => Ok tt | _ => Raise e end, s1)).
Proof.
  assert (H1 : heap demo_initial_run.2 !! caller
               = Some (fill_defaults (demo_settings 1)))
    by (vm_compute; reflexivity).
  assert (H2 : allocation (demo_world 5 demo_schedule) caller 1 (VInt 5) (VInt 10)
                 (DefaultSavgol (VInt 5)) "chains_test/test" (Some demo_checkpoints)
                 demo_initial_run.2 = (demo_allocation.1, demo_allocation.2))
    by (unfold demo_allocation; apply surjective_pairing).
  split; [exact (conj H1 H2)|].
  exact (checkpoint_cleanup (demo_world 5 demo_schedule) caller 1 (VInt 5) (VInt 10)
           (DefaultSavgol (VInt 5)) "chains_test/test" (Some demo_checkpoints)
           demo_initial_run.2 (fill_defaults (demo_settings 1))
           demo_allocation.1 demo_allocation.2 H1 H2).
Defined.

(** ** The number of samples aimed at *)

(** C5 on the code.  With a positive [max_ndead] in the caller's dictionary
    the target is that [max_ndead], and the assertion of line 103 fails
    unless it exceeds the number of points of the exploratory run.
    Otherwise line 106 divides [nlive_const] by [ninit] before line 107
    asserts [nlive_const > ninit]: for [ninit] other than 0 the target is
    the product and the assertion fails when [nlive_const <= ninit], but for
    [ninit = 0] the division fails first.  Called with [ninit = 0] and
    [nlive_const = 0], the driver runs the sampler once, in step 1, reads
    the run back, and ends with [ZeroDivisionError], not with the
    [AssertionError] of line 107; nothing is allocated and the sampler is
    not invoked again. *)
Theorem zero_ninit_raises_division_error :
  (∀ C max_ndead nlive_const ninit nsamp cap,
     as_int max_ndead = inr cap → 0 < cap →
     sample_target C max_ndead nlive_const ninit nsamp
     = if nsamp <? cap then inr max_ndead
       else inl (AssertionError
                   "all points used in initial run and none left for dynamic run!")) ∧
  (∀ C max_ndead nlive_const ninit nsamp cap a b,
     as_int max_ndead = inr cap → cap ≤ 0 →
     as_int nlive_const = inr a → as_int ninit = inr b → b ≠ 0 →
     sample_target C max_ndead nlive_const ninit nsamp
     = if b <? a then inr (VFloat (int_mul_float C nsamp (int_truediv C a b)))
       else inl (AssertionError "")) ∧
  (∀ C max_ndead nlive_const nsamp cap a,
     as_int max_ndead = inr cap → cap ≤ 0 → as_int nlive_const = inr a →
     sample_target C max_ndead nlive_const (VInt 0) nsamp = inl ZeroDivisionError) ∧
  demo_zero_kwargs !! "ninit" = Some (VInt 0) ∧
  demo_zero_kwargs !! "nlive_const" = Some (VInt 0) ∧
  fill_defaults (demo_settings 1) !! "max_ndead" = Some (VInt (-1)) ∧
  demo_zero_ninit_run.1 = Raise ZeroDivisionError ∧
  (runs (log demo_zero_ninit_run.2)).*1 = [1%nat] ∧
  length (before_load (log demo_zero_ninit_run.2)) = 1%nat ∧
  allocations (log demo_zero_ninit_run.2) = [] ∧
  runs (after_allocate (log demo_zero_ninit_run.2)) = [].
Proof.
  split_and!; try (vm_compute; reflexivity).
  - intros C max_ndead nlive_const ninit nsamp cap Hcap Hpos.
    unfold sample_target. rewrite Hcap.
    destruct (0 <? cap) eqn:E; [done|]. apply Z.ltb_ge in E. lia.
  - intros C max_ndead nlive_const ninit nsamp cap a b Hcap Hle Ha Hb Hb0.
    unfold sample_target. rewrite Hcap, Ha, Hb.
    destruct (0 <? cap) eqn:E; [apply Z.ltb_lt in E; lia|].
    destruct (b =? 0) eqn:E0; [apply Z.eqb_eq in E0; lia|done].
  - intros C max_ndead nlive_const nsamp cap a Hcap Hle Ha.
    unfold sample_target. rewrite Hcap, Ha.
    destruct (0 <? cap) eqn:E; [apply Z.ltb_lt in E; lia|done].
Qed.

(** * Further properties of the driver *)

(** ** What the input checks accept *)

Lemma fill_defaults_falsy (d : dict) k :
  k = "nlives" ∨ k = "read_resume" →
  (∀ v, d !! k = Some v → truthy v = false) →
  ∀ v, fill_defaults d !! k = Some v → truthy v = false.
Proof.
  intros Hk Hd v Hv. destruct (d !! k) as [w|] eqn:E.
  - rewrite (fill_defaults_present _ _ _ E) in Hv. injection Hv as <-. by apply Hd.
  - rewrite (fill_defaults_missing _ _ E) in Hv.
    destruct Hk as [-> | ->]; vm_compute in Hv; by injection Hv as <-.
Qed.

Lemma prelude_accepts l kwargs s (d : dict) bd fr :
  heap s !! l = Some d →
  (∀ k, is_Some (kwargs !! k) → k ∈ recognised) →
  (∀ v, d !! "nlives" = Some v → truthy v = false) →
  (∀ v, d !! "read_resume" = Some v → truthy v = false) →
  fill_defaults d !! "base_dir" = Some (VStr bd) →
  fill_defaults d !! "file_root" = Some (VStr fr) →
  wp (prelude l kwargs) s (λ r _, ∃ o, r = Ok o ∧ root o = path_join bd fr).
Proof.
  intros Hl Hkw Hnls Hrr Hbd Hfr. unfold prelude. apply wp_bind.
  eapply wp_fill_defaults; [exact Hl|].
  intros s0 Hh Hn Hf Hg.
  assert (Hl0 : heap s0 !! l = Some (fill_defaults d))
    by (rewrite Hh; apply lookup_insert_eq).
  cbv beta iota zeta delta [pop pop_smoothing].
  apply wp_bind. eapply wp_getitem; [exact Hl0|].
  destruct (fill_defaults_has d "nlive" _ eq_refl) as [nl Hnl]. rewrite Hnl.
  destruct (Nat.eqb (size _) 0) eqn:Esz; cbn [negb].
  2:{ apply popped_size in Esz as (k & Hk & Hsome). destruct (Hk (Hkw _ Hsome)). }
  apply wp_bind. eapply wp_getitem; [exact Hl0|].
  destruct (fill_defaults_has d "nlives" _ eq_refl) as [nls Hv]. rewrite Hv.
  rewrite (fill_defaults_falsy d "nlives" (or_introl eq_refl) Hnls _ Hv).
  cbn [negb]. apply wp_bind, wp_assert.
  apply wp_bind. eapply wp_getitem; [exact Hl0|].
  destruct (fill_defaults_has d "read_resume" _ eq_refl) as [rr Hv']. rewrite Hv'.
  rewrite (fill_defaults_falsy d "read_resume" (or_intror eq_refl) Hrr _ Hv').
  cbn [negb]. apply wp_bind, wp_assert.
  apply wp_bind. eapply wp_getitem; [exact Hl0|]. rewrite Hbd.
  apply wp_bind. eapply wp_getitem; [exact Hl0|]. rewrite Hfr.
  apply wp_bind, wp_lift. cbn [join_root as_str].
  apply wp_ret. eexists. split; reflexivity.
Qed.

(** The converse of the input checks: a call whose keyword options are all
    known, whose dictionary holds no [nlives] and no [read_resume] or falsy
    ones, and whose [base_dir] and [file_root] -- given or defaulted -- are
    strings, passes lines 30 to 63.  The options are the ones given, with
    [init_step] defaulting to [ninit] and [nlive_const] to the dictionary's
    [nlive]; [root] is [os.path.join(base_dir, file_root)]; and by then only
    the caller's dictionary has changed: no file is touched, no collaborator
    called. *)
Theorem well_formed_call_is_accepted kwargs (d : dict) f bd fr :
  (∀ k, is_Some (kwargs !! k) → k ∈ recognised) →
  (∀ v, d !! "nlives" = Some v → truthy v = false) →
  (∀ v, d !! "read_resume" = Some v → truthy v = false) →
  fill_defaults d !! "base_dir" = Some (VStr bd) →
  fill_defaults d !! "file_root" = Some (VStr fr) →
  ∃ o s',
    prelude caller kwargs (initial_state d f) = (Ok o, s') ∧
    root o = path_join bd fr ∧
    ninit o = default (VInt 10) (kwargs !! "ninit") ∧
    init_step o = default (ninit o) (kwargs !! "init_step") ∧
    nlive_const o
    = default (default VNone (fill_defaults d !! "nlive")) (kwargs !! "nlive_const") ∧
    seed_increment o = default (VInt 100) (kwargs !! "seed_increment") ∧
    heap s' = {[caller := fill_defaults d]} ∧ next_loc s' = 1%nat ∧
    fs s' = f ∧ log s' = [].
Proof.
  intros Hkw Hnls Hrr Hbd Hfr.
  destruct (prelude caller kwargs (initial_state d f)) as [r s'] eqn:E.
  assert (Hc : heap (initial_state d f) !! caller = Some d)
    by apply lookup_singleton_eq.
  destruct (prelude_accepts caller kwargs _ d bd fr Hc Hkw Hnls Hrr Hbd Hfr r s' E)
    as (o & -> & Hroot).
  destruct (prelude_spec caller kwargs _ d Hc _ _ E)
    as (Hh & Hn & Hf & Hl & _ & _ & _ & Hopt).
  destruct (Hopt o eq_refl) as (H1 & H2 & H3 & H4 & _).
  exists o, s'. split_and!; try done. by rewrite H2, H1.
Qed.

Lemma well_formed_call_is_accepted_witness :
  ((∀ k, is_Some (demo_kwargs 5 !! k) → k ∈ recognised) ∧
   (∀ v, demo_settings 1 !! "nlives" = Some v → truthy v = false) ∧
   (∀ v, demo_settings 1 !! "read_resume" = Some v → truthy v = false) ∧
   fill_defaults (demo_settings 1) !! "base_dir" = Some (VStr "chains_test") ∧
   fill_defaults (demo_settings 1) !! "file_root" = Some (VStr "test")) ∧
  ∃ o s',
    prelude caller (demo_kwargs 5) (initial_state (demo_settings 1) ∅) = (Ok o, s') ∧
    root o = path_join "chains_test" "test" ∧
    ninit o = default (VInt 10) (demo_kwargs 5 !! "ninit") ∧
    init_step o = default (ninit o) (demo_kwargs 5 !! "init_step") ∧
    nlive_const o
    = default (default VNone (fill_defaults (demo_settings 1) !! "nlive"))
        (demo_kwargs 5 !! "nlive_const") ∧
    seed_increment o = default (VInt 100) (demo_kwargs 5 !! "seed_increment") ∧
    heap s' = {[caller := fill_defaults (demo_settings 1)]} ∧
    next_loc s' = 1%nat ∧ fs s' = ∅ ∧ log s' = [].
Proof.
  assert (H1 : ∀ k, is_Some (demo_kwargs 5 !! k) → k ∈ recognised).
  { intros k [v Hk]. unfold demo_kwargs in Hk.
    apply lookup_singleton_Some in Hk as [<- _]. by left. }
  assert (H2 : ∀ v, demo_settings 1 !! "nlives" = Some v → truthy v = false).
  { intros v Hv. vm_compute in Hv. discriminate Hv. }
  assert (H3 : ∀ v, demo_settings 1 !! "read_resume" = Some v → truthy v = false).
  { intros v Hv. vm_compute in Hv. discriminate Hv. }
  assert (H4 : fill_defaults (demo_settings 1) !! "base_dir"
               = Some (VStr "chains_test")) by (vm_compute; reflexivity).
  assert (H5 : fill_defaults (demo_settings 1) !! "file_root" = Some (VStr "test"))
    by (vm_compute; reflexivity).
  split; [exact (conj H1 (conj H2 (conj H3 (conj H4 H5))))|].
  exact (well_formed_call_is_accepted (demo_kwargs 5) (demo_settings 1) ∅
           "chains_test" "test" H1 H2 H3 H4 H5).
Defined.

(** ** The settings of the exploratory run *)

Lemma call_config_read_resume j step seed' (cfg : dict) :
  call_config j step seed' cfg !! "read_resume"
  = if bool_decide (j = 1%nat) then Some (VBool true) else cfg !! "read_resume".
Proof.
  unfold call_config. rewrite !lookup_insert_ne by done.
  case_bool_decide; [apply lookup_insert_eq|done].
Qed.

(** [read_resume] along the loop: it is switched on in the pass that starts
    with one entry in [step_ndead], and stays on. *)
Lemma config_chain_read_resume init_step inc cs : ∀ j (cfg : dict) i c b,
  config_chain init_step inc j cfg cs → cs !! i = Some c →
  cfg !! "read_resume" = Some (VBool b) → ((2 ≤ j)%nat → b = true) →
  c !! "read_resume" = Some (VBool (if decide ((j + i)%nat = 0%nat) then b else true)).
Proof.
  induction cs as [|c0 cs IH]; intros j cfg i c b Hch Hi Hb Hj; [done|].
  destruct Hch as [(step & seed & seed' & _ & _ & _ & Hc0) Hch].
  assert (H0 : c0 !! "read_resume"
               = Some (VBool (if decide (j = 0%nat) then b else true))).
  { rewrite Hc0, call_config_read_resume. case_bool_decide as Hj1.
    - subst j. done.
    - rewrite Hb. destruct (decide (j = 0%nat)); [done|].
      rewrite Hj by lia. done. }
  destruct i as [|i].
  - injection Hi as <-. rewrite H0. by rewrite Nat.add_0_r.
  - rewrite (IH (S j) c0 i c _ Hch Hi H0).
    + destruct (decide ((S j + i)%nat = 0%nat)); [lia|].
      destruct (decide ((j + S i)%nat = 0%nat)); [lia|done].
    + intros Hj2. destruct (decide (j = 0%nat)); [lia|done].
Qed.

(** The dictionary of every invocation of step 1 is the caller's -- with
    the defaults in -- but for [file_root], which gets the suffix [_init],
    for [nlive], which is [ninit], and, in the checkpointed loop, for the
    four keys the loop manages: [seed], [max_ndead], [read_resume] and
    [write_resume].  With [dynamic_goal == 0] there is one invocation only,
    and it gets the caller's own values for these four as well. *)
Theorem exploratory_settings fuel C run_func goal kwargs (d : dict) f k l c :
  runs (before_load (call_log fuel C run_func goal kwargs d f)) !! k
    = Some (l, c) →
  (∃ fr fr_init,
     fill_defaults d !! "file_root" = Some fr ∧
     py_add fr (VStr "_init") = inr fr_init ∧
     c !! "file_root" = Some fr_init) ∧
  c !! "nlive" = Some (opt_ninit kwargs) ∧
  (∀ key, key ∉ ["file_root"; "nlive"; "seed"; "max_ndead"; "read_resume";
                 "write_resume"] →
     c !! key = fill_defaults d !! key) ∧
  (Qeq_bool goal 0 = true →
     k = 0%nat ∧
     ∀ key, key ≠ "file_root" → key ≠ "nlive" → c !! key = fill_defaults d !! key).
Proof.
  intros Hk.
  destruct (call_initial fuel C run_func goal kwargs d f)
    as (rA & cfgA & cfg0 & cs & Hr & Hinit & Hshape & _).
  rewrite Hr, list_lookup_fmap in Hk.
  destruct (cs !! k) as [c'|] eqn:Hc; [|discriminate Hk].
  injection Hk as <- <-.
  assert (Hne : cs ≠ []) by (intros ->; by rewrite lookup_nil in Hc).
  specialize (Hinit Hne).
  pose proof Hinit as (fr & fr_init & Hfr & Hadd & Hcfg0).
  assert (Hroot0 : cfg0 !! "file_root" = Some fr_init).
  { rewrite Hcfg0, lookup_insert_ne by done. apply lookup_insert_eq. }
  destruct (Qeq_bool goal 0).
  - destruct Hshape as [-> | ->]; [done|].
    apply list_lookup_singleton_Some in Hc as [-> <-].
    split_and!.
    + by exists fr, fr_init.
    + by eapply init_config_nlive.
    + intros key Hkey. rewrite !not_elem_of_cons in Hkey.
      destruct Hkey as (H1 & H2 & _).
      exact (init_config_other _ _ _ _ Hinit H2 H1).
    + intros _. split; [done|]. intros key ??. by apply (init_config_other _ _ _ _ Hinit).
  - split_and!; [| | |done].
    + exists fr, fr_init. split_and!; [done|done|].
      rewrite (config_chain_other _ _ _ _ _ _ _ "file_root" Hshape Hc) by done.
      by rewrite loop_config_lookup.
    + rewrite (config_chain_other _ _ _ _ _ _ _ "nlive" Hshape Hc) by done.
      rewrite loop_config_lookup by done. by eapply init_config_nlive.
    + intros key Hkey. rewrite !not_elem_of_cons in Hkey.
      destruct Hkey as (H1 & H2 & H3 & H4 & H5 & H6 & _).
      rewrite (config_chain_other _ _ _ _ _ _ _ key Hshape Hc H3 H4 H5).
      rewrite (loop_config_lookup _ _ H5 H6).
      exact (init_config_other _ _ _ _ Hinit H2 H1).
Qed.

Lemma exploratory_settings_witness :
  runs (before_load (call_log 10 (demo_world 5 demo_schedule) (demo_sampler 12)
                       1 (demo_kwargs 5) (demo_settings 1) ∅)) !! 2%nat
    = Some (1%nat, demo_third_config) ∧
  (∃ fr fr_init,
     fill_defaults (demo_settings 1) !! "file_root" = Some fr ∧
     py_add fr (VStr "_init") = inr fr_init ∧
     demo_third_config !! "file_root" = Some fr_init) ∧
  demo_third_config !! "nlive" = Some (opt_ninit (demo_kwargs 5)) ∧
  (∀ key, key ∉ ["file_root"; "nlive"; "seed"; "max_ndead"; "read_resume";
                 "write_resume"] →
     demo_third_config !! key = fill_defaults (demo_settings 1) !! key) ∧
  (Qeq_bool 1 0 = true →
     2%nat = 0%nat ∧
     ∀ key, key ≠ "file_root" → key ≠ "nlive" →
       demo_third_config !! key = fill_defaults (demo_settings 1) !! key).
Proof.
  assert (H : runs (before_load (call_log 10 (demo_world 5 demo_schedule)
                                   (demo_sampler 12) 1 (demo_kwargs 5)
                                   (demo_settings 1) ∅)) !! 2%nat
              = Some (1%nat, demo_third_config))
    by (vm_compute; reflexivity).
  split; [exact H|].
  exact (exploratory_settings 10 (demo_world 5 demo_schedule) (demo_sampler 12) 1
           (demo_kwargs 5) (demo_settings 1) ∅ 2 1%nat demo_third_config H).
Defined.

(** In the checkpointed loop the first invocation starts afresh and every
    later one resumes: [read_resume] is [False] in the dictionary of the
    first invocation and [True] in all that follow. *)
Theorem resume_from_second_invocation fuel C run_func goal kwargs (d : dict) f
    k l c :
  Qeq_bool goal 0 = false →
  runs (before_load (call_log fuel C run_func goal kwargs d f)) !! k
    = Some (l, c) →
  c !! "read_resume" = Some (VBool (negb (Nat.eqb k 0))).
Proof.
  intros Hg Hk.
  destruct (call_initial fuel C run_func goal kwargs d f)
    as (rA & cfgA & cfg0 & cs & Hr & _ & Hshape & _).
  rewrite Hg in Hshape. rewrite Hr, list_lookup_fmap in Hk.
  destruct (cs !! k) as [c'|] eqn:Hc; [|discriminate Hk].
  injection Hk as <- <-.
  rewrite (config_chain_read_resume _ _ _ _ _ _ _ false Hshape Hc).
  - by destruct k.
  - apply lookup_insert_eq.
  - lia.
Qed.

Lemma resume_from_second_invocation_witness :
  (Qeq_bool 1 0 = false ∧
   runs (before_load (call_log 10 (demo_world 5 demo_schedule) (demo_sampler 12)
                        1 (demo_kwargs 5) (demo_settings 1) ∅)) !! 2%nat
     = Some (1%nat, demo_third_config)) ∧
  demo_third_config !! "read_resume" = Some (VBool (negb (Nat.eqb 2 0))).
Proof.
  assert (H1 : Qeq_bool 1 0 = false) by reflexivity.
  assert (H2 : runs (before_load (call_log 10 (demo_world 5 demo_schedule)
                                    (demo_sampler 12) 1 (demo_kwargs 5)
                                    (demo_settings 1) ∅)) !! 2%nat
               = Some (1%nat, demo_third_config))
    by (vm_compute; reflexivity).
  split; [exact (conj H1 H2)|].
  exact (resume_from_second_invocation 10 (demo_world 5 demo_schedule)
           (demo_sampler 12) 1 (demo_kwargs 5) (demo_settings 1) ∅ 2 1%nat
           demo_third_config H1 H2).
Defined.

(** ** The checkpoints of the exploratory run *)

Lemma outputs_app a b : outputs (a ++ b) = outputs a ++ outputs b.
Proof. apply omap_app. Qed.

Lemma step_outcome_ok sd init_step inc root cp cfg b cp' evs cfg' :
  step_outcome sd init_step inc root cp cfg (Ok (b, cp')) evs cfg' →
  ∃ out delta,
    step_ndead cp' = step_ndead cp ++ [delta] ∧
    outputs_at_resumes cp' = <[ndead out := out]> (outputs_at_resumes cp) ∧
    last_two_equal (step_ndead cp') = b ∧
    runs evs = [(sd, cfg')] ∧ outputs evs = [out] ∧
    copies evs = if b then []
                 else [(root +:+ "_init.resume", step_file root delta)].
Proof.
  inversion 1 as [| | |c' out nlv n Hc Hnl Hn Heq|c' out nlv n r Hc Hnl Hn Heq Hr];
    subst.
  - exists out, (ndead out - n). by split_and!.
  - destruct Hr as [Hr|[e Hr]]; simplify_eq.
    exists out, (ndead out - n). by split_and!.
Qed.

(** A loop that ends normally: one entry of [step_ndead], one sampler
    invocation and one output per pass; one copy of the checkpoint per pass
    but the last; the outputs filed under their dead-point counts. *)
Lemma loop_trace_ok sd init_step inc root fuel cp cfg r evs cfg' :
  loop_trace sd init_step inc root fuel cp cfg r evs cfg' →
  ∀ cp', r = Ok cp' →
    ∃ ds, step_ndead cp' = step_ndead cp ++ ds ∧ ds ≠ [] ∧
      last_two_equal (step_ndead cp') = true ∧
      length (runs evs) = length ds ∧ length (outputs evs) = length ds ∧
      copies evs
      = (λ nd, (root +:+ "_init.resume", step_file root nd)) <$> removelast ds ∧
      outputs_at_resumes cp'
      = foldl (λ m out, <[ndead out := out]> m) (outputs_at_resumes cp)
          (outputs evs).
Proof.
  induction 1 as [cp cfg|fuel cp cfg cp1 evs cfg1 Hstep
                 |fuel cp cfg e evs cfg1 Hstep
                 |fuel cp cfg cp1 evs cfg1 r evs' cfg2 Hstep Htr IH];
    intros cp' Hr; [done| |done|].
  - injection Hr as <-.
    destruct (step_outcome_ok _ _ _ _ _ _ _ _ _ _ Hstep)
      as (out & delta & Hs & Ho & Hb & Hruns & Houts & Hcp).
    exists [delta]. rewrite Hruns, Houts, Hcp, Ho. by split_and!.
  - destruct (step_outcome_ok _ _ _ _ _ _ _ _ _ _ Hstep)
      as (out & delta & Hs & Ho & Hb & Hruns & Houts & Hcp).
    destruct (IH _ Hr) as (ds & Hs' & Hne & Hlast & Hr' & Ho' & Hc' & Hm').
    exists (delta :: ds).
    rewrite runs_app, outputs_app, copies_app, !length_app, Hruns, Houts, Hcp.
    rewrite Hr', Ho', Hc', Hm', Ho, Hs', Hs, <- app_assoc.
    split_and!; try done.
    + by rewrite Hs', Hs, <- app_assoc in Hlast.
    + destruct ds; [done|]. reflexivity.
Qed.

Lemma last_two_equal_length steps :
  last_two_equal steps = true → (2 ≤ length steps)%nat.
Proof.
  unfold last_two_equal. intros H. rewrite <- length_rev.
  destruct (rev steps) as [|a [|b t]]; try done. cbn. lia.
Qed.

Lemma last_two_equal_removelast steps x :
  last_two_equal steps = true → x ∈ removelast steps ↔ x ∈ steps.
Proof.
  unfold last_two_equal. intros H.
  destruct (rev steps) as [|a [|b t]] eqn:E; try done.
  apply Z.eqb_eq in H as ->.
  assert (steps = (rev t ++ [b]) ++ [b]) as ->.
  { rewrite <- (rev_involutive steps), E. reflexivity. }
  rewrite removelast_last, !elem_of_app, !list_elem_of_singleton. tauto.
Qed.

(** The latest entry under a key, after filing a list of outputs. *)
Lemma foldl_insert_lookup (outs : list stats) : ∀ (m : gmap Z stats) n,
  foldl (λ m out, <[ndead out := out]> m) m outs !! n
  = match last (filter (λ out, ndead out = n) outs) with
    | Some out => Some out
    | None => m !! n
    end.
Proof.
  induction outs as [|o outs IH]; intros m n; [done|].
  cbn [foldl]. rewrite IH, filter_cons.
  destruct (decide (ndead o = n)) as [Hn|Hn].
  - destruct (filter _ outs) as [|o' l] eqn:E.
    + cbn. rewrite Hn. apply lookup_insert_eq.
    + rewrite last_cons_cons.
      destruct (last (o' :: l)) eqn:El; [done|]. by apply last_None in El.
  - destruct (last (filter _ outs)); [done|]. by rewrite lookup_insert_ne.
Qed.

Lemma initial_run_loop fuel C run_func l_in goal ninit init_step inc root s
    (d : dict) sd cp s' :
  heap s !! l_in = Some d → l_in ≠ next_loc s →
  initial_run fuel C run_func l_in goal ninit init_step inc root s
    = (Ok (sd, Some cp), s') →
  ∃ evs cfg0 cfg',
    log s' = log s ++ evs ∧ Qeq_bool goal 0 = false ∧
    loop_trace (next_loc s) init_step inc root fuel (mkCheckpoints [] ∅)
      (loop_config cfg0) (Ok cp) evs cfg'.
Proof.
  intros Hin Hne E.
  destruct (initial_run_spec fuel C run_func l_in goal ninit init_step inc root
              s d Hin Hne _ _ E) as (evs & cfg' & Hout & _ & _ & Hl).
  exists evs.
  inversion Hout as [|cfg0 r0 Hg Hc Hr|cfg0 rL evs0 cfg1 Hg Hc0 Htr Hr]; subst.
  - destruct Hr as [[=]|[? [=]]].
  - destruct rL; cbn [after_loop] in Hr; simplify_eq. eauto.
Qed.

Lemma readings_outputs evs : readings evs = ndead <$> outputs evs.
Proof.
  induction evs as [|e evs IH]; [done|]. destruct e; try exact IH.
  cbn. f_equal. exact IH.
Qed.

(** When the checkpointed loop ends normally, the checkpoint was copied once
    after every pass but the last, each time from [<root>_init.resume] to
    the step file named after the entry just appended to [step_ndead]; and
    since the last entry repeats the one before, the files written are
    exactly the files lines 124 and 125 go on to remove: no step file is
    left behind, none is removed that was never written. *)
Theorem checkpoint_copies_match_removals fuel C run_func l_in goal ninit init_step inc root s
    (d : dict) sd cp s' :
  heap s !! l_in = Some d → l_in ≠ next_loc s →
  initial_run fuel C run_func l_in goal ninit init_step inc root s
    = (Ok (sd, Some cp), s') →
  ∃ evs, log s' = log s ++ evs ∧
    copies evs
    = (λ nd, (root +:+ "_init.resume", step_file root nd))
        <$> removelast (step_ndead cp) ∧
    (∀ p, p ∈ (copies evs).*2 ↔ p ∈ step_files root (step_ndead cp)) ∧
    removals evs = [].
Proof.
  intros Hin Hne E.
  destruct (initial_run_loop _ _ _ _ _ _ _ _ _ _ _ _ _ _ Hin Hne E)
    as (evs & cfg0 & cfg' & Hl & _ & Htr).
  destruct (loop_trace_ok _ _ _ _ _ _ _ _ _ _ Htr _ eq_refl)
    as (ds & Hs & _ & Hlast & _ & _ & Hc & _).
  cbn [step_ndead app] in Hs. subst ds.
  exists evs. split_and!; [exact Hl|exact Hc| |].
  - intros p. rewrite Hc, <- list_fmap_compose, step_files_elem.
    rewrite list_elem_of_fmap. split.
    + intros (nd & -> & Hnd). exists nd. split; [|done].
      by apply last_two_equal_removelast.
    + intros (nd & Hnd & ->). exists nd. split; [done|].
      by apply last_two_equal_removelast.
  - pose proof (loop_trace_sampling _ _ _ _ _ _ _ _ _ _ Htr) as Hs.
    clear -Hs. induction Hs as [|e evs He _ IH]; [done|]. by destruct e.
Qed.

Lemma checkpoint_copies_match_removals_witness :
  (heap demo_after_prelude !! caller = Some (fill_defaults (demo_settings 1)) ∧
   caller ≠ next_loc demo_after_prelude ∧
   initial_run 10 (demo_world 5 demo_schedule) (demo_sampler 12) caller 1
     (VInt 5) (VInt 5) (VInt 100) "chains_test/test" demo_after_prelude
   = (Ok (1%nat, Some demo_checkpoints), demo_initial_run.2)) ∧
  ∃ evs, log demo_initial_run.2 = log demo_after_prelude ++ evs ∧
    copies evs
    = (λ nd, ("chains_test/test" +:+ "_init.resume", step_file "chains_test/test" nd))
        <$> removelast (step_ndead demo_checkpoints) ∧
    (∀ p, p ∈ (copies evs).*2 ↔ p ∈ step_files "chains_test/test" (step_ndead demo_checkpoints)) ∧
    removals evs = [].
Proof.
  assert (H1 : heap demo_after_prelude !! caller
               = Some (fill_defaults (demo_settings 1)))
    by (vm_compute; reflexivity).
  assert (H2 : caller ≠ next_loc demo_after_prelude) by (vm_compute; discriminate).
  assert (H3 : initial_run 10 (demo_world 5 demo_schedule) (demo_sampler 12)
                 caller 1 (VInt 5) (VInt 5) (VInt 100) "chains_test/test"
                 demo_after_prelude
               = (Ok (1%nat, Some demo_checkpoints), demo_initial_run.2))
    by (vm_compute; reflexivity).
  split; [exact (conj H1 (conj H2 H3))|].
  exact (checkpoint_copies_match_removals 10 (demo_world 5 demo_schedule) (demo_sampler 12) caller 1
           (VInt 5) (VInt 5) (VInt 100) "chains_test/test" demo_after_prelude
           (fill_defaults (demo_settings 1)) 1%nat demo_checkpoints
           demo_initial_run.2 H1 H2 H3).
Defined.

(** A checkpointed loop that ends normally has made at least two sampler
    invocations: [step_ndead] has one entry for each invocation and for each
    output read back, its last two entries are equal, and there is one copy
    of the checkpoint fewer than there are invocations. *)
Theorem at_least_two_exploratory_invocations fuel C run_func l_in goal ninit init_step inc root s
    (d : dict) sd cp s' :
  heap s !! l_in = Some d → l_in ≠ next_loc s →
  initial_run fuel C run_func l_in goal ninit init_step inc root s
    = (Ok (sd, Some cp), s') →
  ∃ evs, log s' = log s ++ evs ∧
    (2 ≤ length (step_ndead cp))%nat ∧
    last_two_equal (step_ndead cp) = true ∧
    length (runs evs) = length (step_ndead cp) ∧
    length (readings evs) = length (step_ndead cp) ∧
    length (copies evs) = (length (step_ndead cp) - 1)%nat.
Proof.
  intros Hin Hne E.
  destruct (initial_run_loop _ _ _ _ _ _ _ _ _ _ _ _ _ _ Hin Hne E)
    as (evs & cfg0 & cfg' & Hl & _ & Htr).
  destruct (loop_trace_ok _ _ _ _ _ _ _ _ _ _ Htr _ eq_refl)
    as (ds & Hs & _ & Hlast & Hr & Ho & Hc & _).
  cbn [step_ndead app] in Hs. subst ds.
  exists evs. split_and!; [exact Hl| |exact Hlast|exact Hr| |].
  - by apply last_two_equal_length.
  - by rewrite readings_outputs, length_fmap.
  - rewrite Hc, length_fmap.
    destruct (step_ndead cp) as [|x l] using rev_ind; [done|].
    rewrite removelast_last, length_app. cbn. lia.
Qed.

Lemma at_least_two_exploratory_invocations_witness :
  (heap demo_after_prelude !! caller = Some (fill_defaults (demo_settings 1)) ∧
   caller ≠ next_loc demo_after_prelude ∧
   initial_run 10 (demo_world 5 demo_schedule) (demo_sampler 12) caller 1
     (VInt 5) (VInt 5) (VInt 100) "chains_test/test" demo_after_prelude
   = (Ok (1%nat, Some demo_checkpoints), demo_initial_run.2)) ∧
  ∃ evs, log demo_initial_run.2 = log demo_after_prelude ++ evs ∧
    (2 ≤ length (step_ndead demo_checkpoints))%nat ∧
    last_two_equal (step_ndead demo_checkpoints) = true ∧
    length (runs evs) = length (step_ndead demo_checkpoints) ∧
    length (readings evs) = length (step_ndead demo_checkpoints) ∧
    length (copies evs) = (length (step_ndead demo_checkpoints) - 1)%nat.
Proof.
  assert (H1 : heap demo_after_prelude !! caller
               = Some (fill_defaults (demo_settings 1)))
    by (vm_compute; reflexivity).
  assert (H2 : caller ≠ next_loc demo_after_prelude) by (vm_compute; discriminate).
  assert (H3 : initial_run 10 (demo_world 5 demo_schedule) (demo_sampler 12)
                 caller 1 (VInt 5) (VInt 5) (VInt 100) "chains_test/test"
                 demo_after_prelude
               = (Ok (1%nat, Some demo_checkpoints), demo_initial_run.2))
    by (vm_compute; reflexivity).
  split; [exact (conj H1 (conj H2 H3))|].
  exact (at_least_two_exploratory_invocations 10 (demo_world 5 demo_schedule) (demo_sampler 12) caller 1
           (VInt 5) (VInt 5) (VInt 100) "chains_test/test" demo_after_prelude
           (fill_defaults (demo_settings 1)) 1%nat demo_checkpoints
           demo_initial_run.2 H1 H2 H3).
Defined.

(** [outputs_at_resumes] after a checkpointed loop that ended normally: it
    is keyed by the dead-point counts read back -- not by the entries of
    [step_ndead], which are these counts less [nlive] -- and under each
    count it holds the output of the latest pass that reported it. *)
Theorem outputs_filed_by_dead_count fuel C run_func l_in goal ninit init_step inc root s
    (d : dict) sd cp s' :
  heap s !! l_in = Some d → l_in ≠ next_loc s →
  initial_run fuel C run_func l_in goal ninit init_step inc root s
    = (Ok (sd, Some cp), s') →
  ∃ evs, log s' = log s ++ evs ∧
    ndead <$> outputs evs = readings evs ∧
    ∀ n, outputs_at_resumes cp !! n
         = last (filter (λ out, ndead out = n) (outputs evs)).
Proof.
  intros Hin Hne E.
  destruct (initial_run_loop _ _ _ _ _ _ _ _ _ _ _ _ _ _ Hin Hne E)
    as (evs & cfg0 & cfg' & Hl & _ & Htr).
  destruct (loop_trace_ok _ _ _ _ _ _ _ _ _ _ Htr _ eq_refl)
    as (ds & _ & _ & _ & _ & _ & _ & Hm).
  exists evs. split_and!; [exact Hl| |].
  - symmetry. apply readings_outputs.
  - intros n. rewrite Hm, foldl_insert_lookup. cbn [outputs_at_resumes].
    destruct (last _); [done|apply lookup_empty].
Qed.

Lemma outputs_filed_by_dead_count_witness :
  (heap demo_after_prelude !! caller = Some (fill_defaults (demo_settings 1)) ∧
   caller ≠ next_loc demo_after_prelude ∧
   initial_run 10 (demo_world 5 demo_schedule) (demo_sampler 12) caller 1
     (VInt 5) (VInt 5) (VInt 100) "chains_test/test" demo_after_prelude
   = (Ok (1%nat, Some demo_checkpoints), demo_initial_run.2)) ∧
  ∃ evs, log demo_initial_run.2 = log demo_after_prelude ++ evs ∧
    ndead <$> outputs evs = readings evs ∧
    ∀ n, outputs_at_resumes demo_checkpoints !! n
         = last (filter (λ out, ndead out = n) (outputs evs)).
Proof.
  assert (H1 : heap demo_after_prelude !! caller
               = Some (fill_defaults (demo_settings 1)))
    by (vm_compute; reflexivity).
  assert (H2 : caller ≠ next_loc demo_after_prelude) by (vm_compute; discriminate).
  assert (H3 : initial_run 10 (demo_world 5 demo_schedule) (demo_sampler 12)
                 caller 1 (VInt 5) (VInt 5) (VInt 100) "chains_test/test"
                 demo_after_prelude
               = (Ok (1%nat, Some demo_checkpoints), demo_initial_run.2))
    by (vm_compute; reflexivity).
  split; [exact (conj H1 (conj H2 H3))|].
  exact (outputs_filed_by_dead_count 10 (demo_world 5 demo_schedule) (demo_sampler 12) caller 1
           (VInt 5) (VInt 5) (VInt 100) "chains_test/test" demo_after_prelude
           (fill_defaults (demo_settings 1)) 1%nat demo_checkpoints
           demo_initial_run.2 H1 H2 H3).
Defined.


(** ** Step 2: what the allocation engine is given, and when staging fails *)

Lemma select_resume_none steps peak :
  (∀ nd, nd ∈ steps → peak < nd) → select_resume steps peak = inl IndexError.
Proof.
  intros Hall. pose proof (select_resume_spec steps peak) as H.
  destruct (select_resume steps peak) as [e|nd].
  - by destruct H as [-> _].
  - destruct H as (i & Hi & Hlt & _).
    apply list_elem_of_lookup_2, Hall in Hi. lia.
Qed.

(** If staging can only fail, and fail with [e], then step 2 ends with [e]
    right after the allocation. *)
Lemma allocation_outcome_staging_fails C d f goal ninit nlive_const sf root cp
    r evs samp info e :
  allocation_outcome C d f goal ninit nlive_const sf root cp r evs →
  (samp, info) ∈ allocations evs →
  (∀ rs evs1, staging_outcome root cp info rs evs1 → rs = Raise e ∧ evs1 = []) →
  r = Raise e ∧ ∃ run, evs = [EvLoadRun run; EvAllocate samp info].
Proof.
  intros Hout Hin Hfail.
  destruct Hout as [e0|run e0 Hrun Ht|run samp0 e0 Hrun Ht Hal
                   |run samp0 info0 e0 evs1 Hrun Ht Hal Hst
                   |run samp0 info0 resume evs1 r evs2 Hrun Ht Hal Hst Hcl].
  - by apply elem_of_nil in Hin.
  - by apply elem_of_nil in Hin.
  - by apply elem_of_nil in Hin.
  - destruct (staging_outcome_events _ _ _ _ _ Hst) as (_ & Ha1 & _).
    repeat (rewrite allocations_app in Hin || rewrite allocations_cons in Hin).
    rewrite Ha1 in Hin. cbn [app] in Hin.
    apply list_elem_of_singleton in Hin as [= -> ->].
    destruct (Hfail _ _ Hst) as [[= ->] ->]. split; [done|]. by exists run.
  - destruct (staging_outcome_events _ _ _ _ _ Hst) as (_ & Ha1 & _).
    repeat (rewrite allocations_app in Hin || rewrite allocations_cons in Hin).
    rewrite Ha1, (closing_allocations _ (cleanup_outcome_closing _ _ _ _ _ Hcl)) in Hin.
    cbn [app] in Hin. apply list_elem_of_singleton in Hin as [= -> ->].
    by destruct (Hfail _ _ Hst) as [[=] _].
Qed.

(** The allocation engine is consulted at most once, and with what lines 98
    to 109 say: the exploratory run read from the caller's [file_root] plus
    [_init] under the caller's [base_dir], on the files as step 1 left them;
    the number of samples computed from the caller's [max_ndead]; the
    caller's [dynamic_goal] and smoothing filter. *)
Theorem allocation_inputs C l_in goal ninit nlive_const sf root cp s (d : dict)
    r s' :
  heap s !! l_in = Some d →
  allocation C l_in goal ninit nlive_const sf root cp s = (r, s') →
  ∃ evs, log s' = log s ++ evs ∧
    ∀ samp info, (samp, info) ∈ allocations evs →
      allocations evs = [(samp, info)] ∧
      ∃ run fr fr_init bd sfr sbd max_ndead,
        d !! "file_root" = Some fr ∧ py_add fr (VStr "_init") = inr fr_init ∧
        d !! "base_dir" = Some bd ∧
        as_str fr_init = inr sfr ∧ as_str bd = inr sbd ∧
        process_polychord_run C sfr sbd (fs s) = inr run ∧
        d !! "max_ndead" = Some max_ndead ∧
        sample_target C max_ndead nlive_const ninit
          (Z.of_nat (length (logl run))) = inr samp ∧
        allocate C run samp goal sf = inr info.
Proof.
  intros Hin E.
  destruct (allocation_spec C l_in goal ninit nlive_const sf root cp s d
              Hin r s' E) as (evs & Hout & _ & _ & Hl).
  exists evs. split; [exact Hl|]. intros samp info Ha.
  destruct (allocation_outcome_shape _ _ _ _ _ _ _ _ _ _ _ Hout)
    as [[[->|[run ->]] _]
       |(run & samp' & info' & rs & evs1 & evs2 & -> & Hrun & Ht & Hal & Hst & Hcl & _)];
    [by apply elem_of_nil in Ha..|].
  destruct (staging_outcome_events _ _ _ _ _ Hst) as (_ & Ha1 & _).
  assert (Hall : allocations (EvLoadRun run :: EvAllocate samp' info' :: evs1 ++ evs2)
                 = [(samp', info')]).
  { repeat (rewrite allocations_app || rewrite allocations_cons).
    by rewrite Ha1, (closing_allocations _ Hcl). }
  rewrite Hall in Ha |- *. apply list_elem_of_singleton in Ha as [= -> ->].
  split; [done|].
  destruct Hrun as (fr & fr_init & bd & sfr & sbd & ? & ? & ? & ? & ? & ?).
  unfold target_of in Ht.
  destruct (d !! "max_ndead") as [max_ndead|] eqn:Emax; [|discriminate Ht].
  exists run, fr, fr_init, bd, sfr, sbd, max_ndead. by split_and!.
Qed.

Lemma allocation_inputs_witness :
  (heap demo_initial_run.2 !! caller = Some (fill_defaults (demo_settings 1)) ∧
   allocation (demo_world 5 demo_schedule) caller 1 (VInt 5) (VInt 10)
     (DefaultSavgol (VInt 5)) "chains_test/test" (Some demo_checkpoints)
     demo_initial_run.2 = (demo_allocation.1, demo_allocation.2)) ∧
  ∃ evs, log demo_allocation.2 = log demo_initial_run.2 ++ evs ∧
    ∀ samp info, (samp, info) ∈ allocations evs →
      allocations evs = [(samp, info)] ∧
      ∃ run fr fr_init bd sfr sbd max_ndead,
        fill_defaults (demo_settings 1) !! "file_root" = Some fr ∧
        py_add fr (VStr "_init") = inr fr_init ∧
        fill_defaults (demo_settings 1) !! "base_dir" = Some bd ∧
        as_str fr_init = inr sfr ∧ as_str bd = inr sbd ∧
        process_polychord_run (demo_world 5 demo_schedule) sfr sbd
          (fs demo_initial_run.2) = inr run ∧
        fill_defaults (demo_settings 1) !! "max_ndead" = Some max_ndead ∧
        sample_target (demo_world 5 demo_schedule) max_ndead (VInt 10) (VInt 5)
          (Z.of_nat (length (logl run))) = inr samp ∧
        allocate (demo_world 5 demo_schedule) run samp 1
          (DefaultSavgol (VInt 5)) = inr info.
Proof.
  assert (H1 : heap demo_initial_run.2 !! caller
               = Some (fill_defaults (demo_settings 1)))
    by (vm_compute; reflexivity).
  assert (H2 : allocation (demo_world 5 demo_schedule) caller 1 (VInt 5) (VInt 10)
                 (DefaultSavgol (VInt 5)) "chains_test/test" (Some demo_checkpoints)
                 demo_initial_run.2 = (demo_allocation.1, demo_allocation.2))
    by (unfold demo_allocation; apply surjective_pairing).
  split; [exact (conj H1 H2)|].
  exact (allocation_inputs (demo_world 5 demo_schedule) caller 1 (VInt 5) (VInt 10)
           (DefaultSavgol (VInt 5)) "chains_test/test" (Some demo_checkpoints)
           demo_initial_run.2 (fill_defaults (demo_settings 1))
           demo_allocation.1 demo_allocation.2 H1 H2).
Defined.

(** When the peak is not at index 0 and every entry of [step_ndead] lies
    beyond it, line 116 finds no checkpoint to resume from: step 2 ends with
    [IndexError] right after the allocation, nothing is copied, and the
    step files of the exploratory run are not removed. *)
Theorem no_checkpoint_before_peak C l_in goal ninit nlive_const sf root cp s
    (d : dict) r s' :
  heap s !! l_in = Some d →
  allocation C l_in goal ninit nlive_const sf root (Some cp) s = (r, s') →
  ∃ evs, log s' = log s ++ evs ∧
    ∀ samp info, (samp, info) ∈ allocations evs →
      peak_start_ind info ≠ 0 →
      (∀ nd, nd ∈ step_ndead cp → peak_start_ind info < nd) →
      r = Raise IndexError ∧ copies evs = [] ∧ removals evs = [].
Proof.
  intros Hin E.
  destruct (allocation_spec C l_in goal ninit nlive_const sf root (Some cp) s d
              Hin r s' E) as (evs & Hout & _ & _ & Hl).
  exists evs. split; [exact Hl|]. intros samp info Ha Hp Hall.
  destruct (allocation_outcome_staging_fails _ _ _ _ _ _ _ _ _ _ _ _ _ IndexError
              Hout Ha) as (-> & run & ->).
  { intros rs evs1 Hst.
    pose proof (select_resume_none _ _ Hall) as Hsel.
    inversion Hst as [Hp0|Hp0 [=]|cp' e Hp0 [= <-] Hsel'|cp' nd r0 Hp0 [= <-] Hsel' Hr];
      subst; [done| |]; rewrite Hsel in Hsel'; [|done].
    by injection Hsel' as <-. }
  by split_and!.
Qed.

Lemma no_checkpoint_before_peak_witness :
  (heap demo_late_initial_run.2 !! caller
   = Some (fill_defaults (demo_settings 1)) ∧
   allocation (demo_world 2 demo_schedule) caller 1 (VInt 5) (VInt 10)
     (DefaultSavgol (VInt 5)) "chains_test/test" (Some demo_late_checkpoints)
     demo_late_initial_run.2
   = (demo_late_allocation.1, demo_late_allocation.2)) ∧
  ∃ evs, log demo_late_allocation.2 = log demo_late_initial_run.2 ++ evs ∧
    ∀ samp info, (samp, info) ∈ allocations evs →
      peak_start_ind info ≠ 0 →
      (∀ nd, nd ∈ step_ndead demo_late_checkpoints → peak_start_ind info < nd) →
      demo_late_allocation.1 = Raise IndexError ∧
      copies evs = [] ∧ removals evs = [].
Proof.
  assert (H1 : heap demo_late_initial_run.2 !! caller
               = Some (fill_defaults (demo_settings 1)))
    by (vm_compute; reflexivity).
  assert (H2 : allocation (demo_world 2 demo_schedule) caller 1 (VInt 5) (VInt 10)
                 (DefaultSavgol (VInt 5)) "chains_test/test"
                 (Some demo_late_checkpoints) demo_late_initial_run.2
               = (demo_late_allocation.1, demo_late_allocation.2))
    by (unfold demo_late_allocation; apply surjective_pairing).
  split; [exact (conj H1 H2)|].
  exact (no_checkpoint_before_peak (demo_world 2 demo_schedule) caller 1 (VInt 5)
           (VInt 10) (DefaultSavgol (VInt 5)) "chains_test/test"
           demo_late_checkpoints demo_late_initial_run.2
           (fill_defaults (demo_settings 1))
           demo_late_allocation.1 demo_late_allocation.2 H1 H2).
Defined.

(** The example behind the witness: checkpoints after 5 and 7 dead points,
    peak at index 2. *)
Lemma no_checkpoint_before_peak_example :
  step_ndead demo_late_checkpoints = [5; 7; 7] ∧
  (λ ti, peak_start_ind ti.2)
    <$> allocations (drop (length (log demo_late_initial_run.2))
                       (log demo_late_allocation.2)) = [2] ∧
  demo_late_allocation.1 = Raise IndexError.
Proof. split_and!; vm_compute; reflexivity. Qed.

(** ** Whole calls that reach the allocation *)

Lemma dynamic_outcome_allocations sd d cfgA goal ninit inc info r evs :
  dynamic_outcome sd d cfgA goal ninit inc info r evs → allocations evs = [].
Proof.
  destruct 1 as [e|final_seed c r rest _ _ _ Hrest]; [done|].
  rewrite allocations_cons. by rewrite (closing_allocations _ Hrest).
Qed.

(** A call that obtained an allocation went through step 1 normally and
    then through step 2, where it may have stopped. *)
Lemma run_outcome_allocated C d kwargs goal fuel r evs h samp info :
  run_outcome C d kwargs goal fuel r evs h →
  (samp, info) ∈ allocations evs →
  ∃ root cp evA cfgA f1 rB evB evC,
    evs = evA ++ evB ++ evC ∧
    initial_outcome 1 (fill_defaults d) goal (opt_ninit kwargs)
      (opt_init_step kwargs) (opt_seed_increment kwargs) root fuel
      (Ok (1%nat, cp)) evA cfgA ∧
    allocation_outcome C (fill_defaults d) f1 goal (opt_ninit kwargs)
      (opt_nlive_const d kwargs) (opt_smoothing kwargs) root cp rB evB ∧
    (samp, info) ∈ allocations evB ∧
    ((∀ x, rB ≠ Ok x) ∧ r = reraise rB ∧ evC = [] ∨
     ∃ info' resume, rB = Ok (info', resume) ∧
       dynamic_outcome 2 (fill_defaults d) cfgA goal (opt_ninit kwargs)
         (opt_seed_increment kwargs) info' r evC).
Proof.
  destruct 1 as [e h
                |bd fr root rA evA cfgA h Hbd Hfr Hroot HA HrA
                |bd fr root cp evA cfgA f1 rB evB h Hbd Hfr Hroot HA HB HrB
                |bd fr root cp evA cfgA f1 info' resume evB r evC h Hbd Hfr Hroot
                   HA HB HC Hh]; intros Hin.
  - by apply elem_of_nil in Hin.
  - rewrite (sampling_allocations _ (initial_outcome_sampling _ _ _ _ _ _ _ _ _ _ _ HA))
      in Hin. by apply elem_of_nil in Hin.
  - rewrite allocations_app,
      (sampling_allocations _ (initial_outcome_sampling _ _ _ _ _ _ _ _ _ _ _ HA))
      in Hin. cbn [app] in Hin.
    exists root, cp, evA, cfgA, f1, rB, evB, []. rewrite app_nil_r.
    split_and!; try done. by left.
  - rewrite !allocations_app,
      (sampling_allocations _ (initial_outcome_sampling _ _ _ _ _ _ _ _ _ _ _ HA)),
      (dynamic_outcome_allocations _ _ _ _ _ _ _ _ _ HC), app_nil_r in Hin.
    cbn [app] in Hin.
    exists root, cp, evA, cfgA, f1, (Ok (info', resume)), evB, evC.
    split_and!; try done. right. eauto.
Qed.

Lemma pickles_app a b : pickles (a ++ b) = pickles a ++ pickles b.
Proof. apply omap_app. Qed.

Lemma sampling_pickles a : Forall sampling_event a → pickles a = [].
Proof. induction 1 as [|e a He _ IH]; [done|]. by destruct e. Qed.

Lemma sampling_removals a : Forall sampling_event a → removals a = [].
Proof. induction 1 as [|e a He _ IH]; [done|]. by destruct e. Qed.

(** With [dynamic_goal == 0] no checkpoint is ever recorded, so the call
    can only go on when the allocation puts the peak at index 0.  If the
    peak is anywhere else, line 112 reads [step_ndead], which was never
    bound: the call ends with [NameError] after the one invocation of
    step 1, with nothing copied, removed or pickled. *)
Theorem evidence_goal_needs_peak_at_start fuel C run_func goal kwargs (d : dict) f
    samp info :
  Qeq_bool goal 0 = true →
  (samp, info) ∈ allocations (call_log fuel C run_func goal kwargs d f) →
  peak_start_ind info ≠ 0 →
  (run_dypolychord fuel C run_func caller goal kwargs (initial_state d f)).1
    = Raise (NameError "step_ndead") ∧
  length (runs (call_log fuel C run_func goal kwargs d f)) = 1%nat ∧
  copies (call_log fuel C run_func goal kwargs d f) = [] ∧
  removals (call_log fuel C run_func goal kwargs d f) = [] ∧
  pickles (call_log fuel C run_func goal kwargs d f) = [].
Proof.
  intros Hg Hin Hp.
  destruct (run_outcome_allocated _ _ _ _ _ _ _ _ _ _
              (call_outcome fuel C run_func goal kwargs d f) Hin)
    as (root & cp & evA & cfgA & f1 & rB & evB & evC & -> & HA & HB & HinB & HC).
  assert (cp = None ∧ ∃ c, evA = [EvRun 1 c]) as (-> & c & ->).
  { inversion HA as [|cfg0 r0 Hg0 Hc Hr|cfg0 rL evs0 cfg1 Hg0]; subst;
      [|congruence].
    destruct Hr as [[= <-]|[? [=]]]. eauto. }
  destruct (allocation_outcome_staging_fails _ _ _ _ _ _ _ _ _ _ _ _ _
              (NameError "step_ndead") HB HinB) as (-> & run & ->).
  { intros rs evs1 Hst.
    inversion Hst as [Hp0|Hp0 _|cp' e Hp0 [=]|cp' nd r0 Hp0 [=]]; subst; done. }
  destruct HC as [(_ & Hr & ->)|(info' & resume & [=] & _)].
  split_and!; [|reflexivity..]. exact Hr.
Qed.

Lemma evidence_goal_needs_peak_at_start_witness :
  (Qeq_bool 0 0 = true ∧
   (demo_unbound_allocation.1, demo_unbound_allocation.2)
     ∈ allocations (call_log 10 (demo_world 3 demo_schedule) (demo_sampler 12)
                      0 (demo_kwargs 5) (demo_settings 1) ∅) ∧
   peak_start_ind demo_unbound_allocation.2 ≠ 0) ∧
  (run_dypolychord 10 (demo_world 3 demo_schedule) (demo_sampler 12) caller 0
     (demo_kwargs 5) (initial_state (demo_settings 1) ∅)).1
    = Raise (NameError "step_ndead") ∧
  length (runs (call_log 10 (demo_world 3 demo_schedule) (demo_sampler 12) 0
                  (demo_kwargs 5) (demo_settings 1) ∅)) = 1%nat ∧
  copies (call_log 10 (demo_world 3 demo_schedule) (demo_sampler 12) 0
            (demo_kwargs 5) (demo_settings 1) ∅) = [] ∧
  removals (call_log 10 (demo_world 3 demo_schedule) (demo_sampler 12) 0
              (demo_kwargs 5) (demo_settings 1) ∅) = [] ∧
  pickles (call_log 10 (demo_world 3 demo_schedule) (demo_sampler 12) 0
             (demo_kwargs 5) (demo_settings 1) ∅) = [].
Proof.
  assert (H1 : Qeq_bool 0 0 = true) by reflexivity.
  assert (E : allocations (call_log 10 (demo_world 3 demo_schedule)
                             (demo_sampler 12) 0 (demo_kwargs 5)
                             (demo_settings 1) ∅)
              = [(demo_unbound_allocation.1, demo_unbound_allocation.2)])
    by (vm_compute; reflexivity).
  assert (H2 : (demo_unbound_allocation.1, demo_unbound_allocation.2)
                 ∈ allocations (call_log 10 (demo_world 3 demo_schedule)
                                  (demo_sampler 12) 0 (demo_kwargs 5)
                                  (demo_settings 1) ∅)).
  { rewrite E. apply list_elem_of_singleton. reflexivity. }
  assert (H3 : peak_start_ind demo_unbound_allocation.2 ≠ 0).
  { intros H. vm_compute in H. discriminate H. }
  split; [exact (conj H1 (conj H2 H3))|].
  exact (evidence_goal_needs_peak_at_start 10 (demo_world 3 demo_schedule)
           (demo_sampler 12) 0 (demo_kwargs 5) (demo_settings 1) ∅
           demo_unbound_allocation.1 demo_unbound_allocation.2 H1 H2 H3).
Defined.

(** ** Step 3 on the log and the files *)

Lemma silent_ret {A} (a : A) : silent (mret a).
Proof. intros s. by apply wp_ret. Qed.

Lemma silent_raise {A} e : silent (raise e : M A).
Proof. intros s. by apply wp_raise. Qed.

Lemma silent_lift {A} (x : exn + A) : silent (lift x).
Proof. intros s. apply wp_lift. by destruct x. Qed.

Lemma silent_assert b msg : silent (py_assert b msg).
Proof. intros s. apply wp_assert. by destruct b. Qed.

Lemma silent_local {A} name (v : option A) : silent (local name v).
Proof. intros s. apply wp_local. by destruct v. Qed.

Lemma silent_read_obj l : silent (read_obj l).
Proof. intros s. apply wp_read_obj. by destruct (heap s !! l). Qed.

Lemma silent_bind {A B} (m : M A) (k : A → M B) :
  silent m → (∀ a, silent (k a)) → silent (m ≫= k).
Proof.
  intros Hm Hk s. apply wp_bind. eapply wp_mono; [apply Hm|].
  intros r s1 (Hr & Hf & Hl). destruct r as [a|e|]; [|done|done].
  eapply wp_mono; [apply Hk|]. intros r s2 (Hr2 & Hf2 & Hl2).
  split_and!; congruence.
Qed.

Lemma silent_getitem l k : silent (getitem l k).
Proof.
  apply silent_bind; [apply silent_read_obj|]. intros d.
  destruct (d !! k); [apply silent_ret|apply silent_raise].
Qed.

Lemma silent_setitem l k v : silent (setitem l k v).
Proof.
  apply silent_bind; [apply silent_read_obj|]. intros d s r s' [= <- <-]. done.
Qed.

Lemma silent_deepcopy l : silent (deepcopy l).
Proof.
  apply silent_bind; [apply silent_read_obj|]. intros d s r s' [= <- <-]. done.
Qed.

(** A silent computation followed by the rest: the rest starts with the
    files and the log of [s0]. *)
Lemma wp_silent_bind {A B} s0 (m : M A) (k : A → M B) s Q :
  silent m → fs s = fs s0 → log s = log s0 →
  (∀ e s1, fs s1 = fs s0 → log s1 = log s0 → Q (Raise e) s1) →
  (∀ a s1, fs s1 = fs s0 → log s1 = log s0 → wp (k a) s1 Q) →
  wp (m ≫= k) s Q.
Proof.
  intros Hm Hf Hl He Hk. apply wp_bind. eapply wp_mono; [apply Hm|].
  intros r s1 (Hr & Hf1 & Hl1). destruct r as [a|e|]; [| |done].
  - apply Hk; congruence.
  - apply He; congruence.
Qed.

Lemma wp_call_run_func_any run_func l s (Q : outcome unit → state → Prop) :
  (∀ e, Q (Raise e) s) →
  (∀ c, match run_func c (fs s) with
        | inl e => Q (Raise e) (mkState (heap s) (next_loc s) (fs s)
                                  (log s ++ [EvRun l c]))
        | inr f' => Q (Ok tt) (mkState (heap s) (next_loc s) f'
                                 (log s ++ [EvRun l c]))
        end) →
  wp (call_run_func run_func l) s Q.
Proof.
  intros He Hc. destruct (heap s !! l) as [c|] eqn:E.
  - eapply wp_call_run_func; [exact E|apply Hc].
  - unfold call_run_func. apply wp_bind, wp_read_obj. rewrite E. apply He.
Qed.

Ltac solve_silent :=
  repeat first
    [ apply silent_ret | apply silent_raise | apply silent_lift
    | apply silent_assert | apply silent_local | apply silent_getitem
    | apply silent_setitem | apply silent_deepcopy
    | (apply silent_bind; [|intros ?])
    | match goal with |- silent (if ?b then _ else _) => destruct b end ].

Lemma dynamic_run_closing C run_func l_in goal ninit inc root init_dict cp info
    resume s :
  wp (dynamic_run C run_func l_in goal ninit inc root init_dict cp info resume) s
    (closing_outcome run_func root cp info resume s).
Proof.
  unfold dynamic_run.
  assert (Hearly : ∀ e s1, fs s1 = fs s → log s1 = log s →
            closing_outcome run_func root cp info resume s (Raise e) s1)
    by (intros; by apply closing_early).
  apply (wp_silent_bind s); [solve_silent|done|done|exact Hearly|].
  intros final_seed s1 Hf1 Hl1.
  apply (wp_silent_bind s); [solve_silent|done|done|exact Hearly|].
  intros sd s2 Hf2 Hl2.
  apply (wp_silent_bind s); [solve_silent|done|done|exact Hearly|].
  intros final_n s3 Hf3 Hl3.
  apply (wp_silent_bind s); [solve_silent|done|done|exact Hearly|].
  intros [] s4 Hf4 Hl4.
  apply (wp_silent_bind s); [solve_silent|done|done|exact Hearly|].
  intros [] s5 Hf5 Hl5.
  apply (wp_silent_bind s); [solve_silent|done|done|exact Hearly|].
  intros [] s6 Hf6 Hl6.
  apply (wp_silent_bind s); [solve_silent|done|done|exact Hearly|].
  intros [] s7 Hf7 Hl7.
  apply (wp_silent_bind s); [solve_silent|done|done|exact Hearly|].
  intros file_root s8 Hf8 Hl8.
  apply (wp_silent_bind s); [solve_silent|done|done|exact Hearly|].
  intros file_root_dyn s9 Hf9 Hl9.
  apply (wp_silent_bind s); [solve_silent|done|done|exact Hearly|].
  intros [] s10 Hf10 Hl10.
  apply wp_bind, wp_call_run_func_any; [intros e; by apply Hearly|].
  intros c. rewrite Hf10, Hl10.
  destruct (run_func c (fs s)) as [e|f1] eqn:Erun.
  { by eapply closing_sampler_failed. }
  apply wp_bind.
  apply (wp_mono _ _ (λ (r : outcome dyn_info) s',
    s' = mkState (heap s10) (next_loc s10) f1 (log s ++ [EvRun sd c]) ∧
    match r with
    | Ok info' => saved_info cp info resume info'
    | Raise e =>
        peak_start_ind info ≠ 0 ∧
        ∀ nd outs, resume = Some nd → outputs_at_resumes <$> cp = Some outs →
          outs !! nd = None ∧ e = KeyError (str nd)
    | OutOfFuel => False
    end)).
  { unfold saved_info. destruct (peak_start_ind info =? 0) eqn:Ep; cbn [negb].
    - by apply wp_ret.
    - apply Z.eqb_neq in Ep.
      apply wp_bind, wp_local. destruct resume as [nd|]; [|done].
      apply wp_bind, wp_local.
      destruct (outputs_at_resumes <$> cp) as [outs|]; [|done].
      destruct (outs !! nd) as [out|] eqn:Eout.
      + apply wp_ret. split; [done|]. by exists nd, outs, out.
      + apply wp_raise. split_and!; [done..|]. by intros ?? [= <-] [= <-]. }
  intros r s11 [-> Hr]. destruct r as [info'|e|]; [| |done].
  2:{ destruct Hr as [Hp Hkey]. by eapply closing_no_resume_info. }
  apply wp_bind, wp_call_pickle_save. intros r f2 Hr2. cbn [heap next_loc fs log].
  destruct r as [[]|e|]; [| |done].
  2:{ eapply (closing_pickled _ _ _ _ _ _ sd c f1 info' []);
        [exact Erun|exact Hr|cbn [fmap list_fmap log]; by rewrite <- app_assoc
        |done|done]. }
  eapply wp_mono; [apply tidy_up_spec|]. cbn [heap next_loc fs log].
  intros r s12 H.
  pose proof (resume_paths_differ root) as Hne.
  destruct (f2 !! (root +:+ "_init.resume")) as [[c1|]|];
    destruct (f2 !! (root +:+ "_dyn.resume")) as [[c2|]|];
    destruct H as (-> & Hfs & Hlog); rewrite <- !app_assoc in Hlog;
    first
      [ eapply (closing_pickled _ _ _ _ _ _ sd c f1 info'
                  [root +:+ "_init.resume"; root +:+ "_dyn.resume"]);
          [exact Erun|exact Hr|exact Hlog|done|];
          intros _; rewrite Hfs; split_and!;
            [done|by rewrite lookup_delete_ne, lookup_delete_eq
            |apply lookup_delete_eq]
      | eapply (closing_pickled _ _ _ _ _ _ sd c f1 info'
                  [root +:+ "_init.resume"; root +:+ "_dyn.resume"]);
          [exact Erun|exact Hr|exact Hlog|done|done]
      | eapply (closing_pickled _ _ _ _ _ _ sd c f1 info'
                  [root +:+ "_init.resume"]);
          [exact Erun|exact Hr|exact Hlog|done|done] ].
Qed.

Lemma pickles_cons e evs :
  pickles (e :: evs)
  = match e with EvPickle i p => [(i, p)] | _ => [] end ++ pickles evs.
Proof. by destruct e. Qed.

Lemma removes_pickles ps : pickles (EvRemove <$> ps) = [].
Proof. by induction ps. Qed.

Lemma removes_runs ps : runs (EvRemove <$> ps) = [].
Proof. by induction ps. Qed.

(** What step 3 pickles.  The sampler is invoked at most once and the
    allocation is pickled at most once, after the invocation, to
    [<root>_dyn_info]; a normal end has pickled it.  With the peak at
    index 0 the allocation is pickled as it came.  Otherwise it is pickled
    with [resume_ndead] and with [resume_nlike], the [nlike] filed in
    [outputs_at_resumes] under the key [resume_ndead]. *)
Theorem resume_info_saved C run_func l_in goal ninit inc root init_dict cp info
    resume s r s' :
  dynamic_run C run_func l_in goal ninit inc root init_dict cp info resume s
    = (r, s') →
  ∃ evs, log s' = log s ++ evs ∧
    (length (runs evs) ≤ 1)%nat ∧ (length (pickles evs) ≤ 1)%nat ∧
    (r = Ok tt → length (pickles evs) = 1%nat) ∧
    ∀ info' path, (info', path) ∈ pickles evs →
      path = root +:+ "_dyn_info" ∧ length (runs evs) = 1%nat ∧
      (peak_start_ind info = 0 → info' = info) ∧
      (peak_start_ind info ≠ 0 →
         ∃ nd outs out,
           resume = Some nd ∧ outputs_at_resumes <$> cp = Some outs ∧
           outs !! nd = Some out ∧
           info' = mkDynInfo (peak_start_ind info) (nlives_dict info)
                     (importance info) (Some nd) (Some (nlike out))).
Proof.
  intros E.
  pose proof (dynamic_run_closing C run_func l_in goal ninit inc root init_dict
                cp info resume s r s' E) as H.
  destruct H as [e s' Hf Hl|l c e s' Hrun Hf Hl|l c f1 e s' Hrun Hf Hl Hp Hkey
                |l c f1 info' ps r s' Hrun Hsaved Hl Hr Hok].
  - exists []. rewrite app_nil_r. split_and!; [done|cbn; lia|cbn; lia|done|].
    by intros ?? ?%elem_of_nil.
  - exists [EvRun l c]. split_and!; [done|cbn; lia|cbn; lia|done|].
    by intros ?? ?%elem_of_nil.
  - exists [EvRun l c]. split_and!; [done|cbn; lia|cbn; lia|done|].
    by intros ?? ?%elem_of_nil.
  - eexists. split; [exact Hl|].
    rewrite runs_cons, runs_cons, removes_runs.
    rewrite pickles_cons, pickles_cons, removes_pickles. cbn [app length].
    split_and!; [lia|lia|done|].
    intros info0 path [= -> ->]%list_elem_of_singleton.
    split_and!; [done|done| |]; unfold saved_info in Hsaved.
    + intros Hp. rewrite Hp in Hsaved. exact Hsaved.
    + intros Hp. apply Z.eqb_neq in Hp. rewrite Hp in Hsaved. exact Hsaved.
Qed.

Lemma resume_info_saved_witness :
  dynamic_run (demo_world 5 demo_schedule) (demo_sampler 12) caller 1 (VInt 5)
    (VInt 100) "chains_test/test" 1 (Some demo_checkpoints)
    demo_allocated.1 demo_allocated.2 demo_allocation.2
  = (demo_dynamic_run.1, demo_dynamic_run.2) ∧
  ∃ evs, log demo_dynamic_run.2 = log demo_allocation.2 ++ evs ∧
    (length (runs evs) ≤ 1)%nat ∧ (length (pickles evs) ≤ 1)%nat ∧
    (demo_dynamic_run.1 = Ok tt → length (pickles evs) = 1%nat) ∧
    ∀ info' path, (info', path) ∈ pickles evs →
      path = "chains_test/test" +:+ "_dyn_info" ∧ length (runs evs) = 1%nat ∧
      (peak_start_ind demo_allocated.1 = 0 → info' = demo_allocated.1) ∧
      (peak_start_ind demo_allocated.1 ≠ 0 →
         ∃ nd outs out,
           demo_allocated.2 = Some nd ∧
           outputs_at_resumes <$> Some demo_checkpoints = Some outs ∧
           outs !! nd = Some out ∧
           info' = mkDynInfo (peak_start_ind demo_allocated.1)
                     (nlives_dict demo_allocated.1)
                     (importance demo_allocated.1) (Some nd) (Some (nlike out))).
Proof.
  assert (H : dynamic_run (demo_world 5 demo_schedule) (demo_sampler 12) caller 1
                (VInt 5) (VInt 100) "chains_test/test" 1 (Some demo_checkpoints)
                demo_allocated.1 demo_allocated.2 demo_allocation.2
              = (demo_dynamic_run.1, demo_dynamic_run.2))
    by (unfold demo_dynamic_run; apply surjective_pairing).
  split; [exact H|].
  exact (resume_info_saved (demo_world 5 demo_schedule) (demo_sampler 12) caller 1
           (VInt 5) (VInt 100) "chains_test/test" 1%nat (Some demo_checkpoints)
           demo_allocated.1 demo_allocated.2 demo_allocation.2
           demo_dynamic_run.1 demo_dynamic_run.2 H).
Defined.

(** The example behind the witness: the checkpoint staged is the one of
    [step_ndead] entry 5, written after the second step, which reported 10
    dead points and 30 likelihood calls; the [nlike] pickled is the 15 of
    the first step, the one that reported 5 dead points. *)
Lemma resume_info_saved_example :
  demo_dynamic_run.1 = Ok tt ∧
  pickles (log demo_dynamic_run.2)
  = [(mkDynInfo 5 demo_schedule [] (Some 5) (Some 15), "chains_test/test_dyn_info")] ∧
  outputs (log demo_initial_run.2)
  = [mkStats 5 15; mkStats 10 30; mkStats 12 36; mkStats 12 36] ∧
  step_ndead demo_checkpoints = [0; 5; 7; 7].
Proof. split_and!; vm_compute; reflexivity. Qed.

(** [resume_ndead] is an entry of [step_ndead], a dead-point count less
    [nlive], while [outputs_at_resumes] is keyed by the counts themselves.
    When the peak is not at index 0 and no output is filed under
    [resume_ndead], step 3 cannot end normally and pickles nothing; if it
    gets as far as the sampler and the sampler returns, it ends with
    [KeyError] at line 145, after the dynamic run and with the files as the
    sampler left them: the two resume files are not tidied up. *)
Theorem unfiled_resume_count_raises_key_error C run_func l_in goal ninit inc root
    init_dict cp info resume s r s' nd outs :
  dynamic_run C run_func l_in goal ninit inc root init_dict cp info resume s
    = (r, s') →
  peak_start_ind info ≠ 0 → resume = Some nd →
  outputs_at_resumes <$> cp = Some outs → outs !! nd = None →
  ∃ evs, log s' = log s ++ evs ∧
    r ≠ Ok tt ∧ pickles evs = [] ∧ removals evs = [] ∧
    ∀ l c f1, runs evs = [(l, c)] → run_func c (fs s) = inr f1 →
      r = Raise (KeyError (str nd)) ∧ fs s' = f1.
Proof.
  intros E Hp Hres Houts Hnone.
  pose proof (dynamic_run_closing C run_func l_in goal ninit inc root init_dict
                cp info resume s r s' E) as H.
  destruct H as [e s' Hf Hl|l c e s' Hrun Hf Hl|l c f1 e s' Hrun Hf Hl _ Hkey
                |l c f1 info' ps r s' Hrun Hsaved Hl Hr Hok].
  - exists []. rewrite app_nil_r. split_and!; [done..|]. by intros ???[=].
  - exists [EvRun l c]. split_and!; [done..|].
    intros l' c' f1 [= <- <-] Hrun'. congruence.
  - exists [EvRun l c]. split_and!; [done..|].
    intros l' c' f1' [= <- <-] Hrun'.
    destruct (Hkey _ _ Hres Houts) as [_ ->]. split; [done|congruence].
  - unfold saved_info in Hsaved. apply Z.eqb_neq in Hp. rewrite Hp in Hsaved.
    destruct Hsaved as (nd' & outs' & out & Hres' & Houts' & Hout & _).
    congruence.
Qed.

Lemma unfiled_resume_count_raises_key_error_witness :
  (dynamic_run (demo_world 7 demo_schedule) (demo_sampler 12) caller 1 (VInt 5)
     (VInt 100) "chains_test/test" 1 (Some demo_checkpoints)
     (mkDynInfo 7 demo_schedule [] None None) (Some 7) demo_key_allocation.2
   = (demo_key_dynamic_run.1, demo_key_dynamic_run.2) ∧
   peak_start_ind (mkDynInfo 7 demo_schedule [] None None) ≠ 0 ∧
   Some 7 = Some 7 ∧
   outputs_at_resumes <$> Some demo_checkpoints
   = Some (outputs_at_resumes demo_checkpoints) ∧
   outputs_at_resumes demo_checkpoints !! 7 = None) ∧
  ∃ evs, log demo_key_dynamic_run.2 = log demo_key_allocation.2 ++ evs ∧
    demo_key_dynamic_run.1 ≠ Ok tt ∧ pickles evs = [] ∧ removals evs = [] ∧
    ∀ l c f1, runs evs = [(l, c)] →
      demo_sampler 12 c (fs demo_key_allocation.2) = inr f1 →
      demo_key_dynamic_run.1 = Raise (KeyError (str 7)) ∧
      fs demo_key_dynamic_run.2 = f1.
Proof.
  assert (H1 : dynamic_run (demo_world 7 demo_schedule) (demo_sampler 12) caller 1
                 (VInt 5) (VInt 100) "chains_test/test" 1 (Some demo_checkpoints)
                 (mkDynInfo 7 demo_schedule [] None None) (Some 7)
                 demo_key_allocation.2
               = (demo_key_dynamic_run.1, demo_key_dynamic_run.2))
    by (unfold demo_key_dynamic_run; apply surjective_pairing).
  assert (H2 : peak_start_ind (mkDynInfo 7 demo_schedule [] None None) ≠ 0)
    by (cbn; lia).
  assert (H3 : Some 7 = Some 7) by reflexivity.
  assert (H4 : outputs_at_resumes <$> Some demo_checkpoints
               = Some (outputs_at_resumes demo_checkpoints)) by reflexivity.
  assert (H5 : outputs_at_resumes demo_checkpoints !! 7 = None)
    by (vm_compute; reflexivity).
  split; [exact (conj H1 (conj H2 (conj H3 (conj H4 H5))))|].
  exact (unfiled_resume_count_raises_key_error (demo_world 7 demo_schedule)
           (demo_sampler 12) caller 1 (VInt 5) (VInt 100) "chains_test/test"
           1%nat (Some demo_checkpoints) (mkDynInfo 7 demo_schedule [] None None)
           (Some 7) demo_key_allocation.2 demo_key_dynamic_run.1
           demo_key_dynamic_run.2 7 (outputs_at_resumes demo_checkpoints)
           H1 H2 H3 H4 H5).
Defined.

(** The same in a whole call: checkpoints after 0, 5 and 7 dead points,
    peak at index 7. *)
Lemma unfiled_resume_count_example :
  demo_key_run.1 = Raise (KeyError "7") ∧
  readings (log demo_key_run.2) = [5; 10; 12; 12] ∧
  length (runs (log demo_key_run.2)) = 5%nat ∧
  pickles (log demo_key_run.2) = [] ∧
  is_Some (fs demo_key_run.2 !! "chains_test/test_dyn.resume").
Proof. split_and!; [vm_compute; reflexivity..|]. vm_compute. eauto. Qed.

(** ** A call that ends normally *)

Lemma allocation_outcome_pickles C d f goal ninit nlive_const sf root cp r evs :
  allocation_outcome C d f goal ninit nlive_const sf root cp r evs →
  pickles evs = [].
Proof.
  assert (Hst : ∀ info rs evs1, staging_outcome root cp info rs evs1 →
                  pickles evs1 = []) by (by destruct 1).
  assert (Hcl : ∀ rc evs2, cleanup_outcome root goal cp rc evs2 →
                  pickles evs2 = []).
  { destruct 1; [done|done|apply removes_pickles|apply removes_pickles]. }
  destruct 1 as [e|run e Hrun Ht|run samp e Hrun Ht Hal
                |run samp info e evs Hrun Ht Hal Hs
                |run samp info resume evs r evs' Hrun Ht Hal Hs Hc]; try done.
  - rewrite pickles_app, (Hst _ _ _ Hs). done.
  - rewrite !pickles_app, (Hst _ _ _ Hs), (Hcl _ _ Hc). done.
Qed.

(** Steps 1 and 2 pickle nothing; a call that gets to step 3 ends as
    step 3 ends. *)
Lemma run_dypolychord_closing fuel C run_func goal kwargs (d : dict) f :
  wp (run_dypolychord fuel C run_func caller goal kwargs) (initial_state d f)
    (λ r s',
      (r ≠ Ok tt ∧ pickles (log s') = []) ∨
      ∃ bd fr root cp info resume s2,
        fill_defaults d !! "base_dir" = Some bd ∧
        fill_defaults d !! "file_root" = Some fr ∧
        join_root bd fr = inr root ∧
        pickles (log s2) = [] ∧
        closing_outcome run_func root cp info resume s2 r s').
Proof.
  unfold run_dypolychord. apply wp_bind.
  eapply wp_mono; [apply (prelude_spec caller kwargs _ d); apply lookup_singleton_eq|].
  intros r s0 (Hh0 & Hn0 & Hf0 & Hl0 & Hr0 & _ & _ & Hopt).
  cbn [initial_state heap next_loc fs log] in *.
  assert (Hc0 : heap s0 !! caller = Some (fill_defaults d))
    by (rewrite Hh0; apply lookup_insert_eq).
  destruct r as [o|e|]; [| |done].
  2:{ left. by rewrite Hl0. }
  destruct (Hopt o eq_refl) as (-> & -> & -> & -> & -> & bd & fr & Hbd & Hfr & Hroot).
  apply wp_bind. eapply wp_mono.
  { eapply initial_run_spec; [exact Hc0|]. rewrite Hn0. done. }
  rewrite Hn0, Hl0. cbn [app].
  intros rA s1 (evA & cfgA & HA & Hh1 & Hn1 & Hl1).
  assert (HpA : pickles (log s1) = []).
  { rewrite Hl1. apply sampling_pickles. by eapply initial_outcome_sampling. }
  assert (Hc1 : heap s1 !! caller = Some (fill_defaults d)).
  { rewrite Hh1, lookup_insert_ne by done. exact Hc0. }
  destruct rA as [[sd cp]|e|]; [|by left|by left].
  apply wp_bind. eapply wp_mono; [eapply allocation_spec; exact Hc1|].
  intros rB s2 (evB & HB & Hh2 & Hn2 & Hl2).
  assert (HpB : pickles (log s2) = []).
  { rewrite Hl2, pickles_app, HpA. by eapply allocation_outcome_pickles. }
  destruct rB as [[info resume]|e|]; [|by left|by left].
  eapply wp_mono; [apply dynamic_run_closing|].
  intros r s3 H. right. exists bd, fr, (root o), cp, info, resume, s2.
  by split_and!.
Qed.

(** When the call returns normally, the allocation has been pickled once,
    to [<root>_dyn_info], the last two paths handed to [os.remove] were
    [<root>_init.resume] and [<root>_dyn.resume], and neither file exists
    any more; [root] is [os.path.join] of the caller's [base_dir] and
    [file_root], defaults included. *)
Theorem normal_end_leaves_no_resume_files fuel C run_func goal kwargs (d : dict)
    f s' :
  run_dypolychord fuel C run_func caller goal kwargs (initial_state d f)
    = (Ok tt, s') →
  ∃ bd fr root info ps,
    fill_defaults d !! "base_dir" = Some bd ∧
    fill_defaults d !! "file_root" = Some fr ∧
    join_root bd fr = inr root ∧
    pickles (log s') = [(info, root +:+ "_dyn_info")] ∧
    removals (log s')
    = ps ++ [root +:+ "_init.resume"; root +:+ "_dyn.resume"] ∧
    fs s' !! (root +:+ "_init.resume") = None ∧
    fs s' !! (root +:+ "_dyn.resume") = None.
Proof.
  intros E.
  destruct (run_dypolychord_closing fuel C run_func goal kwargs d f _ _ E)
    as [[Hr _]|(bd & fr & root & cp & info & resume & s2 & Hbd & Hfr & Hroot & Hp & H)];
    [done|].
  inversion H as [| | |l c f1 info' ps r0 s0 Hrun Hsaved Hl Hr Hok]; subst.
  destruct (Hok eq_refl) as (-> & Hf1 & Hf2).
  exists bd, fr, root, info', (removals (log s2)).
  split_and!; try done.
  - rewrite Hl, pickles_app, Hp, pickles_cons, pickles_cons, removes_pickles. done.
  - rewrite Hl, removals_app, removals_cons, removals_cons, removes_removals. done.
Qed.

Lemma normal_end_leaves_no_resume_files_witness :
  run_dypolychord 10 (demo_world 5 demo_schedule) (demo_sampler 12) caller 1
    (demo_kwargs 5) (initial_state (demo_settings 1) ∅) = (Ok tt, demo_run.2) ∧
  ∃ bd fr root info ps,
    fill_defaults (demo_settings 1) !! "base_dir" = Some bd ∧
    fill_defaults (demo_settings 1) !! "file_root" = Some fr ∧
    join_root bd fr = inr root ∧
    pickles (log demo_run.2) = [(info, root +:+ "_dyn_info")] ∧
    removals (log demo_run.2)
    = ps ++ [root +:+ "_init.resume"; root +:+ "_dyn.resume"] ∧
    fs demo_run.2 !! (root +:+ "_init.resume") = None ∧
    fs demo_run.2 !! (root +:+ "_dyn.resume") = None.
Proof.
  assert (H : run_dypolychord 10 (demo_world 5 demo_schedule) (demo_sampler 12)
                caller 1 (demo_kwargs 5) (initial_state (demo_settings 1) ∅)
              = (Ok tt, demo_run.2)) by (vm_compute; reflexivity).
  split; [exact H|].
  exact (normal_end_leaves_no_resume_files 10 (demo_world 5 demo_schedule)
           (demo_sampler 12) 1 (demo_kwargs 5) (demo_settings 1) ∅ demo_run.2 H).
Defined.

(** ** The settings of the dynamic run *)

(** The dictionary of the dynamic run is the caller's -- with the defaults
    in, and without any of the edits step 1 made to its own copy -- but for
    five keys: [file_root], which gets the suffix [_dyn]; [nlive], [nlives]
    and [read_resume]; and [seed].  In particular [write_resume] and
    [max_ndead] are the caller's own. *)
Theorem dynamic_settings_frame fuel C run_func goal kwargs (d : dict) f l c :
  (l, c) ∈ runs (after_allocate (call_log fuel C run_func goal kwargs d f)) →
  (∃ fr fr_dyn,
     fill_defaults d !! "file_root" = Some fr ∧
     py_add fr (VStr "_dyn") = inr fr_dyn ∧
     c !! "file_root" = Some fr_dyn) ∧
  (∀ key, key ∉ ["file_root"; "nlive"; "nlives"; "read_resume"; "seed"] →
     c !! key = fill_defaults d !! key).
Proof.
  intros Hin.
  destruct (call_initial fuel C run_func goal kwargs d f)
    as (rA & cfgA & cfg0 & cs & _ & _ & _ & _ & _ & HC).
  destruct HC as [HC|(cp & samp & info & fs' & c' & _ & _ & _ & Hcfg & HC & _)];
    rewrite HC in Hin.
  { by apply elem_of_nil in Hin. }
  apply list_elem_of_singleton in Hin as [= -> ->].
  destruct Hcfg as (final_n & base & nl & fr & fr_dyn & _ & Hbase & _ & Hfr & Hadd & ->).
  split.
  - exists fr, fr_dyn. split_and!; [done|done|apply lookup_insert_eq].
  - intros key Hkey. rewrite !not_elem_of_cons in Hkey.
    destruct Hkey as (H1 & H2 & H3 & H4 & H5 & _).
    rewrite !lookup_insert_ne by done.
    destruct (0 <=? final_n).
    + destruct Hbase as (seed_in & n & seed' & _ & _ & _ & _ & ->).
      by rewrite lookup_insert_ne.
    + by subst base.
Qed.

Lemma dynamic_settings_frame_witness :
  (2%nat, demo_dynamic_config)
    ∈ runs (after_allocate (call_log 10 (demo_world 5 demo_schedule)
                              (demo_sampler 12) 1 (demo_kwargs 5)
                              (demo_settings 1) ∅)) ∧
  (∃ fr fr_dyn,
     fill_defaults (demo_settings 1) !! "file_root" = Some fr ∧
     py_add fr (VStr "_dyn") = inr fr_dyn ∧
     demo_dynamic_config !! "file_root" = Some fr_dyn) ∧
  (∀ key, key ∉ ["file_root"; "nlive"; "nlives"; "read_resume"; "seed"] →
     demo_dynamic_config !! key = fill_defaults (demo_settings 1) !! key).
Proof.
  assert (E : runs (after_allocate (call_log 10 (demo_world 5 demo_schedule)
                                      (demo_sampler 12) 1 (demo_kwargs 5)
                                      (demo_settings 1) ∅))
              = [(2%nat, demo_dynamic_config)])
    by (vm_compute; reflexivity).
  assert (H : (2%nat, demo_dynamic_config)
                ∈ runs (after_allocate (call_log 10 (demo_world 5 demo_schedule)
                                          (demo_sampler 12) 1 (demo_kwargs 5)
                                          (demo_settings 1) ∅))).
  { rewrite E. apply list_elem_of_singleton. reflexivity. }
  split; [exact H|].
  exact (dynamic_settings_frame 10 (demo_world 5 demo_schedule) (demo_sampler 12) 1
           (demo_kwargs 5) (demo_settings 1) ∅ 2%nat demo_dynamic_config H).
Defined.
